(** * migrate_server.py: replaying the rooms of one Matrix server on another

    A shallow embedding of [src/migrate_server.py].  The script drives two
    [nio.AsyncClient] objects (the old and the new homeserver).  The nio
    library and the servers behind it are the environment: they are taken
    as a record of transition functions over an abstract client state, so
    a theorem holds for every behaviour of the servers unless it states
    what it expects of them.  The Python
    code itself (the class [Matrix_Server], [download_mxc], [sys_exit] and
    [main]) is translated function by function into a state-and-exception
    monad over a [World] holding the interpreter state the script can
    observe: the class attribute, the instances, the log file, the error
    stream and the sequence of network operations performed. *)

From Stdlib Require Import ZArith String Ascii List Lia DecimalString.
From stdpp Require Import base decidable option list strings.

Import ListNotations.
Local Open Scope string_scope.
Local Open Scope Z_scope.

(** ** Rendering of values inside f-strings *)

Definition str_Z (z : Z) : string := NilZero.string_of_int (Z.to_int z).
Definition str_nat (n : nat) : string := NilZero.string_of_uint (Nat.to_uint n).

(** [s[:n]] on a Python string.  A string is held as the bytes of its
    UTF-8 encoding while Python slices by code point, so the bytes of the
    first [n] code points are taken: a continuation byte ([10xxxxxx])
    belongs to the code point before it. *)
Definition is_continuation (a : ascii) : bool :=
  match a with Ascii _ _ _ _ _ _ b6 b7 => b7 && negb b6 end.

Fixpoint str_prefix (n : nat) (s : string) : string :=
  match s with
  | EmptyString => EmptyString
  | String a s' =>
      if is_continuation a then String a (str_prefix n s')
      else match n with
           | O => EmptyString
           | S n' => String a (str_prefix n' s')
           end
  end.

(** [str(x)] for a value that may be [None]. *)
Definition str_opt (o : option string) : string :=
  match o with Some s => s | None => "None" end.

(** ** The nio event classes

    [fetch_room_events] and [send_events] select events with [isinstance],
    so the class of an event and the inheritance between the classes are
    what matters.  [parent] is the base class as nio declares it;
    [BadEvent] and [UnknownBadEvent] are the two values a chunk can hold
    which are not events at all. *)

Inductive EventClass : Set :=
  | Event_ | UnknownEvent | RedactedEvent | RedactionEvent
  | RoomMemberEvent | RoomCreateEvent | RoomNameEvent | RoomTopicEvent
  | ReactionEvent | StickerEvent | MegolmEvent
  | RoomMessage
  | RoomMessageFormatted | RoomMessageText | RoomMessageEmote | RoomMessageNotice
  | RoomMessageMedia | RoomMessageImage | RoomMessageAudio
  | RoomMessageVideo | RoomMessageFile
  | RoomEncryptedMedia | RoomEncryptedImage | RoomEncryptedAudio
  | RoomEncryptedVideo | RoomEncryptedFile
  | RoomMessageUnknown
  | BadEvent | UnknownBadEvent.

#[global] Instance EventClass_eq_dec : EqDecision EventClass.
Proof. solve_decision. Defined.

Definition parent (c : EventClass) : option EventClass :=
  match c with
  | Event_ | BadEvent | UnknownBadEvent => None
  | UnknownEvent | RedactedEvent | RedactionEvent
  | RoomMemberEvent | RoomCreateEvent | RoomNameEvent | RoomTopicEvent
  | ReactionEvent | StickerEvent | MegolmEvent | RoomMessage => Some Event_
  | RoomMessageFormatted | RoomMessageMedia | RoomEncryptedMedia
  | RoomMessageUnknown => Some RoomMessage
  | RoomMessageText | RoomMessageEmote | RoomMessageNotice => Some RoomMessageFormatted
  | RoomMessageImage | RoomMessageAudio | RoomMessageVideo
  | RoomMessageFile => Some RoomMessageMedia
  | RoomEncryptedImage | RoomEncryptedAudio | RoomEncryptedVideo
  | RoomEncryptedFile => Some RoomEncryptedMedia
  end.

(** The class itself followed by its bases; the hierarchy is four deep. *)
Fixpoint bases (depth : nat) (c : EventClass) : list EventClass :=
  c :: match depth with
       | O => []
       | S d => match parent c with Some p => bases d p | None => [] end
       end.

Definition issubclass (c d : EventClass) : bool := bool_decide (d ∈ bases 4 c).

(** ** Values exchanged with nio *)

Record Event : Set := {
  ev_class : EventClass;
  event_id : string;
  ev_body : string;                 (* event.body *)
  ev_url : string;                  (* event.url, media events *)
  ev_msgtype : option string        (* event.source['content']['msgtype'] *)
}.

(** [isinstance(event, (c1, c2, ...))]. *)
Definition isinstance (e : Event) (cs : list EventClass) : bool :=
  existsb (issubclass (ev_class e)) cs.

(** [type(event).__name__]. *)
Definition class_name (c : EventClass) : string :=
  match c with
  | Event_ => "Event" | UnknownEvent => "UnknownEvent"
  | RedactedEvent => "RedactedEvent" | RedactionEvent => "RedactionEvent"
  | RoomMemberEvent => "RoomMemberEvent" | RoomCreateEvent => "RoomCreateEvent"
  | RoomNameEvent => "RoomNameEvent" | RoomTopicEvent => "RoomTopicEvent"
  | ReactionEvent => "ReactionEvent" | StickerEvent => "StickerEvent"
  | MegolmEvent => "MegolmEvent" | RoomMessage => "RoomMessage"
  | RoomMessageFormatted => "RoomMessageFormatted"
  | RoomMessageText => "RoomMessageText" | RoomMessageEmote => "RoomMessageEmote"
  | RoomMessageNotice => "RoomMessageNotice"
  | RoomMessageMedia => "RoomMessageMedia" | RoomMessageImage => "RoomMessageImage"
  | RoomMessageAudio => "RoomMessageAudio" | RoomMessageVideo => "RoomMessageVideo"
  | RoomMessageFile => "RoomMessageFile"
  | RoomEncryptedMedia => "RoomEncryptedMedia"
  | RoomEncryptedImage => "RoomEncryptedImage"
  | RoomEncryptedAudio => "RoomEncryptedAudio"
  | RoomEncryptedVideo => "RoomEncryptedVideo"
  | RoomEncryptedFile => "RoomEncryptedFile"
  | RoomMessageUnknown => "RoomMessageUnknown"
  | BadEvent => "BadEvent" | UnknownBadEvent => "UnknownBadEvent"
  end.

(** [hasattr(event, 'body')]: the formatted messages, the media and
    encrypted media messages and the sticker event declare a [body]; the
    other classes do not, and [ev_body] means nothing for them. *)
Definition has_body (c : EventClass) : bool :=
  issubclass c RoomMessageFormatted || issubclass c RoomMessageMedia
  || issubclass c RoomEncryptedMedia || bool_decide (c = StickerEvent).

Record MatrixRoom : Set := {
  room_id : string;
  display_name : string;
  topic : option string;
  room_version : string
}.

Inductive MessageDirection : Set := back | front.

Definition str_direction (d : MessageDirection) : string :=
  match d with back => "MessageDirection.back" | front => "MessageDirection.front" end.

(** The [Server] dataclass. *)
Record Server : Set := {
  server : string;
  user : string;
  password : string;
  token : string
}.

Inductive Credential : Set :=
  | ByPassword (p : string)
  | ByToken (t : string).

(** Responses.  An error response of nio carries a message and a status
    code and none of the fields of the successful response. *)
Inductive LoginResp : Set :=
  | LoginResponse
  | LoginError (message : string).

Inductive LogoutResp : Set :=
  | LogoutResponse
  | LogoutError (message : string).

Inductive RoomCreateResp : Set :=
  | RoomCreateResponse (new_room_id : string)
  | RoomCreateError (message : string).

Inductive DownloadResp : Set :=
  | DownloadResponse (body : list Byte.byte) (content_type : string)
                     (filename : option string)
  | DownloadError (message : string).

Inductive UploadResp : Set :=
  | UploadResponse (content_uri : string)
  | UploadError (message : string).

(** [room_send] either returns a response (which the script ignores) or
    raises. *)
Inductive SendResult : Set :=
  | SendReturned (accepted : bool)
  | SendRaised (what : string).

(** The [content] dictionary handed to [room_send]. *)
Inductive Content : Set :=
  | MediaContent (body : option string) (size : nat) (mimetype : string)
                 (url : string) (msgtype : string)
  | TextContent (body : string) (msgtype : string).

Definition content_body (c : Content) : string :=
  match c with
  | MediaContent b _ _ _ _ => str_opt b
  | TextContent b _ => b
  end.

Inductive Level : Set := ERROR.

(** Python exceptions the script can raise. *)
Inductive Exn : Set :=
  | AttributeError (what : string)
  | TypeError (what : string)
  | KeyError (what : string)
  | RuntimeError (what : string)
  | SystemExit (code : Z).

(** What running a piece of the script gives: a value, an exception that
    is propagating, or (for the model only) a loop that has not finished
    within the steps allowed. *)
Inductive Outcome (A : Type) : Type :=
  | Ret (a : A)
  | Raise (e : Exn)
  | OutOfFuel.
Arguments Ret {A} a.
Arguments Raise {A} e.
Arguments OutOfFuel {A}.

(** A reference to a [Matrix_Server] instance. *)
Abbreviation ref := nat.

Section Tokens.
Context {Token : Type}.

Inductive RoomMessagesResp : Type :=
  | RoomMessagesResponse (chunk : list Event) (start end_ : Token)
  | RoomMessagesError (message : string).

(** [rooms.join[room_id].timeline.prev_batch] for every joined room. *)
Inductive SyncResp : Type :=
  | SyncResponse (join : list (string * Token))
  | SyncError (message : string).

(** The network operations, as recorded in order of execution. *)
Inductive NetCall : Type :=
  | CallLogin (r : ref) (c : Credential)
  | CallLogout (r : ref)
  | CallSync (r : ref)
  | CallRoomCreate (r : ref) (name : string)
  | CallRoomMessages (r : ref) (rid : string) (start : Token)
                     (limit : Z) (d : MessageDirection)
  | CallDownload (r : ref) (mxc : string)
  | CallUpload (r : ref) (data : list Byte.byte) (content_type : string)
               (filename : option string) (filesize : nat)
  | CallRoomSend (r : ref) (rid : string) (message_type : string)
                 (content : Content).
End Tokens.
Arguments RoomMessagesResp : clear implicits.
Arguments SyncResp : clear implicits.
Arguments NetCall : clear implicits.

(** The methods of [nio.AsyncClient] the script calls.  [AsyncClient] is
    the state of one client object together with the server it talks to. *)
Record Nio (Token AsyncClient : Type) : Type := {
  nio_AsyncClient : string -> string -> AsyncClient;
  nio_set_device_id : string -> AsyncClient -> AsyncClient;
  nio_rooms : AsyncClient -> list (string * MatrixRoom);
  nio_login : Credential -> AsyncClient -> LoginResp * AsyncClient;
  nio_logout : AsyncClient -> LogoutResp * AsyncClient;
  nio_sync : option Z -> AsyncClient -> SyncResp Token * AsyncClient;
  nio_room_create : string -> option string -> string ->
                    AsyncClient -> RoomCreateResp * AsyncClient;
  nio_room_messages : string -> Token -> Z -> MessageDirection ->
                      AsyncClient -> RoomMessagesResp Token * AsyncClient;
  nio_download : string -> AsyncClient -> DownloadResp * AsyncClient;
  nio_upload : list Byte.byte -> string -> option string -> nat ->
               AsyncClient -> UploadResp * AsyncClient;
  nio_room_send : string -> string -> Content ->
                  AsyncClient -> SendResult * AsyncClient
}.
Arguments nio_AsyncClient {Token AsyncClient}.
Arguments nio_set_device_id {Token AsyncClient}.
Arguments nio_rooms {Token AsyncClient}.
Arguments nio_login {Token AsyncClient}.
Arguments nio_logout {Token AsyncClient}.
Arguments nio_sync {Token AsyncClient}.
Arguments nio_room_create {Token AsyncClient}.
Arguments nio_room_messages {Token AsyncClient}.
Arguments nio_download {Token AsyncClient}.
Arguments nio_upload {Token AsyncClient}.
Arguments nio_room_send {Token AsyncClient}.

(** ** The interpreter state and the monad of the script *)

Section Migrate.
Context {Token AsyncClient : Type}.
(** The environment: nio and the two servers, and how a pagination
    token prints inside an f-string. *)
Context (nio : Nio Token AsyncClient) (str_token : Token -> string).

(** A [Matrix_Server] object.  [device_cnt] is the attribute of that
    name in the instance dictionary, absent until an assignment through
    [self] creates it; [client] is absent until [login].  [self.rooms]
    is bound to the dictionary [self.client.rooms], which nio updates in
    place: [rooms_bound] tells whether the attribute exists, and reading
    it reads the client's dictionary as it is at that moment. *)
Record Matrix_Server : Type := {
  ms_server : Server;
  verb : bool;
  old : option ref;
  device : string;
  device_cnt : option Z;
  room_names : list string;
  client : option AsyncClient;
  rooms_bound : bool
}.

Record World : Type := {
  cls_device_cnt : Z;               (* Matrix_Server.device_cnt *)
  heap : list Matrix_Server;
  log : list (Level * string);
  stderr : list string;
  trace : list (NetCall Token)
}.

Definition M (A : Type) : Type := World -> Outcome A * World.

Definition ret {A} (a : A) : M A := fun w => (Ret a, w).
Definition raise {A} (e : Exn) : M A := fun w => (Raise e, w).
Definition out_of_fuel {A} : M A := fun w => (OutOfFuel, w).
Definition bind {A B} (m : M A) (k : A -> M B) : M B :=
  fun w => match m w with
           | (Ret a, w') => k a w'
           | (Raise e, w') => (Raise e, w')
           | (OutOfFuel, w') => (OutOfFuel, w')
           end.

Notation "x <- m ;; k" := (bind m (fun x => k))
  (at level 100, m at next level, right associativity).
Notation "m ;;; k" := (bind m (fun _ => k))
  (at level 100, right associativity).

Definition when (b : bool) (m : M unit) : M unit := if b then m else ret tt.

(** [try: m except Exception as e: h(str(e))].  [SystemExit] is not an
    [Exception] and passes through. *)
Definition str_exn (e : Exn) : string :=
  match e with
  | AttributeError s | TypeError s | KeyError s | RuntimeError s => s
  | SystemExit _ => ""
  end.

Definition try_except {A} (m : M A) (h : string -> M A) : M A :=
  fun w => match m w with
           | (Raise (SystemExit c), w') => (Raise (SystemExit c), w')
           | (Raise e, w') => h (str_exn e) w'
           | r => r
           end.


(** *** World updates *)

Definition set_heap (h : list Matrix_Server) (w : World) : World :=
  {| cls_device_cnt := cls_device_cnt w; heap := h; log := log w;
     stderr := stderr w; trace := trace w |}.

Definition upd_inst (r : ref) (f : Matrix_Server -> Matrix_Server) (w : World) : World :=
  match heap w !! r with
  | Some o => set_heap (<[r := f o]> (heap w)) w
  | None => w
  end.

Definition set_client (c : AsyncClient) (o : Matrix_Server) : Matrix_Server :=
  {| ms_server := ms_server o; verb := verb o; old := old o; device := device o;
     device_cnt := device_cnt o; room_names := room_names o;
     client := Some c; rooms_bound := rooms_bound o |}.

Definition bind_rooms (o : Matrix_Server) : Matrix_Server :=
  {| ms_server := ms_server o; verb := verb o; old := old o; device := device o;
     device_cnt := device_cnt o; room_names := room_names o;
     client := client o; rooms_bound := true |}.

Definition append_room_name (n : string) (o : Matrix_Server) : Matrix_Server :=
  {| ms_server := ms_server o; verb := verb o; old := old o; device := device o;
     device_cnt := device_cnt o; room_names := room_names o ++ [n];
     client := client o; rooms_bound := rooms_bound o |}.

Definition modify (r : ref) (f : Matrix_Server -> Matrix_Server) : M unit :=
  fun w => (Ret tt, upd_inst r f w).

Definition get_self (r : ref) : M Matrix_Server :=
  fun w => match heap w !! r with
           | Some o => (Ret o, w)
           | None => (Raise (RuntimeError "no such object"), w)
           end.

Definition add_stderr (msg : string) (w : World) : World :=
  {| cls_device_cnt := cls_device_cnt w; heap := heap w; log := log w;
     stderr := stderr w ++ [msg]; trace := trace w |}.

Definition add_log (msg : string) (w : World) : World :=
  {| cls_device_cnt := cls_device_cnt w; heap := heap w;
     log := log w ++ [(ERROR, msg)]; stderr := stderr w; trace := trace w |}.

Definition add_trace (c : NetCall Token) (w : World) : World :=
  {| cls_device_cnt := cls_device_cnt w; heap := heap w; log := log w;
     stderr := stderr w; trace := trace w ++ [c] |}.

(** [print(msg, file=sys.stderr)], [logging.error(msg)], and the ghost
    record of a network operation. *)
Definition print_stderr (msg : string) : M unit := fun w => (Ret tt, add_stderr msg w).

(** Calling an [async def] without awaiting the result only builds a
    coroutine object: the body never runs.  As an expression statement
    the object is dropped at once, and the interpreter reports it on the
    error stream with a [RuntimeWarning] (printed behind the path and the
    line of the call, and followed by a hint on tracemalloc; the entry
    kept here is the warning itself). *)
Definition never_awaited (qualname : string) : string :=
  "RuntimeWarning: coroutine '" ++ qualname ++ "' was never awaited".

Definition not_awaited {A} (qualname : string) (coroutine : M A) : M unit :=
  print_stderr (never_awaited qualname).
Definition logging_error (msg : string) : M unit := fun w => (Ret tt, add_log msg w).
Definition record (c : NetCall Token) : M unit := fun w => (Ret tt, add_trace c w).

(** [self.client]. *)
Definition get_client (r : ref) : M AsyncClient :=
  o <- get_self r ;;
  match client o with
  | Some c => ret c
  | None => raise (AttributeError "'Matrix_Server' object has no attribute 'client'")
  end.

(** [await self.client.method(...)]: the operation is recorded and the
    client moves to its next state. *)
Definition await_client {X} (r : ref) (c : NetCall Token)
           (method : AsyncClient -> X * AsyncClient) : M X :=
  cl <- get_client r ;;
  record c ;;;
  let '(x, cl') := method cl in
  modify r (set_client cl') ;;;
  ret x.

(** [self.rooms]. *)
Definition self_rooms (r : ref) : M (list (string * MatrixRoom)) :=
  o <- get_self r ;;
  if rooms_bound o then
    match client o with
    | Some c => ret (nio_rooms nio c)
    | None => raise (AttributeError "'Matrix_Server' object has no attribute 'rooms'")
    end
  else raise (AttributeError "'Matrix_Server' object has no attribute 'rooms'").

(** [d[k]] on a dictionary kept as its items in insertion order ([None]
    when the key is absent). *)
Fixpoint dict_get {V} (k : string) (d : list (string * V)) : option V :=
  match d with
  | [] => None
  | (k', v) :: d' => if String.eqb k k' then Some v else dict_get k d'
  end.

(** [room.attr] where [room] may be [None]. *)
Definition room_attr {A} (name : string) (f : MatrixRoom -> A)
           (room : option MatrixRoom) : M A :=
  match room with
  | Some rm => ret (f rm)
  | None => raise (AttributeError ("'NoneType' object has no attribute '" ++ name ++ "'"))
  end.

(** *** sys_exit *)

Definition sys_exit (msg : string) (exit : bool) : M unit :=
  print_stderr msg ;;;
  logging_error msg ;;;
  if exit then raise (SystemExit (-1)) else ret tt.

(** *** class Matrix_Server *)

(** [self.device_cnt]: the instance attribute when there is one, the
    class attribute otherwise. *)
Definition read_device_cnt (inst : option Z) (w : World) : Z :=
  match inst with Some n => n | None => cls_device_cnt w end.

Definition Matrix_Server__init__ (srv : Server) (verbose : bool)
           (old_ : option ref) : M ref :=
  fun w =>
    let cnt := read_device_cnt None w in
    let dev := "migrate_server_" ++ str_Z cnt in
    (* self.device_cnt += 1 stores the sum in the instance *)
    let self := {| ms_server := srv; verb := verbose; old := old_;
                   device := dev;
                   device_cnt := Some (read_device_cnt None w + 1);
                   room_names := []; client := None; rooms_bound := false |} in
    (Ret (length (heap w)), set_heap (heap w ++ [self]) w).

Definition sync (r : ref) : M unit :=
  sync_resp <- await_client r (CallSync r) (nio_sync nio (Some 30000)) ;;
  match sync_resp with
  | SyncError _ =>
      (* logging(...): the module is called *)
      raise (TypeError "'module' object is not callable")
  | SyncResponse _ => ret tt
  end.

Definition str_LoginResp (x : LoginResp) : string :=
  match x with LoginResponse => "LoginResponse" | LoginError m => "LoginError: " ++ m end.

Definition login (r : ref) : M unit :=
  self <- get_self r ;;
  let srv := ms_server self in
  modify r (set_client (nio_set_device_id nio (device self)
                          (nio_AsyncClient nio (server srv) (user srv)))) ;;;
  login_resp <-
    (if (0 <? String.length (password srv))%nat
     then await_client r (CallLogin r (ByPassword (password srv)))
                       (nio_login nio (ByPassword (password srv)))
     else await_client r (CallLogin r (ByToken (token srv)))
                       (nio_login nio (ByToken (token srv)))) ;;
  when (verb self) (sys_exit ("Logged into server " ++ server srv) false) ;;;
  match login_resp with
  | LoginResponse =>
      sync r ;;;
      modify r bind_rooms ;;;
      rooms <- self_rooms r ;;
      (* for room in self.rooms: self.room_names.append(...) *)
      fold_left (fun acc kv => acc ;;; modify r (append_room_name (display_name (snd kv))))
                rooms (ret tt)
  | LoginError _ =>
      logging_error (str_LoginResp login_resp) ;;;
      sys_exit ("Cannot log into " ++ server srv ++ ", aborting") true
  end.

Definition logout (r : ref) : M unit :=
  self <- get_self r ;;
  resp <- await_client r (CallLogout r) (nio_logout nio) ;;
  match resp with
  | LogoutError m =>
      logging_error ("Logging out from " ++ server (ms_server self)
                     ++ " failed with LogoutError: " ++ m)
  | LogoutResponse => ret tt
  end ;;;
  when (verb self) (sys_exit ("Logged out of server " ++ server (ms_server self)) false).

Definition get_rooms (r : ref) : M (list (string * MatrixRoom)) := self_rooms r.

Definition get_room (r : ref) (name : string) : M (option MatrixRoom) :=
  self <- get_self r ;;
  if bool_decide (name ∈ room_names self) then
    rooms <- self_rooms r ;;
    (* the first room of that display name; None when the loop ends *)
    ret (find (fun rm => String.eqb (display_name rm) name) (map snd rooms))
  else ret None.

Definition get_room_from_id (r : ref) (rid : string) : M (option MatrixRoom) :=
  rooms <- self_rooms r ;;
  ret (dict_get rid rooms).

Definition get_room_name (room : option MatrixRoom) : M string :=
  room_attr "display_name" display_name room.

Definition get_room_names (r : ref) : M (list string) :=
  self <- get_self r ;;
  ret (room_names self).

Definition create_room (r : ref) (room_name : string) : M (option MatrixRoom) :=
  self <- get_self r ;;
  old_room <-
    match old self with
    | Some o => get_room o room_name
    | None => raise (AttributeError "'NoneType' object has no attribute 'get_room'")
    end ;;
  get_client r ;;;
  version <- room_attr "room_version" room_version old_room ;;
  topic_ <- room_attr "topic" topic old_room ;;
  resp <- await_client r (CallRoomCreate r room_name)
                       (nio_room_create nio room_name topic_ version) ;;
  match resp with
  | RoomCreateError m =>
      logging_error ("Room creation error RoomCreateError: " ++ m) ;;;
      sys_exit ("Cannot create room " ++ room_name ++ ", aborting") true
  | RoomCreateResponse _ =>
      when (verb self) (sys_exit ("Created room " ++ room_name) false)
  end ;;;
  sync r ;;;
  (* Update cached data *)
  modify r bind_rooms ;;;
  modify r (append_room_name room_name) ;;;
  get_room r room_name.

(** The classes kept by [fetch_room_events] and those posted by
    [send_events]. *)
Definition fetch_classes : list EventClass :=
  [RoomMessageFormatted; RedactedEvent; RoomMessageMedia; RoomEncryptedMedia].
Definition send_classes : list EventClass :=
  [RoomMessageText; RoomMessageMedia; RoomEncryptedMedia].
Definition media_classes : list EventClass :=
  [RoomMessageMedia; RoomEncryptedMedia].

(** The [while True] loop of [fetch_room_events]; [fuel] bounds the
    number of pages requested. *)
Fixpoint fetch_loop (fuel : nat) (r : ref) (room : option MatrixRoom)
         (direction : MessageDirection) (start_token : Token)
         (events : list Event) : M (list Event) :=
  match fuel with
  | O => out_of_fuel
  | S fuel' =>
      get_client r ;;;
      rid <- room_attr "room_id" room_id room ;;
      resp <- await_client r (CallRoomMessages r rid start_token 1000 direction)
                           (nio_room_messages nio rid start_token 1000 direction) ;;
      match resp with
      | RoomMessagesError _ =>
          dn <- room_attr "display_name" display_name room ;;
          logging_error ("Failed to get messages for room " ++ dn
                         ++ " @ start_token " ++ str_token start_token) ;;;
          (* len(resp.chunk) *)
          raise (AttributeError "'RoomMessagesError' object has no attribute 'chunk'")
      | RoomMessagesResponse chunk _ end_ =>
          if (length chunk =? 0)%nat then ret events
          else fetch_loop fuel' r room direction end_
                 (events ++ List.filter (fun e => isinstance e fetch_classes) chunk)
      end
  end.

Definition fetch_room_events (fuel : nat) (r : ref) (start_token : Token)
           (room : option MatrixRoom) (direction : MessageDirection)
  : M (list Event) :=
  self <- get_self r ;;
  events <- fetch_loop fuel r room direction start_token [] ;;
  (if verb self then
     dn <- room_attr "display_name" display_name room ;;
     sys_exit ("Fetched " ++ str_nat (length events) ++ " from room " ++ dn
               ++ " in direction " ++ str_direction direction) false
   else ret tt) ;;;
  ret events.

Definition get_room_events (fuel : nat) (r : ref) (room : option MatrixRoom)
  : M (list Event) :=
  self <- get_self r ;;
  sync_resp <- await_client r (CallSync r) (nio_sync nio None) ;;
  start_token <-
    match sync_resp with
    | SyncError _ => raise (AttributeError "'SyncError' object has no attribute 'rooms'")
    | SyncResponse join =>
        rid <- room_attr "room_id" room_id room ;;
        match dict_get rid join with
        | Some t => ret t
        | None => raise (KeyError rid)
        end
    end ;;
  events <- fetch_room_events fuel r start_token room back ;;
  let events := rev events in
  more <- fetch_room_events fuel r start_token room front ;;
  let events := (events ++ more)%list in
  (if verb self then
     dn <- room_attr "display_name" display_name room ;;
     sys_exit ("Fetched " ++ str_nat (length events) ++ " in total from room " ++ dn) false
   else ret tt) ;;;
  ret events.

(** *** download_mxc

    The function returns the response object when it has a [body] and
    the empty [bytes] object otherwise. *)
Inductive Downloaded : Set :=
  | TheResponse (resp : DownloadResp)
  | TheBytes (b : list Byte.byte).

Definition hasattr_body (resp : DownloadResp) : bool :=
  match resp with DownloadResponse _ _ _ => true | DownloadError _ => false end.

Definition download_mxc (srv : option ref) (url_ : string) : M Downloaded :=
  match srv with
  | None => raise (AttributeError "'NoneType' object has no attribute 'client'")
  | Some s =>
      response <- await_client s (CallDownload s url_) (nio_download nio url_) ;;
      if hasattr_body response then ret (TheResponse response)
      else ret (TheBytes [])
  end.

(** [media_data_resp.body], [.filename] and [.content_type]. *)
Definition media_fields (d : Downloaded)
  : M (list Byte.byte * option string * string) :=
  match d with
  | TheResponse (DownloadResponse body mime name) => ret (body, name, mime)
  | TheResponse (DownloadError _) =>
      raise (AttributeError "'DownloadError' object has no attribute 'body'")
  | TheBytes _ => raise (AttributeError "'bytes' object has no attribute 'body'")
  end.

Definition upload_content_uri (resp : UploadResp) : M string :=
  match resp with
  | UploadResponse uri => ret uri
  | UploadError _ =>
      raise (AttributeError "'UploadError' object has no attribute 'content_uri'")
  end.

Definition post_event (r : ref) (room : option MatrixRoom) (event : Event) : M unit :=
  self <- get_self r ;;
  content <-
    (if isinstance event media_classes then
       media_data_resp <- download_mxc (old self) (ev_url event) ;;
       fields <- media_fields media_data_resp ;;
       let '(body, name, mime) := fields in
       let body_size := length body in
       get_client r ;;;
       resp <- await_client r (CallUpload r body mime name body_size)
                            (nio_upload nio body mime name body_size) ;;
       (if verb self then
          uri <- upload_content_uri resp ;;
          sys_exit ("Uploaded " ++ str_opt name ++ ", obtained URL " ++ uri) false
        else ret tt) ;;;
       uri <- upload_content_uri resp ;;
       ret (MediaContent name body_size mime uri)
     else if has_body (ev_class event) then ret (TextContent (ev_body event))
     else raise (AttributeError ("'" ++ class_name (ev_class event)
                                 ++ "' object has no attribute 'body'"))) ;;
  msgtype <-
    match ev_msgtype event with
    | Some m => ret m
    | None => raise (KeyError "msgtype")
    end ;;
  let content := content msgtype in
  try_except
    (get_client r ;;;
     rid <- room_attr "room_id" room_id room ;;
     res <- await_client r (CallRoomSend r rid "m.room.message" content)
                         (nio_room_send nio rid "m.room.message" content) ;;
     match res with
     | SendReturned _ => ret tt
     | SendRaised what => raise (RuntimeError what)
     end)
    (fun e => sys_exit ("Exception " ++ e ++ " occurred during message sending") true) ;;;
  if verb self then
    let strexc := str_prefix 20 (content_body content) ++ "..." in
    dn <- room_attr "display_name" display_name room ;;
    sys_exit ("Posted " ++ msgtype ++ " with body " ++ strexc ++ " to room " ++ dn) false
  else ret tt.

Fixpoint send_loop (r : ref) (room : option MatrixRoom) (events : list Event) : M unit :=
  match events with
  | [] => ret tt
  | event :: rest =>
      (* Filter messages *)
      when (isinstance event send_classes) (post_event r room event) ;;;
      send_loop r room rest
  end.

Definition send_events (r : ref) (room : option MatrixRoom) (events : list Event)
  : M unit :=
  self <- get_self r ;;
  send_loop r room events ;;;
  if verb self then
    dn <- room_attr "display_name" display_name room ;;
    sys_exit ("Posted " ++ str_nat (length events) ++ " to room " ++ dn) false
  else ret tt.

(** *** main *)

(** Lines 311-314: the destination room for a display name. *)
Definition resolve_room (new : ref) (room_name : string) : M (option MatrixRoom) :=
  names <- get_room_names new ;;
  if bool_decide (room_name ∈ names) then get_room new room_name
  else create_room new room_name.

(** The body of [for room in old.rooms]. *)
Definition migrate_room (fuel : nat) (old_ new : ref) (room : string) : M unit :=
  room_obj <- get_room_from_id old_ room ;;
  room_name <- get_room_name room_obj ;;
  events <- get_room_events fuel old_ room_obj ;;
  if (0 <? length events)%nat then
    new_room <- resolve_room new room_name ;;
    (* Copy events from old to new room *)
    send_events new new_room events
  else ret tt.

(** Iteration over the dictionary [old.rooms]: the iterator walks the
    entries by position and fails when the size has changed.  [todo]
    bounds the number of [next] calls; one more than the initial size
    is always enough. *)
Fixpoint main_loop (fuel : nat) (old_ new : ref) (size0 : nat) (pos : nat)
         (todo : nat) : M unit :=
  match todo with
  | O => out_of_fuel
  | S todo' =>
      rooms <- self_rooms old_ ;;
      if negb (length rooms =? size0)%nat then
        raise (RuntimeError "dictionary changed size during iteration")
      else
        match rooms !! pos with
        | None => ret tt
        | Some (room, _) =>
            migrate_room fuel old_ new room ;;;
            main_loop fuel old_ new size0 (S pos) todo'
        end
  end.

Definition main (fuel : nat) (config_old config_new : Server) (verbose : bool)
  : M unit :=
  old_ <- Matrix_Server__init__ config_old verbose None ;;
  login old_ ;;;
  new <- Matrix_Server__init__ config_new verbose (Some old_) ;;
  login new ;;;
  rooms <- self_rooms old_ ;;
  main_loop fuel old_ new (length rooms) 0 (S (length rooms)) ;;;
  not_awaited "Matrix_Server.logout" (logout new) ;;;
  not_awaited "Matrix_Server.logout" (logout old_).

(** The world in which the process starts. *)
Definition initial_world : World :=
  {| cls_device_cnt := 1; heap := []; log := []; stderr := []; trace := [] |}.

End Migrate.

Arguments World : clear implicits.
Arguments Matrix_Server : clear implicits.
Arguments M : clear implicits.

(** ** A homeserver to run the script against

    One concrete environment: the account's rooms with their timelines
    (oldest event first), the media repository, and a list of operations
    that are made to fail.  A pagination token is a position in the
    timeline of the room. *)

Module Homeserver.

Inductive Fault : Set :=
  | FailLogin | FailLogout | FailSync | FailMessages
  | FailDownload | FailUpload | FailRoomCreate | RaiseSend.

#[global] Instance Fault_eq_dec : EqDecision Fault.
Proof. solve_decision. Defined.

Record Client : Set := {
  device_id : string;
  logged_in : bool;
  rooms : list (string * MatrixRoom);            (* client.rooms *)
  joined : list (string * MatrixRoom);           (* on the server *)
  timelines : list (string * list Event);
  media : list (string * (list Byte.byte * string * option string));
  uploaded : list (list Byte.byte * nat);
  posted : list (string * Content);
  faults : list Fault
}.

Definition fails (f : Fault) (c : Client) : bool := bool_decide (f ∈ faults c).

Definition with_rooms (c : Client) rs js tls : Client :=
  {| device_id := device_id c; logged_in := logged_in c; rooms := rs;
     joined := js; timelines := tls; media := media c;
     uploaded := uploaded c; posted := posted c; faults := faults c |}.

Definition set_device_id (d : string) (c : Client) : Client :=
  {| device_id := d; logged_in := logged_in c; rooms := rooms c;
     joined := joined c; timelines := timelines c; media := media c;
     uploaded := uploaded c; posted := posted c; faults := faults c |}.

Definition set_logged_in (b : bool) (c : Client) : Client :=
  {| device_id := device_id c; logged_in := b; rooms := rooms c;
     joined := joined c; timelines := timelines c; media := media c;
     uploaded := uploaded c; posted := posted c; faults := faults c |}.

Definition set_faults (fs : list Fault) (c : Client) : Client :=
  {| device_id := device_id c; logged_in := logged_in c; rooms := rooms c;
     joined := joined c; timelines := timelines c; media := media c;
     uploaded := uploaded c; posted := posted c; faults := fs |}.

Definition login (_ : Credential) (c : Client) : LoginResp * Client :=
  if fails FailLogin c then (LoginError "M_FORBIDDEN", c)
  else (LoginResponse, set_logged_in true c).

Definition logout (c : Client) : LogoutResp * Client :=
  if fails FailLogout c then (LogoutError "M_UNKNOWN", c)
  else (LogoutResponse, set_logged_in false c).

Definition timeline_of (rid : string) (c : Client) : list Event :=
  match dict_get rid (timelines c) with Some tl => tl | None => [] end.

(** A sync with a timeline limit of one event: the client learns the
    joined rooms it does not know yet, and [prev_batch] is the position
    just before the newest event. *)
Definition sync (_ : option Z) (c : Client) : SyncResp nat * Client :=
  if fails FailSync c then (SyncError "M_UNKNOWN", c)
  else
    let fresh := List.filter
                   (fun kv => match dict_get (fst kv) (rooms c) with
                              | Some _ => false | None => true end)
                   (joined c) in
    (SyncResponse (map (fun kv => (fst kv, Nat.pred (length (timeline_of (fst kv) c))))
                       (joined c)),
     with_rooms c (rooms c ++ fresh) (joined c) (timelines c)).

Definition room_create (name : string) (topic_ : option string) (version : string)
           (c : Client) : RoomCreateResp * Client :=
  if fails FailRoomCreate c then (RoomCreateError "M_FORBIDDEN", c)
  else
    let rid := "!room" ++ str_nat (length (joined c)) in
    let rm := {| room_id := rid; display_name := name; topic := topic_;
                 room_version := version |} in
    (RoomCreateResponse rid,
     with_rooms c (rooms c) (joined c ++ [(rid, rm)]) (timelines c ++ [(rid, [])])).

Definition room_messages (rid : string) (start : nat) (limit : Z)
           (d : MessageDirection) (c : Client) : RoomMessagesResp nat * Client :=
  if fails FailMessages c then (RoomMessagesError "M_UNKNOWN", c)
  else
    let tl := timeline_of rid c in
    match d with
    | back =>
        let chunk := firstn (Z.to_nat limit) (rev (firstn start tl)) in
        (RoomMessagesResponse chunk start (start - length chunk)%nat, c)
    | front =>
        let chunk := firstn (Z.to_nat limit) (skipn start tl) in
        (RoomMessagesResponse chunk start (start + length chunk)%nat, c)
    end.

Definition download (mxc : string) (c : Client) : DownloadResp * Client :=
  if fails FailDownload c then (DownloadError "M_NOT_FOUND", c)
  else match dict_get mxc (media c) with
       | Some (b, mime, name) => (DownloadResponse b mime name, c)
       | None => (DownloadError "M_NOT_FOUND", c)
       end.

Definition upload (data : list Byte.byte) (mime : string) (name : option string)
           (filesize : nat) (c : Client) : UploadResp * Client :=
  if fails FailUpload c then (UploadError "M_TOO_LARGE", c)
  else
    (UploadResponse ("mxc://new/" ++ str_nat (length (uploaded c))),
     {| device_id := device_id c; logged_in := logged_in c; rooms := rooms c;
        joined := joined c; timelines := timelines c; media := media c;
        uploaded := uploaded c ++ [(data, filesize)]; posted := posted c;
        faults := faults c |}).

Definition room_send (rid : string) (_ : string) (content : Content) (c : Client)
  : SendResult * Client :=
  if fails RaiseSend c then (SendRaised "connection lost", c)
  else
    (SendReturned true,
     {| device_id := device_id c; logged_in := logged_in c; rooms := rooms c;
        joined := joined c; timelines := timelines c; media := media c;
        uploaded := uploaded c; posted := posted c ++ [(rid, content)];
        faults := faults c |}).

(** [net] tells which server answers at an address. *)
Definition nio (net : string -> Client) : Nio nat Client :=
  {| nio_AsyncClient := fun homeserver _ => net homeserver;
     nio_set_device_id := set_device_id;
     nio_rooms := rooms;
     nio_login := login;
     nio_logout := logout;
     nio_sync := sync;
     nio_room_create := room_create;
     nio_room_messages := room_messages;
     nio_download := download;
     nio_upload := upload;
     nio_room_send := room_send |}.

Definition server_with (js : list (string * MatrixRoom))
           (tls : list (string * list Event))
           (md : list (string * (list Byte.byte * string * option string)))
           (fs : list Fault) : Client :=
  {| device_id := ""; logged_in := false; rooms := []; joined := js;
     timelines := tls; media := md; uploaded := []; posted := []; faults := fs |}.

End Homeserver.

(** ** A small source server used in the examples *)

Module Sample.

Definition text (id b : string) : Event :=
  {| ev_class := RoomMessageText; event_id := id; ev_body := b; ev_url := "";
     ev_msgtype := Some "m.text" |}.
Definition notice (id b : string) : Event :=
  {| ev_class := RoomMessageNotice; event_id := id; ev_body := b; ev_url := "";
     ev_msgtype := Some "m.notice" |}.
Definition image (id b u : string) : Event :=
  {| ev_class := RoomMessageImage; event_id := id; ev_body := b; ev_url := u;
     ev_msgtype := Some "m.image" |}.
Definition redacted (id : string) : Event :=
  {| ev_class := RedactedEvent; event_id := id; ev_body := ""; ev_url := "";
     ev_msgtype := None |}.
Definition member (id : string) : Event :=
  {| ev_class := RoomMemberEvent; event_id := id; ev_body := ""; ev_url := "";
     ev_msgtype := None |}.

Definition notes : MatrixRoom :=
  {| room_id := "!notes:old"; display_name := "notes"; topic := Some "things";
     room_version := "10" |}.

Definition notes_timeline : list Event :=
  [member "$0"; text "$1" "hello"; notice "$2" "beep"; redacted "$3";
   image "$4" "cat.png" "mxc://old/cat"; text "$5" "world"].

Definition cat_bytes : list Byte.byte := [Byte.x89; Byte.x50; Byte.x4e; Byte.x47; Byte.x0d].

Definition old_server (fs : list Homeserver.Fault) : Homeserver.Client :=
  Homeserver.server_with [("!notes:old", notes)] [("!notes:old", notes_timeline)]
    [("mxc://old/cat", (cat_bytes, "image/png", Some "cat.png"))] fs.

Definition new_server (fs : list Homeserver.Fault) : Homeserver.Client :=
  Homeserver.server_with [] [] [] fs.

Definition net (fo fn : list Homeserver.Fault) (address : string) : Homeserver.Client :=
  if String.eqb address "https://old.example" then old_server fo else new_server fn.

Definition config_old : Server :=
  {| server := "https://old.example"; user := "@me:old"; password := "pw"; token := "" |}.
Definition config_new : Server :=
  {| server := "https://new.example"; user := "@me:new"; password := ""; token := "tok" |}.

Definition run (fo fn : list Homeserver.Fault) (verbose : bool) :=
  main (Homeserver.nio (net fo fn)) str_nat 10 config_old config_new verbose
       (initial_world (AsyncClient := Homeserver.Client)).

(** The two sessions after a successful login and first sync; from
    then on the servers fail as [fo] and [fn] tell. *)
Definition synced (fs : list Homeserver.Fault) (c : Homeserver.Client)
  : Homeserver.Client :=
  Homeserver.set_faults fs
    (snd (Homeserver.sync None
            (Homeserver.set_logged_in true
               (Homeserver.set_device_id "migrate_server_1" c)))).

Definition session (srv : Server) (ol : option nat) (names : list string)
           (c : Homeserver.Client) (verbose : bool) : Matrix_Server Homeserver.Client :=
  {| ms_server := srv; verb := verbose; old := ol; device := "migrate_server_1";
     device_cnt := Some 2; room_names := names; client := Some c;
     rooms_bound := true |}.

Definition logged_in (fo fn : list Homeserver.Fault) (verbose : bool)
  : World nat Homeserver.Client :=
  {| cls_device_cnt := 1;
     heap := [session config_old None ["notes"] (synced fo (old_server [])) verbose;
              session config_new (Some 0%nat) [] (synced fn (new_server [])) verbose];
     log := []; stderr := []; trace := [] |}.

(** The destination room once it exists. *)
Definition room0 : MatrixRoom :=
  {| room_id := "!room0"; display_name := "notes"; topic := Some "things";
     room_version := "10" |}.

Definition fetched : list Event :=
  [text "$1" "hello"; notice "$2" "beep"; redacted "$3";
   image "$4" "cat.png" "mxc://old/cat"; text "$5" "world"].

Definition cat : Event := image "$4" "cat.png" "mxc://old/cat".

Definition nio0 : Nio nat Homeserver.Client := Homeserver.nio (net [] []).

(** The worlds reached from [logged_in [] [] false] by fetching the
    timeline of the source room, by resolving the destination room, and
    by posting the image. *)
Definition after_fetch : World nat Homeserver.Client :=
  snd (get_room_events nio0 str_nat 10 0 (Some notes) (logged_in [] [] false)).
Definition after_resolve : World nat Homeserver.Client :=
  snd (resolve_room nio0 1 "notes" (logged_in [] [] false)).
Definition after_post : World nat Homeserver.Client :=
  snd (post_event nio0 1 (Some room0) cat (logged_in [] [] false)).

End Sample.


(** ** Observations on a run *)

Section Observations.
Context {Token : Type}.

(** The display names for which a room creation was requested. *)
Definition created_names (tr : list (NetCall Token)) : list string :=
  omap (fun c => match c with CallRoomCreate _ n => Some n | _ => None end) tr.

Definition is_logout (c : NetCall Token) : bool :=
  match c with CallLogout _ => true | _ => false end.

(** The events kept by the filter of [fetch_room_events]. *)
Definition retained (e : Event) : bool := isinstance e fetch_classes.

(** The formatted messages which are not plain text messages. *)
Definition formatted_not_text (e : Event) : bool :=
  isinstance e [RoomMessageFormatted] && negb (isinstance e [RoomMessageText]).

End Observations.

Section Specifications.
Context {Token AsyncClient : Type}.

Abbreviation World := (World Token AsyncClient).
Abbreviation M := (M Token AsyncClient).

(** [m] keeps the relation [R] between the world it starts in and the
    world it ends in, whatever its outcome. *)
Definition preserves (R : World -> World -> Prop) {A} (m : M A) : Prop :=
  forall w, R w (snd (m w)).

(** Started in [w], [m] either returns [a] in a world satisfying
    [Qr a] or stops in a world satisfying [Qx]. *)
Definition wp {A} (m : M A) (Qr : A -> World -> Prop) (Qx : World -> Prop)
           (w : World) : Prop :=
  match m w with
  | (Ret a, w') => Qr a w'
  | (_, w') => Qx w'
  end.

(** The run from [w] to [w'] performed the operations [tr], none of
    them a logout. *)
Definition no_logout (w w' : World) : Prop :=
  exists tr, trace w' = (trace w ++ tr)%list /\
             Forall (fun c => is_logout c = false) tr.

(** No room creation was requested between [w] and [w']. *)
Definition no_creation (w w' : World) : Prop :=
  created_names (trace w') = created_names (trace w).

(** Neither a room creation nor a change of any [room_names]. *)
Definition same_names (w w' : World) : Prop :=
  created_names (trace w') = created_names (trace w) /\
  map room_names (heap w') = map room_names (heap w).

Definition is_create (c : NetCall Token) : bool :=
  match c with CallRoomCreate _ _ => true | _ => false end.

(** [self.room_names] of the object at [r]. *)
Definition names_at (r : ref) (w : World) : option (list string) :=
  map room_names (heap w) !! r.

(** Every name a room was created for is among the [room_names] of the
    destination [new] followed by [pending], and no name was created
    twice. *)
Definition created_once (new : ref) (pending : list string) (w : World) : Prop :=
  NoDup (created_names (trace w)) /\
  forall ns, names_at new w = Some ns ->
             forall n, n ∈ created_names (trace w) -> n ∈ (ns ++ pending)%list.

(** ... and [name] is not yet among the [room_names] of [new]. *)
Definition about_to_create (new : ref) (name : string) (w : World) : Prop :=
  created_once new [] w /\
  exists ns, names_at new w = Some ns /\ name ∉ ns.

(** The pagination contract of a server for the room [rid], whose
    timeline, oldest event first, is [tl].  A token [t] stands for the
    position [pos t] in the timeline; [I] is what stays true of the
    client between requests.  A sync gives an anchor inside the
    timeline.  A page backwards from [t] holds the [n] events just before
    [t], newest first, and ends at [pos t - n]; a page forwards holds the
    [n] events from [t] on and ends at [pos t + n].  The server chooses
    [n]; a page is empty only when nothing is left in its direction. *)
Record paginates (nio : Nio Token AsyncClient) (rid : string) (tl : list Event)
       (pos : Token -> nat) (I : AsyncClient -> Prop) : Prop := {
  pg_sync : forall c, I c ->
    exists join anchor c',
      nio_sync nio None c = (SyncResponse join, c') /\
      dict_get rid join = Some anchor /\
      (pos anchor <= length tl)%nat /\ I c';
  pg_back : forall c t, I c -> (pos t <= length tl)%nat ->
    exists n s e c',
      nio_room_messages nio rid t 1000 back c
      = (RoomMessagesResponse (firstn n (rev (firstn (pos t) tl))) s e, c') /\
      (n <= pos t)%nat /\ (0 < pos t -> 0 < n)%nat /\
      pos e = (pos t - n)%nat /\ I c';
  pg_front : forall c t, I c -> (pos t <= length tl)%nat ->
    exists n s e c',
      nio_room_messages nio rid t 1000 front c
      = (RoomMessagesResponse (firstn n (skipn (pos t) tl)) s e, c') /\
      (n <= length tl - pos t)%nat /\ (pos t < length tl -> 0 < n)%nat /\
      pos e = (pos t + n)%nat /\ I c'
}.

End Specifications.


(** ** Further observations *)

Section MoreObservations.
Context {Token AsyncClient : Type}.

(** The messages handed to [room_send], in order, with their room. *)
Definition sends (tr : list (NetCall Token)) : list (string * Content) :=
  omap (fun c => match c with
                 | CallRoomSend _ rid _ content => Some (rid, content)
                 | _ => None
                 end) tr.

(** [content] is what [post_event] builds for the event [e]: the body and
    the message subtype of a text event, the message subtype of a media
    event. *)
Definition posted_for (e : Event) (content : Content) : Prop :=
  match content with
  | TextContent b mt =>
      isinstance e media_classes = false /\ b = ev_body e /\ ev_msgtype e = Some mt
  | MediaContent _ _ _ _ mt =>
      isinstance e media_classes = true /\ ev_msgtype e = Some mt
  end.

(** The credential [login] presents for a [Server] descriptor. *)
Definition credential_of (srv : Server) : Credential :=
  if (0 <? String.length (password srv))%nat then ByPassword (password srv)
  else ByToken (token srv).

(** The client object [login] creates. *)
Definition fresh_client (nio : Nio Token AsyncClient) (o : Matrix_Server AsyncClient)
  : AsyncClient :=
  nio_set_device_id nio (device o)
    (nio_AsyncClient nio (server (ms_server o)) (user (ms_server o))).

(** The first room of the catalog carrying a display name. *)
Definition first_named (name : string) (catalog : list (string * MatrixRoom))
  : option MatrixRoom :=
  find (fun rm => String.eqb (display_name rm) name) (map snd catalog).

(** Between [w] and [w'] no room creation was requested and no message
    was sent. *)
Definition quiet_fetch (w w' : World Token AsyncClient) : Prop :=
  created_names (trace w') = created_names (trace w) /\
  sends (trace w') = sends (trace w).



End MoreObservations.

(** ** A server that never sends an empty page *)

Module Endless.

(** Every page holds one membership event, whatever the token. *)
Definition room_messages (rid : string) (start : nat) (limit : Z)
           (d : MessageDirection) (c : Homeserver.Client)
  : RoomMessagesResp nat * Homeserver.Client :=
  (RoomMessagesResponse [Sample.member "$m"] start (S start), c).

Definition nio : Nio nat Homeserver.Client :=
  {| nio_AsyncClient := nio_AsyncClient Sample.nio0;
     nio_set_device_id := nio_set_device_id Sample.nio0;
     nio_rooms := nio_rooms Sample.nio0;
     nio_login := nio_login Sample.nio0;
     nio_logout := nio_logout Sample.nio0;
     nio_sync := nio_sync Sample.nio0;
     nio_room_create := nio_room_create Sample.nio0;
     nio_room_messages := room_messages;
     nio_download := nio_download Sample.nio0;
     nio_upload := nio_upload Sample.nio0;
     nio_room_send := nio_room_send Sample.nio0 |}.

End Endless.

(** ** class Config

    The command line is parsed by argparse and the credentials file by
    toml; both are the environment.  What argparse returns is taken as
    the items of [vars(parser.parse_args())], what toml returns as a
    function from the path that is opened.  A [Server] object is its
    attribute dictionary here, because [setattr] is applied to it by
    name. *)

Module Config.

Inductive PyVal : Set :=
  | PyNone
  | PyBool (b : bool)
  | PyStr (s : string)
  | PyInt (z : Z).

Inductive Error : Set :=
  | IndexError (what : string)
  | KeyError (key : string)
  | TypeError (what : string)
  | OSError (what : string).

Inductive Result (A : Type) : Type :=
  | Ok (a : A)
  | Err (e : Error).
Arguments Ok {A} a.
Arguments Err {A} e.

(** [self.creds]: the default below the home directory, a [Path] made
    from the constructor's argument, or the value of the [-c] option as
    argparse gave it. *)
Inductive CredsPath : Set :=
  | HomeFile (name : string)
  | PathOf (s : string)
  | ValOf (v : PyVal).

(** A value of the parsed credentials file: a scalar or a table. *)
Inductive Toml : Set :=
  | Scalar (v : PyVal)
  | Table (items : list (string * PyVal)).

(** An argument registered with the parser. *)
Inductive Argument : Set :=
  | StrOption (flag : string) (help : string)
  | StoreTrue (short long : string)
  | StrOptionLong (short long : string).

Definition SERVER_CREDS : string := ".server_creds.toml".
Definition old_list : list string := ["1"; "t"; "p"; "v"].
Definition new_list : list string := ["2"; "u"; "q"; "w"].
Definition tokens : list string := ["server"; "user"; "password"; "token"].

(** [d[k] = v]: the value of an existing key is replaced in place, a new
    key goes to the end. *)
Fixpoint dict_set {V} (k : string) (v : V) (d : list (string * V)) : list (string * V) :=
  match d with
  | [] => [(k, v)]
  | (k', v') :: d' =>
      if String.eqb k k' then (k, v) :: d' else (k', v') :: dict_set k v d'
  end.

(** [list(enumerate(l))]. *)
Definition enumerate {A} (l : list A) : list (nat * A) := combine (seq 0 (length l)) l.

(** One of the two loops of [parse_cmdline] that fill a map: every key
    takes the next pair off [enum] with [pop(0)], is mapped to its second
    component, and a help text is appended. *)
Fixpoint fill_map (prefix : string) (keys : list string) (enum : list (nat * string))
         (m : list (string * string)) (help_list : list string)
  : Result (list (nat * string) * list (string * string) * list string) :=
  match keys with
  | [] => Ok (enum, m, help_list)
  | k :: keys' =>
      match enum with
      | [] => Err (IndexError "pop from empty list")
      | tup :: enum' =>
          fill_map prefix keys' enum' (dict_set k (snd tup) m)
                   (help_list ++ [prefix ++ snd tup])
      end
  end.

(** The loop registering the options: each takes the next help text. *)
Fixpoint add_arguments (opts : list string) (help_list : list string)
         (parser : list Argument) : Result (list Argument) :=
  match opts with
  | [] => Ok parser
  | opt :: opts' =>
      match help_list with
      | [] => Err (IndexError "pop from empty list")
      | help :: help_list' =>
          add_arguments opts' help_list' (parser ++ [StrOption ("-" ++ opt) help])
      end
  end.

Record Parsed : Set := {
  p_old_map : list (string * string);
  p_new_map : list (string * string);
  p_parser : list Argument;
  p_creds : CredsPath;
  p_verbose : PyVal;
  p_ns_map : list (string * PyVal)
}.

Definition is_not_None (item : string * PyVal) : bool :=
  match snd item with PyNone => false | _ => true end.

(** [parse_cmdline]; [creds] is [self.creds] as [__init__] has set it,
    [vars_items] the items of the namespace argparse returns (those of a
    dictionary: the keys are distinct). *)
Definition parse_cmdline (creds : CredsPath) (vars_items : list (string * PyVal))
  : Result Parsed :=
  let enum0 := enumerate tokens in
  (* Consume copy only in first loop *)
  let enum1 := enum0 in
  match fill_map "old " old_list enum1 [] [] with
  | Err e => Err e
  | Ok (_, old_map, help_list) =>
      match fill_map "new " new_list enum0 [] help_list with
      | Err e => Err e
      | Ok (_, new_map, help_list) =>
          match add_arguments (old_list ++ new_list) help_list [] with
          | Err e => Err e
          | Ok parser =>
              let parser := (parser ++ [StoreTrue "-V" "--verbose";
                                        StrOptionLong "-c" "--config"])%list in
              (* Construct map from parsed option namespace (skip empty elements) *)
              let ns_map := List.filter is_not_None vars_items in
              let creds' := match dict_get "config" ns_map with
                            | Some v => ValOf v
                            | None => creds
                            end in
              match dict_get "verbose" ns_map with
              | None => Err (KeyError "verbose")
              | Some verbose =>
                  Ok {| p_old_map := old_map; p_new_map := new_map;
                        p_parser := parser; p_creds := creds';
                        p_verbose := verbose; p_ns_map := ns_map |}
              end
          end
      end
  end.

(** [Server] applied to unpacked keyword arguments: a keyword which is
    not a field is refused, a
    field without keyword gets the empty string. *)
Definition field_or_default (f : string) (kwargs : list (string * PyVal)) : PyVal :=
  match dict_get f kwargs with Some v => v | None => PyStr "" end.

Definition Server_kw (kwargs : list (string * PyVal)) : Result (list (string * PyVal)) :=
  match find (fun kv => negb (existsb (String.eqb (fst kv)) tokens)) kwargs with
  | Some kv =>
      Err (TypeError ("Server.__init__() got an unexpected keyword argument '"
                      ++ fst kv ++ "'"))
  | None => Ok (map (fun f => (f, field_or_default f kwargs)) tokens)
  end.

(** [type(v).__name__]. *)
Definition type_name (v : PyVal) : string :=
  match v with
  | PyNone => "NoneType"
  | PyBool _ => "bool"
  | PyStr _ => "str"
  | PyInt _ => "int"
  end.

(** [Server] applied to the unpacked table [config[section]]. *)
Definition server_of_section (section : string) (config : list (string * Toml))
  : Result (list (string * PyVal)) :=
  match dict_get section config with
  | None => Err (KeyError section)
  | Some (Scalar v) =>
      Err (TypeError ("migrate_server.Server() argument after ** must be a mapping, not "
                      ++ type_name v))
  | Some (Table items) => Server_kw items
  end.

(** [read_creds]; [load creds] is [toml.load] on the opened file. *)
Definition read_creds (load : CredsPath -> Result (list (string * Toml)))
           (creds : CredsPath)
  : Result (list (string * PyVal) * list (string * PyVal)) :=
  match load creds with
  | Err e => Err e
  | Ok config =>
      match server_of_section "old" config with
      | Err e => Err e
      | Ok old_ =>
          match server_of_section "new" config with
          | Err e => Err e
          | Ok new => Ok (old_, new)
          end
      end
  end.

(** [key in l]. *)
Definition mem (key : string) (l : list string) : bool := existsb (String.eqb key) l.

(** The loop of [get_cmdline] over the keys still to visit. *)
Fixpoint get_cmdline_loop (old_map new_map : list (string * string))
         (ns_map : list (string * PyVal)) (keys : list string)
         (old_ new : list (string * PyVal))
  : Result (list (string * PyVal) * list (string * PyVal)) :=
  match keys with
  | [] => Ok (old_, new)
  | key :: keys' =>
      if mem key old_list then
        match dict_get key old_map, dict_get key ns_map with
        | None, _ => Err (KeyError key)
        | Some _, None => Err (KeyError key)
        | Some field, Some v =>
            get_cmdline_loop old_map new_map ns_map keys' (dict_set field v old_) new
        end
      else if mem key new_list then
        match dict_get key new_map, dict_get key ns_map with
        | None, _ => Err (KeyError key)
        | Some _, None => Err (KeyError key)
        | Some field, Some v =>
            get_cmdline_loop old_map new_map ns_map keys' old_ (dict_set field v new)
        end
      else get_cmdline_loop old_map new_map ns_map keys' old_ new
  end.

(** Parse cmdline parms overwriting existing config map from TOML file *)
Definition get_cmdline (old_map new_map : list (string * string))
           (ns_map : list (string * PyVal)) (old_ new : list (string * PyVal))
  : Result (list (string * PyVal) * list (string * PyVal)) :=
  get_cmdline_loop old_map new_map ns_map (map fst ns_map) old_ new.

Record Config : Set := {
  creds : CredsPath;
  verbose : PyVal;
  old_map : list (string * string);
  new_map : list (string * string);
  old : list (string * PyVal);
  new : list (string * PyVal)
}.

(** [Config(creds)]. *)
Definition Config__init__ (load : CredsPath -> Result (list (string * Toml)))
           (vars_items : list (string * PyVal)) (creds_arg : option string)
  : Result Config :=
  let creds0 := match creds_arg with
                | None => HomeFile SERVER_CREDS
                | Some c => PathOf c
                end in
  match parse_cmdline creds0 vars_items with
  | Err e => Err e
  | Ok p =>
      match read_creds load (p_creds p) with
      | Err e => Err e
      | Ok (old0, new0) =>
          match get_cmdline (p_old_map p) (p_new_map p) (p_ns_map p) old0 new0 with
          | Err e => Err e
          | Ok (old1, new1) =>
              Ok {| creds := p_creds p; verbose := p_verbose p;
                    old_map := p_old_map p; new_map := p_new_map p;
                    old := old1; new := new1 |}
          end
      end
  end.

Definition get_verbose (c : Config) : PyVal := verbose c.

(** What the command line leaves in a field: the value of its option
    when the option was given, the value [before] otherwise. *)
Definition overridden (opt : string) (ns_map : list (string * PyVal))
           (before : option PyVal) : option PyVal :=
  match dict_get opt ns_map with
  | Some v => Some v
  | None => before
  end.

End Config.
(** ** Further sample worlds *)

Module Lobby.

(** A source room in which nothing was ever said: its timeline holds
    membership events only. *)
Definition lobby : MatrixRoom :=
  {| room_id := "!lobby:old"; display_name := "lobby"; topic := None;
     room_version := "10" |}.

Definition timeline : list Event := [Sample.member "$0"; Sample.member "$1"].

Definition old_server : Homeserver.Client :=
  Homeserver.server_with [("!lobby:old", lobby)] [("!lobby:old", timeline)] [] [].

Definition net (address : string) : Homeserver.Client :=
  if String.eqb address "https://old.example" then old_server
  else Sample.new_server [].

Definition nio : Nio nat Homeserver.Client := Homeserver.nio net.

Definition logged_in : World nat Homeserver.Client :=
  {| cls_device_cnt := 1;
     heap := [Sample.session Sample.config_old None ["lobby"]
                (Sample.synced [] old_server) false;
              Sample.session Sample.config_new (Some 0%nat) []
                (Sample.synced [] (Sample.new_server [])) false];
     log := []; stderr := []; trace := [] |}.

End Lobby.

Module Rejecting.

(** A destination that answers every [room_send] with an error
    response and stores nothing. *)
Definition room_send (rid : string) (_ : string) (content : Content)
           (c : Homeserver.Client) : SendResult * Homeserver.Client :=
  (SendReturned false, c).

Definition nio : Nio nat Homeserver.Client :=
  {| nio_AsyncClient := nio_AsyncClient Sample.nio0;
     nio_set_device_id := nio_set_device_id Sample.nio0;
     nio_rooms := nio_rooms Sample.nio0;
     nio_login := nio_login Sample.nio0;
     nio_logout := nio_logout Sample.nio0;
     nio_sync := nio_sync Sample.nio0;
     nio_room_create := nio_room_create Sample.nio0;
     nio_room_messages := nio_room_messages Sample.nio0;
     nio_download := nio_download Sample.nio0;
     nio_upload := nio_upload Sample.nio0;
     nio_room_send := room_send |}.

End Rejecting.

Module Startup.

(** The source session as its constructor leaves it, before [login]. *)
Definition fresh (verbose : bool) : Matrix_Server Homeserver.Client :=
  {| ms_server := Sample.config_old; verb := verbose; old := None;
     device := "migrate_server_1"; device_cnt := Some 2%Z; room_names := [];
     client := None; rooms_bound := false |}.

Definition constructed (verbose : bool) : World nat Homeserver.Client :=
  snd (Matrix_Server__init__ Sample.config_old verbose None initial_world).

(** The command line [-1 https://cli.example -q secret] and a
    credentials file with a partial table for each server. *)
Definition vars_items : list (string * Config.PyVal) :=
  [("1", Config.PyStr "https://cli.example"); ("t", Config.PyNone);
   ("p", Config.PyNone); ("v", Config.PyNone); ("2", Config.PyNone);
   ("u", Config.PyNone); ("q", Config.PyStr "secret"); ("w", Config.PyNone);
   ("verbose", Config.PyBool false); ("config", Config.PyNone)].

Definition file : list (string * Config.Toml) :=
  [("old", Config.Table [("server", Config.PyStr "https://old.example");
                         ("user", Config.PyStr "@me:old");
                         ("password", Config.PyStr "pw")]);
   ("new", Config.Table [("server", Config.PyStr "https://new.example");
                         ("user", Config.PyStr "@me:new");
                         ("token", Config.PyStr "tok")])].

Definition load (path : Config.CredsPath)
  : Config.Result (list (string * Config.Toml)) :=
  match path with
  | Config.HomeFile ".server_creds.toml" => Config.Ok file
  | _ => Config.Err (Config.OSError "No such file or directory")
  end.

End Startup.

Module Growing.

(** A client whose every sync brings one more joined room. *)
Definition late (n : nat) : MatrixRoom :=
  {| room_id := "!late" ++ str_nat n; display_name := "late"; topic := None;
     room_version := "10" |}.

Definition sync (timeout : option Z) (c : Homeserver.Client)
  : SyncResp nat * Homeserver.Client :=
  let rc := Homeserver.sync timeout c in
  (fst rc,
   Homeserver.with_rooms (snd rc)
     (Homeserver.rooms (snd rc)
      ++ [(room_id (late (length (Homeserver.rooms (snd rc)))),
           late (length (Homeserver.rooms (snd rc))))])
     (Homeserver.joined (snd rc)) (Homeserver.timelines (snd rc))).

Definition nio : Nio nat Homeserver.Client :=
  {| nio_AsyncClient := nio_AsyncClient Sample.nio0;
     nio_set_device_id := nio_set_device_id Sample.nio0;
     nio_rooms := nio_rooms Sample.nio0;
     nio_login := nio_login Sample.nio0;
     nio_logout := nio_logout Sample.nio0;
     nio_sync := sync;
     nio_room_create := nio_room_create Sample.nio0;
     nio_room_messages := nio_room_messages Sample.nio0;
     nio_download := nio_download Sample.nio0;
     nio_upload := nio_upload Sample.nio0;
     nio_room_send := nio_room_send Sample.nio0 |}.

End Growing.

(** * Properties *)

Section Properties.
Context {Token AsyncClient : Type}.
Context (nio : Nio Token AsyncClient) (str_token : Token -> string).

Abbreviation World := (World Token AsyncClient).
Abbreviation Matrix_Server := (Matrix_Server AsyncClient).
Abbreviation M := (M Token AsyncClient).

Implicit Types (w : World) (r : ref) (o : Matrix_Server).

(** *** Running the primitives *)

Lemma get_self_eq r w o :
  heap w !! r = Some o -> get_self r w = (Ret o, w).
Proof. intros H. unfold get_self. now rewrite H. Qed.

Lemma get_client_eq r w o c :
  heap w !! r = Some o -> client o = Some c -> get_client r w = (Ret c, w).
Proof.
  intros H Hc. unfold get_client, bind. rewrite (get_self_eq _ _ _ H).
  now rewrite Hc.
Qed.

Lemma heap_upd_inst_eq r f w o :
  heap w !! r = Some o -> heap (upd_inst r f w) !! r = Some (f o).
Proof.
  intros H. unfold upd_inst. rewrite H. simpl.
  apply list_lookup_insert_eq. now apply lookup_lt_Some in H.
Qed.

Lemma heap_upd_inst_ne r r' f w :
  r <> r' -> heap (upd_inst r f w) !! r' = heap w !! r'.
Proof.
  intros H. unfold upd_inst. destruct (heap w !! r); [|done]. simpl.
  now apply list_lookup_insert_ne.
Qed.

Lemma await_client_eq {X} r call (method : AsyncClient -> X * AsyncClient) w o c x c' :
  heap w !! r = Some o -> client o = Some c -> method c = (x, c') ->
  await_client r call method w
  = (Ret x, upd_inst r (set_client c') (add_trace call w)).
Proof.
  intros H Hc Hm. unfold await_client, bind.
  rewrite (get_client_eq _ _ _ _ H Hc). simpl. now rewrite Hm.
Qed.

(** *** The device identifier *)

Lemma init_eq srv v ol w :
  Matrix_Server__init__ srv v ol w
  = (Ret (length (heap w)),
     set_heap (heap w ++ [ {| ms_server := srv; verb := v; old := ol;
                              device := "migrate_server_" ++ str_Z (cls_device_cnt w);
                              device_cnt := Some (cls_device_cnt w + 1);
                              room_names := []; client := None;
                              rooms_bound := false |} ]) w).
Proof. reflexivity. Qed.

(** C7.  Two sessions constructed one after the other receive the same
    device identifier: the counter that is incremented is an attribute of
    the instance, and the class attribute every constructor reads keeps
    its value. *)
Theorem device_identifier_is_shared srv1 v1 ol1 srv2 v2 ol2 w :
  let r1 := length (heap w) in
  let w1 := snd (Matrix_Server__init__ srv1 v1 ol1 w) in
  let w2 := snd (Matrix_Server__init__ srv2 v2 ol2 w1) in
  fst (Matrix_Server__init__ srv1 v1 ol1 w) = Ret r1 /\
  fst (Matrix_Server__init__ srv2 v2 ol2 w1) = Ret (S r1) /\
  device <$> heap w2 !! r1 = Some ("migrate_server_" ++ str_Z (cls_device_cnt w)) /\
  device <$> heap w2 !! S r1 = Some ("migrate_server_" ++ str_Z (cls_device_cnt w)) /\
  cls_device_cnt w2 = cls_device_cnt w.
Proof.
  intros r1 w1 w2. subst r1 w1 w2. rewrite !init_eq. simpl.
  repeat split.
  - f_equal. rewrite length_app. simpl. lia.
  - rewrite lookup_app_l by (rewrite length_app; simpl; lia).
    rewrite lookup_app_r by lia. now rewrite Nat.sub_diag.
  - rewrite lookup_app_r by (rewrite length_app; simpl; lia).
    rewrite length_app. simpl.
    now replace (S (length (heap w)) - (length (heap w) + 1))%nat with 0%nat by lia.
Qed.

(** *** Synchronisation *)

(** C8.  When the full-state sync answers with a sync error, [sync]
    raises [TypeError] (the [logging] module is called as if it were a
    function): nothing is written to the log and the exception
    propagates to the caller. *)
Theorem sync_error_raises r w o c msg c' :
  heap w !! r = Some o -> client o = Some c ->
  nio_sync nio (Some 30000) c = (SyncError msg, c') ->
  fst (sync nio r w) = Raise (TypeError "'module' object is not callable") /\
  log (snd (sync nio r w)) = log w /\
  stderr (snd (sync nio r w)) = stderr w.
Proof.
  intros H Hc Hs. unfold sync, bind.
  rewrite (await_client_eq _ _ _ _ _ _ _ _ H Hc Hs).
  unfold upd_inst. simpl. rewrite H. now simpl.
Qed.

(** *** Inversion of successful runs *)

Lemma bind_Ret_inv {A B} (m : M A) (k : A -> M B) w b w' :
  bind m k w = (Ret b, w') ->
  exists a w1, m w = (Ret a, w1) /\ k a w1 = (Ret b, w').
Proof.
  unfold bind. destruct (m w) as [[a | e |] w1]; intros H; try discriminate.
  eauto.
Qed.

Lemma get_self_inv r w o w' :
  get_self r w = (Ret o, w') -> heap w !! r = Some o /\ w' = w.
Proof.
  unfold get_self. destruct (heap w !! r); intros H; inversion H; auto.
Qed.

Lemma get_client_inv r w c w' :
  get_client r w = (Ret c, w') ->
  exists o, heap w !! r = Some o /\ client o = Some c /\ w' = w.
Proof.
  intros H. apply bind_Ret_inv in H as (o & w1 & Ho & H).
  apply get_self_inv in Ho as [Ho ->].
  destruct (client o) eqn:Hc; inversion H; subst. eauto.
Qed.

Lemma await_client_inv {X} r call (method : AsyncClient -> X * AsyncClient) w x w' :
  await_client r call method w = (Ret x, w') ->
  exists o c c', heap w !! r = Some o /\ client o = Some c /\
                 method c = (x, c') /\
                 w' = upd_inst r (set_client c') (add_trace call w).
Proof.
  intros H. apply bind_Ret_inv in H as (c & w1 & Hc & H).
  apply get_client_inv in Hc as (o & Ho & Hc & ->).
  unfold bind, record in H. destruct (method c) as [x' c'] eqn:Hm.
  simpl in H. inversion H; subst. eauto 10.
Qed.

Lemma room_attr_inv {A} name (f : MatrixRoom -> A) room w a w' :
  room_attr name f room w = (Ret a, w') ->
  exists rm, room = Some rm /\ a = f rm /\ w' = w.
Proof. destruct room; intros H; inversion H; eauto. Qed.

Lemma sys_exit_false msg w :
  sys_exit msg false w = (Ret tt, add_log msg (add_stderr msg w)).
Proof. reflexivity. Qed.

Lemma sys_exit_true msg w :
  sys_exit msg true w = (Raise (SystemExit (-1)), add_log msg (add_stderr msg w)).
Proof. reflexivity. Qed.

Lemma try_except_Ret_inv (m : M unit) msg w a w' :
  try_except m (fun e => sys_exit (msg e) true) w = (Ret a, w') ->
  m w = (Ret a, w').
Proof.
  unfold try_except. destruct (m w) as [[x | e |] w1]; intros H; auto;
    destruct e; try discriminate.
Qed.

Lemma trace_upd_inst r f w : trace (upd_inst r f w) = trace w.
Proof. unfold upd_inst. now destruct (heap w !! r). Qed.

Lemma log_upd_inst r f w : log (upd_inst r f w) = log w.
Proof. unfold upd_inst. now destruct (heap w !! r). Qed.

Lemma trace_add_trace c w : trace (add_trace c w) = (trace w ++ [c])%list.
Proof. reflexivity. Qed.

Lemma trace_add_log msg w : trace (add_log msg w) = trace w.
Proof. reflexivity. Qed.

Lemma trace_add_stderr msg w : trace (add_stderr msg w) = trace w.
Proof. reflexivity. Qed.

Ltac simpl_trace :=
  repeat first [ rewrite trace_upd_inst | rewrite trace_add_trace
               | rewrite trace_add_log | rewrite trace_add_stderr ].

(** *** Page errors *)

(** C4.  A page answered with an error response does not end the loop
    as an empty page would: the error is logged, and evaluating
    [len(resp.chunk)] on the error response raises [AttributeError].
    This holds at any page, whatever has been gathered so far, so
    [fetch_room_events] returns nothing and the exception propagates. *)
Theorem page_error_raises fuel r rm d tok events w o c msg c' :
  heap w !! r = Some o -> client o = Some c ->
  nio_room_messages nio (room_id rm) tok 1000 d c = (RoomMessagesError msg, c') ->
  let loop := fetch_loop nio str_token (S fuel) r (Some rm) d tok events w in
  let call := fetch_room_events nio str_token (S fuel) r tok (Some rm) d w in
  fst loop = Raise (AttributeError "'RoomMessagesError' object has no attribute 'chunk'") /\
  fst call = Raise (AttributeError "'RoomMessagesError' object has no attribute 'chunk'") /\
  log (snd call)
  = (log w ++ [(ERROR, ("Failed to get messages for room " ++ display_name rm
                        ++ " @ start_token " ++ str_token tok)%string)])%list.
Proof.
  intros H Hc Hm.
  assert (Hloop : forall evs,
    fetch_loop nio str_token (S fuel) r (Some rm) d tok evs w
    = (Raise (AttributeError "'RoomMessagesError' object has no attribute 'chunk'"),
       add_log ("Failed to get messages for room " ++ display_name rm
                ++ " @ start_token " ++ str_token tok)
               (upd_inst r (set_client c')
                  (add_trace (CallRoomMessages r (room_id rm) tok 1000 d) w)))).
  { intros evs. simpl. unfold bind at 1.
    rewrite (get_client_eq _ _ _ _ H Hc). unfold bind at 1. simpl.
    unfold bind at 1.
    rewrite (await_client_eq _ _ _ _ _ _ _ _ H Hc Hm). reflexivity. }
  assert (Hcall :
    fetch_room_events nio str_token (S fuel) r tok (Some rm) d w
    = fetch_loop nio str_token (S fuel) r (Some rm) d tok [] w).
  { unfold fetch_room_events, bind at 1. rewrite (get_self_eq _ _ _ H).
    unfold bind at 1. now rewrite Hloop. }
  intros loop call. subst loop call. rewrite Hcall, !Hloop. cbn [fst snd].
  repeat split. unfold add_log. cbn [log]. now rewrite log_upd_inst.
Qed.

(** *** Media relay *)

Lemma download_mxc_eq ro url_ w oo co resp co' :
  heap w !! ro = Some oo -> client oo = Some co ->
  nio_download nio url_ co = (resp, co') ->
  download_mxc nio (Some ro) url_ w
  = (Ret (if hasattr_body resp then TheResponse resp else TheBytes []),
     upd_inst ro (set_client co') (add_trace (CallDownload ro url_) w)).
Proof.
  intros H Hc Hd. unfold download_mxc, bind.
  rewrite (await_client_eq _ _ _ _ _ _ _ _ H Hc Hd).
  now destruct (hasattr_body resp).
Qed.

(** C5.  When the download of a media event fails, [download_mxc] does
    hand back the empty [bytes] object, but [post_event] then reads
    [.body] on it and raises [AttributeError]: nothing is uploaded,
    nothing is posted, and the exception leaves [post_event]. *)
Theorem failed_download_raises r room event w o ro oo co msg co' :
  heap w !! r = Some o -> old o = Some ro ->
  heap w !! ro = Some oo -> client oo = Some co ->
  isinstance event media_classes = true ->
  nio_download nio (ev_url event) co = (DownloadError msg, co') ->
  let dl := download_mxc nio (Some ro) (ev_url event) w in
  let res := post_event nio r room event w in
  fst dl = Ret (TheBytes []) /\
  fst res = Raise (AttributeError "'bytes' object has no attribute 'body'") /\
  trace (snd res) = (trace w ++ [CallDownload ro (ev_url event)])%list.
Proof.
  intros H Hold Ho Hc Hmedia Hd dl res. subst dl res.
  assert (Hpost :
    post_event nio r room event w
    = (Raise (AttributeError "'bytes' object has no attribute 'body'"),
       upd_inst ro (set_client co') (add_trace (CallDownload ro (ev_url event)) w))).
  { unfold post_event, bind at 1. rewrite (get_self_eq _ _ _ H).
    rewrite Hmedia, Hold. unfold bind at 1. unfold bind at 1.
    now rewrite (download_mxc_eq _ _ _ _ _ _ _ Ho Hc Hd). }
  rewrite Hpost, (download_mxc_eq _ _ _ _ _ _ _ Ho Hc Hd).
  cbn [fst snd hasattr_body]. now rewrite trace_upd_inst.
Qed.

Lemma download_mxc_inv srv url_ w d w' :
  download_mxc nio srv url_ w = (Ret d, w') ->
  exists ro oo co resp co',
    srv = Some ro /\ heap w !! ro = Some oo /\ client oo = Some co /\
    nio_download nio url_ co = (resp, co') /\
    d = (if hasattr_body resp then TheResponse resp else TheBytes []) /\
    w' = upd_inst ro (set_client co') (add_trace (CallDownload ro url_) w).
Proof.
  destruct srv as [ro|]; [|discriminate]. intros H.
  apply bind_Ret_inv in H as (resp & w1 & Ha & H).
  apply await_client_inv in Ha as (oo & co & co' & Ho & Hc & Hd & ->).
  exists ro, oo, co, resp, co'.
  destruct (hasattr_body resp); inversion H; subst; auto 10.
Qed.

Lemma media_fields_inv d w f w' :
  media_fields d w = (Ret f, w') ->
  exists body mime name,
    d = TheResponse (DownloadResponse body mime name) /\
    f = (body, name, mime) /\ w' = w.
Proof.
  destruct d as [[body mime name | m] | b]; intros H; inversion H; eauto 10.
Qed.

Lemma upload_content_uri_inv resp w uri w' :
  upload_content_uri resp w = (Ret uri, w') ->
  resp = UploadResponse uri /\ w' = w.
Proof. destruct resp; intros H; inversion H; auto. Qed.

(** C6.  Whenever [post_event] relays a media event and returns, the
    bytes handed to the destination upload are the body of the download
    response, and the [filesize] of the upload and the [size] of the
    posted message are both the length of that body. *)
Theorem relayed_size_is_downloaded_size r room event w w' :
  isinstance event media_classes = true ->
  post_event nio r room event w = (Ret tt, w') ->
  exists o ro oo co co' body mime name uri rid mt,
    heap w !! r = Some o /\ old o = Some ro /\
    heap w !! ro = Some oo /\ client oo = Some co /\
    nio_download nio (ev_url event) co = (DownloadResponse body mime name, co') /\
    trace w'
    = (trace w ++
       [CallDownload ro (ev_url event);
        CallUpload r body mime name (length body);
        CallRoomSend r rid "m.room.message"
          (MediaContent name (length body) mime uri mt)])%list.
Proof.
  intros Hmedia H. unfold post_event in H.
  apply bind_Ret_inv in H as (o & w0 & Hself & H).
  apply get_self_inv in Hself as [Hself ->].
  rewrite Hmedia in H.
  apply bind_Ret_inv in H as (content & w1 & Hcontent & H).
  apply bind_Ret_inv in Hcontent as (d & w2 & Hdl & Hcontent).
  apply download_mxc_inv in Hdl
    as (ro & oo & co & resp & co' & Hold & Ho & Hc & Hd & -> & ->).
  apply bind_Ret_inv in Hcontent as (f & w3 & Hf & Hcontent).
  apply media_fields_inv in Hf as (body & mime & name & Hresp & -> & ->).
  assert (resp = DownloadResponse body mime name) as ->.
  { destruct resp; simpl in Hresp; [now inversion Hresp | discriminate]. }
  apply bind_Ret_inv in Hcontent as (c1 & w4 & Hc1 & Hcontent).
  apply get_client_inv in Hc1 as (o1 & _ & _ & ->).
  apply bind_Ret_inv in Hcontent as (up & w5 & Hup & Hcontent).
  apply await_client_inv in Hup as (o2 & c2 & c2' & _ & _ & _ & ->).
  apply bind_Ret_inv in Hcontent as ([] & w6 & Hverb & Hcontent).
  apply bind_Ret_inv in Hcontent as (uri & w7 & Huri & Hcontent).
  apply upload_content_uri_inv in Huri as [-> ->].
  inversion Hcontent; subst content w6; clear Hcontent.
  assert (Htr1 : trace w1
                 = ((trace w ++ [CallDownload ro (ev_url event)])
                    ++ [CallUpload r body mime name (length body)])%list).
  { destruct (verb o).
    - apply bind_Ret_inv in Hverb as (uri' & w8 & Huri & Hverb).
      apply upload_content_uri_inv in Huri as [_ ->].
      rewrite sys_exit_false in Hverb. inversion Hverb; subst w1.
      now simpl_trace.
    - inversion Hverb; subst w1. now simpl_trace. }
  apply bind_Ret_inv in H as (mt & w8 & Hmt & H).
  assert (w8 = w1) as ->.
  { destruct (ev_msgtype event); inversion Hmt; auto. }
  apply bind_Ret_inv in H as ([] & w9 & Hsend & H).
  apply try_except_Ret_inv in Hsend.
  apply bind_Ret_inv in Hsend as (c3 & w10 & Hc3 & Hsend).
  apply get_client_inv in Hc3 as (o3 & _ & _ & ->).
  apply bind_Ret_inv in Hsend as (rid & w11 & Hrid & Hsend).
  apply room_attr_inv in Hrid as (rm & -> & -> & ->).
  apply bind_Ret_inv in Hsend as (res & w12 & Hres & Hsend).
  apply await_client_inv in Hres as (o4 & c4 & c4' & _ & _ & _ & ->).
  assert (w9 = upd_inst r (set_client c4')
                 (add_trace (CallRoomSend r (room_id rm) "m.room.message"
                               (MediaContent name (length body) mime uri mt)) w1)) as ->.
  { destruct res; inversion Hsend; auto. }
  exists o, ro, oo, co, co', body, mime, name, uri, (room_id rm), mt.
  repeat (split; [assumption|]).
  assert (Htr : trace w'
                = (trace w1 ++ [CallRoomSend r (room_id rm) "m.room.message"
                                  (MediaContent name (length body) mime uri mt)])%list).
  { destruct (verb o).
    - apply bind_Ret_inv in H as (dn & w13 & Hdn & H).
      apply room_attr_inv in Hdn as (rm' & _ & _ & ->).
      rewrite sys_exit_false in H. inversion H; subst w'.
      now simpl_trace.
    - inversion H; subst w'. now simpl_trace. }
  rewrite Htr, Htr1. now rewrite <- !app_assoc.
Qed.

(** *** Event filtering *)

Lemma fetch_loop_retained fuel r room d : forall tok events w evs w',
  fetch_loop nio str_token fuel r room d tok events w = (Ret evs, w') ->
  Forall (fun e => retained e = true) events ->
  Forall (fun e => retained e = true) evs.
Proof.
  induction fuel as [|fuel IH]; intros tok events w evs w' H Hall; [discriminate|].
  simpl in H.
  apply bind_Ret_inv in H as (c & w1 & _ & H).
  apply bind_Ret_inv in H as (rid & w2 & _ & H).
  apply bind_Ret_inv in H as (resp & w3 & _ & H).
  destruct resp as [chunk s e | m].
  - destruct (length chunk =? 0)%nat.
    + inversion H; now subst.
    + eapply IH; [exact H|]. apply Forall_app. split; [assumption|].
      apply List.Forall_forall. intros x Hx.
      apply List.filter_In in Hx. tauto.
  - apply bind_Ret_inv in H as (dn & w4 & _ & H).
    apply bind_Ret_inv in H as (u & w5 & _ & H). discriminate.
Qed.

Lemma fetch_room_events_retained fuel r tok room d w evs w' :
  fetch_room_events nio str_token fuel r tok room d w = (Ret evs, w') ->
  Forall (fun e => retained e = true) evs.
Proof.
  intros H. unfold fetch_room_events in H.
  apply bind_Ret_inv in H as (o & w1 & _ & H).
  apply bind_Ret_inv in H as (events & w2 & Hloop & H).
  apply bind_Ret_inv in H as (u & w3 & _ & H).
  inversion H; subst. eapply fetch_loop_retained; eauto.
Qed.

Lemma get_room_events_inv fuel r room w evs w' :
  get_room_events nio str_token fuel r room w = (Ret evs, w') ->
  exists anchor w1 w2 w3 back_run front_run,
    fetch_room_events nio str_token fuel r anchor room back w1 = (Ret back_run, w2) /\
    fetch_room_events nio str_token fuel r anchor room front w2 = (Ret front_run, w3) /\
    evs = (rev back_run ++ front_run)%list.
Proof.
  intros H. unfold get_room_events in H.
  apply bind_Ret_inv in H as (o & w0 & _ & H).
  apply bind_Ret_inv in H as (resp & w1 & _ & H).
  apply bind_Ret_inv in H as (anchor & w2 & _ & H).
  apply bind_Ret_inv in H as (b & w3 & Hb & H).
  apply bind_Ret_inv in H as (f & w4 & Hf & H).
  apply bind_Ret_inv in H as (u & w5 & _ & H).
  inversion H; subst. eauto 10.
Qed.

Lemma isinstance_cases e cs :
  isinstance e cs = true <-> exists c, In c cs /\ issubclass (ev_class e) c = true.
Proof. unfold isinstance. apply List.existsb_exists. Qed.

Lemma redacted_not_sent e :
  isinstance e [RedactedEvent] = true ->
  isinstance e fetch_classes = true /\ isinstance e send_classes = false.
Proof.
  unfold isinstance. destruct e as [c i b u m]. simpl.
  destruct c; vm_compute; intros H; try discriminate; auto.
Qed.

Lemma send_loop_skips r room (skip : Event -> bool) :
  (forall e, skip e = true -> isinstance e send_classes = false) ->
  forall events w,
    send_loop nio r room events w
    = send_loop nio r room (List.filter (fun e => negb (skip e)) events) w.
Proof.
  intros Hskip events. induction events as [|e rest IH]; intros w; [done|].
  cbn [send_loop List.filter]. destruct (skip e) eqn:He; cbn [negb send_loop].
  - rewrite (Hskip _ He). unfold when, bind at 1. cbn [ret]. apply IH.
  - unfold bind. destruct (when _ _ w) as [[[] | x |] w1]; auto.
Qed.

(** C3.  Every event of a fetched timeline is an instance of one of the
    four retained classes (formatted text message, redacted event, media
    message, encrypted media message); a redacted event passes the fetch
    filter and fails the replay filter, so the replay loop does for a
    timeline what it does for that timeline without its redacted
    events. *)
Theorem fetched_classes_and_redacted fuel r room w evs w' :
  get_room_events nio str_token fuel r room w = (Ret evs, w') ->
  (forall e, In e evs ->
     issubclass (ev_class e) RoomMessageFormatted = true \/
     issubclass (ev_class e) RoomMessageMedia = true \/
     issubclass (ev_class e) RedactedEvent = true \/
     issubclass (ev_class e) RoomEncryptedMedia = true) /\
  (forall e, isinstance e [RedactedEvent] = true ->
     isinstance e fetch_classes = true /\ isinstance e send_classes = false) /\
  (forall r' room' w0,
     send_loop nio r' room' evs w0
     = send_loop nio r' room'
         (List.filter (fun e => negb (isinstance e [RedactedEvent])) evs) w0).
Proof.
  intros H. split; [|split].
  - apply get_room_events_inv in H
      as (anchor & w1 & w2 & w3 & b & f & Hb & Hf & ->).
    apply fetch_room_events_retained in Hb, Hf.
    intros e He. apply List.in_app_or in He.
    assert (Hr : retained e = true).
    { destruct He as [He | He].
      - apply List.in_rev in He. revert e He. now apply List.Forall_forall.
      - revert e He. now apply List.Forall_forall. }
    apply isinstance_cases in Hr as (c & Hc & Hsub). simpl in Hc.
    destruct Hc as [<- | [<- | [<- | [<- | []]]]]; auto.
  - apply redacted_not_sent.
  - intros r' room' w0. apply send_loop_skips. intros e He.
    now apply redacted_not_sent.
Qed.


(** *** Relations every step of a run maintains

    [R] is a preorder on worlds which the elementary updates respect,
    [ok] tells the network operations it allows.  Every function of the
    script built from those then keeps [R] between the world it starts
    in and the world it ends in, whatever the outcome. *)

Section Preservation.
Variable R : World -> World -> Prop.
Variable ok : NetCall Token -> Prop.
Hypothesis R_refl : forall w, R w w.
Hypothesis R_trans : forall w1 w2 w3, R w1 w2 -> R w2 w3 -> R w1 w3.
Hypothesis R_stderr : forall msg w, R w (add_stderr msg w).
Hypothesis R_log : forall msg w, R w (add_log msg w).
Hypothesis R_trace : forall c w, ok c -> R w (add_trace c w).
Hypothesis R_client : forall r c w, R w (upd_inst r (set_client c) w).
Hypothesis R_rooms : forall r w, R w (upd_inst r bind_rooms w).

Lemma preserves_ret {A} (a : A) : preserves R (ret a).
Proof. intros w. apply R_refl. Qed.

Lemma preserves_raise {A} e : preserves R (@raise _ _ A e).
Proof. intros w. apply R_refl. Qed.

Lemma preserves_out_of_fuel {A} : preserves R (@out_of_fuel _ _ A).
Proof. intros w. apply R_refl. Qed.

Lemma preserves_bind {A B} (m : M A) (k : A -> M B) :
  preserves R m -> (forall a, preserves R (k a)) -> preserves R (bind m k).
Proof.
  intros Hm Hk w. unfold bind. specialize (Hm w).
  destruct (m w) as [[a | e |] w1]; simpl in *; auto.
  eapply R_trans; [exact Hm | apply Hk].
Qed.

Lemma preserves_try_except {A} (m : M A) h :
  preserves R m -> (forall e, preserves R (h e)) -> preserves R (try_except m h).
Proof.
  intros Hm Hh w. unfold try_except. specialize (Hm w).
  destruct (m w) as [[a | e |] w1]; simpl in *; auto.
  destruct e; simpl; auto; (eapply R_trans; [exact Hm | apply Hh]).
Qed.

Lemma preserves_not_awaited {A} q (m : M A) : preserves R (not_awaited q m).
Proof. intros w. apply R_stderr. Qed.

Lemma preserves_get_self r : preserves R (get_self r).
Proof. intros w. unfold get_self. destruct (heap w !! r); apply R_refl. Qed.

Lemma preserves_print msg : preserves R (print_stderr msg).
Proof. intros w. apply R_stderr. Qed.

Lemma preserves_logging msg : preserves R (logging_error msg).
Proof. intros w. apply R_log. Qed.

Lemma preserves_record c : ok c -> preserves R (record c).
Proof. intros H w. now apply R_trace. Qed.

Lemma preserves_set_client r c : preserves R (modify r (set_client c)).
Proof. intros w. apply R_client. Qed.

Lemma preserves_bind_rooms r : preserves R (modify r bind_rooms).
Proof. intros w. apply R_rooms. Qed.

Lemma preserves_room_attr {A} name (f : MatrixRoom -> A) room :
  preserves R (room_attr name f room).
Proof. destruct room; [apply preserves_ret | apply preserves_raise]. Qed.

Ltac pres :=
  repeat match goal with
    | |- forall _, _ => intro
    | |- preserves R (bind _ _) => apply preserves_bind
    | |- preserves R (ret _) => apply preserves_ret
    | |- preserves R (raise _) => apply preserves_raise
    | |- preserves R out_of_fuel => apply preserves_out_of_fuel
    | |- preserves R (try_except _ _) => apply preserves_try_except
    | |- preserves R (not_awaited _ _) => apply preserves_not_awaited
    | |- preserves R (get_self _) => apply preserves_get_self
    | |- preserves R (print_stderr _) => apply preserves_print
    | |- preserves R (logging_error _) => apply preserves_logging
    | |- preserves R (record _) => apply preserves_record
    | |- preserves R (modify _ (set_client _)) => apply preserves_set_client
    | |- preserves R (modify _ bind_rooms) => apply preserves_bind_rooms
    | |- preserves R (room_attr _ _ _) => apply preserves_room_attr
    | |- preserves R (when ?b _) => destruct b; unfold when
    | |- preserves R (match ?x with _ => _ end) => destruct x
    | H : _ |- _ => solve [apply H]
    end.

Lemma preserves_get_client r : preserves R (get_client r).
Proof. unfold get_client. pres. Qed.

Lemma preserves_await_client {X} r c (method : AsyncClient -> X * AsyncClient) :
  ok c -> preserves R (await_client r c method).
Proof.
  intros H. unfold await_client. pres; auto using preserves_get_client.
Qed.

Lemma preserves_self_rooms r : preserves R (self_rooms nio r).
Proof. unfold self_rooms. pres. Qed.

Lemma preserves_sys_exit msg exit : preserves R (sys_exit msg exit).
Proof. unfold sys_exit. pres. Qed.

Lemma preserves_get_room r name : preserves R (get_room nio r name).
Proof. unfold get_room. pres; apply preserves_self_rooms. Qed.

Lemma preserves_get_room_from_id r rid : preserves R (get_room_from_id nio r rid).
Proof. unfold get_room_from_id. pres; apply preserves_self_rooms. Qed.

Lemma preserves_get_room_names r : preserves R (get_room_names r).
Proof. unfold get_room_names. pres. Qed.

Lemma preserves_sync r : ok (CallSync r) -> preserves R (sync nio r).
Proof. intros H. unfold sync. pres. now apply preserves_await_client. Qed.

Hypothesis ok_sync : forall r, ok (CallSync r).
Hypothesis ok_messages : forall r rid t l d, ok (CallRoomMessages r rid t l d).
Hypothesis ok_download : forall r u, ok (CallDownload r u).
Hypothesis ok_upload : forall r b m n s, ok (CallUpload r b m n s).
Hypothesis ok_send : forall r rid t c, ok (CallRoomSend r rid t c).

Lemma preserves_fetch_loop fuel r room d : forall tok events,
  preserves R (fetch_loop nio str_token fuel r room d tok events).
Proof.
  induction fuel as [|fuel IH]; intros tok events; simpl.
  - apply preserves_out_of_fuel.
  - pres; auto using preserves_get_client, preserves_await_client.
Qed.

Lemma preserves_fetch_room_events fuel r tok room d :
  preserves R (fetch_room_events nio str_token fuel r tok room d).
Proof.
  unfold fetch_room_events.
  pres; auto using preserves_fetch_loop, preserves_sys_exit.
Qed.

Lemma preserves_get_room_events fuel r room :
  preserves R (get_room_events nio str_token fuel r room).
Proof.
  unfold get_room_events.
  pres; auto using preserves_fetch_room_events, preserves_sys_exit,
          preserves_await_client.
Qed.

Lemma preserves_download_mxc srv u : preserves R (download_mxc nio srv u).
Proof. unfold download_mxc. pres. now apply preserves_await_client. Qed.

Lemma preserves_post_event r room e : preserves R (post_event nio r room e).
Proof.
  unfold post_event, media_fields, upload_content_uri.
  pres; auto using preserves_download_mxc, preserves_get_client,
          preserves_await_client, preserves_sys_exit.
Qed.

Lemma preserves_send_loop r room events : preserves R (send_loop nio r room events).
Proof.
  induction events as [|e rest IH]; simpl; pres.
  apply preserves_post_event.
Qed.

Lemma preserves_send_events r room events :
  preserves R (send_events nio r room events).
Proof.
  unfold send_events. pres; auto using preserves_send_loop, preserves_sys_exit.
Qed.


Hypothesis R_append : forall r n w, R w (upd_inst r (append_room_name n) w).
Hypothesis R_alloc : forall o w, R w (set_heap (heap w ++ [o]) w).
Hypothesis ok_login : forall r c, ok (CallLogin r c).
Hypothesis ok_create : forall r n, ok (CallRoomCreate r n).

Lemma preserves_append r n : preserves R (modify r (append_room_name n)).
Proof. intros w. apply R_append. Qed.

Lemma preserves_init srv v ol : preserves R (Matrix_Server__init__ srv v ol).
Proof. intros w. apply R_alloc. Qed.

Lemma preserves_create_room r name : preserves R (create_room nio r name).
Proof.
  unfold create_room.
  pres; auto using preserves_get_room, preserves_get_client,
          preserves_await_client, preserves_sys_exit, preserves_sync,
          preserves_append.
Qed.

Lemma preserves_resolve_room r name : preserves R (resolve_room nio r name).
Proof.
  unfold resolve_room.
  pres; auto using preserves_get_room_names, preserves_get_room,
          preserves_create_room.
Qed.

Lemma preserves_migrate_room fuel ol new room :
  preserves R (migrate_room nio str_token fuel ol new room).
Proof.
  unfold migrate_room, get_room_name.
  pres; auto using preserves_get_room_from_id, preserves_get_room_events,
          preserves_resolve_room, preserves_send_events.
Qed.

Lemma preserves_main_loop fuel ol new size0 todo : forall pos,
  preserves R (main_loop nio str_token fuel ol new size0 pos todo).
Proof.
  induction todo as [|todo IH]; intros pos; simpl.
  - apply preserves_out_of_fuel.
  - pres; auto using preserves_self_rooms, preserves_migrate_room.
Qed.

Lemma preserves_login_names r (rooms : list (string * MatrixRoom)) :
  forall acc : M unit,
    preserves R acc ->
    preserves R (fold_left
                   (fun acc kv =>
                      bind acc (fun _ => modify r (append_room_name
                                                     (display_name (snd kv)))))
                   rooms acc).
Proof.
  induction rooms as [|kv rooms IH]; intros acc Hacc; simpl; [assumption|].
  apply IH. pres. apply preserves_append.
Qed.

Lemma preserves_login r : preserves R (login nio r).
Proof.
  unfold login.
  pres; auto using preserves_await_client, preserves_sys_exit, preserves_sync,
          preserves_self_rooms.
  apply preserves_login_names. apply preserves_ret.
Qed.

Lemma preserves_main fuel co cn v : preserves R (main nio str_token fuel co cn v).
Proof.
  unfold main.
  pres; auto using preserves_init, preserves_login, preserves_self_rooms,
          preserves_main_loop.
Qed.
End Preservation.

(** *** Logout *)

Lemma no_logout_refl w : no_logout w w.
Proof. exists []. split; [now rewrite app_nil_r | constructor]. Qed.

Lemma no_logout_trans w1 w2 w3 :
  no_logout w1 w2 -> no_logout w2 w3 -> no_logout w1 w3.
Proof.
  intros (t1 & E1 & F1) (t2 & E2 & F2). exists (t1 ++ t2)%list. split.
  - now rewrite E2, E1, app_assoc.
  - apply Forall_app. auto.
Qed.

Lemma no_logout_same_trace w w' : trace w' = trace w -> no_logout w w'.
Proof. intros E. exists []. rewrite app_nil_r. split; [exact E | constructor]. Qed.

Lemma no_logout_call c w : is_logout c = false -> no_logout w (add_trace c w).
Proof. intros H. exists [c]. split; [reflexivity | now repeat constructor]. Qed.

(** An awaited [logout] does reach the server. *)
Lemma logout_awaited r w o c :
  heap w !! r = Some o -> client o = Some c ->
  trace (snd (logout nio r w)) = (trace w ++ [CallLogout r])%list.
Proof.
  intros H Hc. unfold logout, bind at 1. rewrite (get_self_eq _ _ _ H).
  unfold bind at 1. destruct (nio_logout nio c) as [resp c'] eqn:Hl.
  rewrite (await_client_eq _ _ _ _ _ _ _ _ H Hc Hl).
  destruct resp, (verb o); cbn; now simpl_trace.
Qed.

(** C9.  [main] calls [logout] on both handles without awaiting the
    coroutines, so neither body runs: whatever the servers answer and
    however the run ends, the operations [main] performs contain no
    logout, and both sessions stay open. *)
Theorem main_never_logs_out fuel config_old config_new verbose w :
  exists tr,
    trace (snd (main nio str_token fuel config_old config_new verbose w))
    = (trace w ++ tr)%list /\
    Forall (fun c => is_logout c = false) tr.
Proof.
  apply (preserves_main no_logout (fun c => is_logout c = false));
    intros;
    first [ reflexivity
          | apply no_logout_refl
          | eapply no_logout_trans; eassumption
          | apply no_logout_call; assumption
          | apply no_logout_same_trace; now simpl_trace ].
Qed.

(** *** Room creation *)

Lemma created_names_snoc (tr : list (NetCall Token)) c :
  created_names (tr ++ [c])
  = (created_names tr ++ (if is_create c then created_names [c] else []))%list.
Proof.
  unfold created_names. rewrite omap_app. f_equal. now destruct c.
Qed.

Lemma names_upd_inst r f w :
  (forall o, room_names (f o) = room_names o) ->
  map room_names (heap (upd_inst r f w)) = map room_names (heap w).
Proof.
  intros Hf. unfold upd_inst. destruct (heap w !! r) as [o|] eqn:Ho; [|done].
  simpl. change (map (@room_names AsyncClient)) with (fmap (M := list) (@room_names AsyncClient)).
  rewrite list_fmap_insert, Hf. apply list_insert_id.
  now rewrite list_lookup_fmap, Ho.
Qed.

Lemma names_at_heap r w o :
  heap w !! r = Some o -> names_at r w = Some (room_names o).
Proof.
  intros H. unfold names_at. change (map (@room_names AsyncClient)) with (fmap (M := list) (@room_names AsyncClient)).
  now rewrite list_lookup_fmap, H.
Qed.

Lemma names_at_append r n w ns :
  names_at r w = Some ns ->
  names_at r (upd_inst r (append_room_name n) w) = Some (ns ++ [n])%list.
Proof.
  unfold names_at. change (map (@room_names AsyncClient)) with (fmap (M := list) (@room_names AsyncClient)).
  rewrite list_lookup_fmap. destruct (heap w !! r) as [o|] eqn:Ho; [|discriminate].
  simpl. intros [= <-]. rewrite list_lookup_fmap.
  now rewrite (heap_upd_inst_eq _ _ _ _ Ho).
Qed.

Lemma same_names_refl w : same_names w w.
Proof. now split. Qed.

Lemma same_names_trans w1 w2 w3 :
  same_names w1 w2 -> same_names w2 w3 -> same_names w1 w3.
Proof. intros [A1 B1] [A2 B2]. split; congruence. Qed.

Lemma same_names_call c w : is_create c = false -> same_names w (add_trace c w).
Proof.
  intros H. split; [|done]. rewrite trace_add_trace, created_names_snoc, H.
  apply app_nil_r.
Qed.

Lemma same_names_upd r f w :
  (forall o, room_names (f o) = room_names o) -> same_names w (upd_inst r f w).
Proof.
  intros Hf. split; [now rewrite trace_upd_inst | now apply names_upd_inst].
Qed.

Ltac same_names_side :=
  intros;
  first [ reflexivity
        | apply same_names_refl
        | eapply same_names_trans; eassumption
        | apply same_names_call; assumption
        | apply same_names_upd; reflexivity
        | split; reflexivity ].

Lemma no_creation_refl w : no_creation w w.
Proof. reflexivity. Qed.

Lemma no_creation_trans w1 w2 w3 :
  no_creation w1 w2 -> no_creation w2 w3 -> no_creation w1 w3.
Proof. unfold no_creation. congruence. Qed.

Lemma no_creation_call c w : is_create c = false -> no_creation w (add_trace c w).
Proof.
  intros H. unfold no_creation.
  rewrite trace_add_trace, created_names_snoc, H. apply app_nil_r.
Qed.

Lemma no_creation_same_trace w w' : trace w' = trace w -> no_creation w w'.
Proof. unfold no_creation. congruence. Qed.

Ltac no_creation_side :=
  intros;
  first [ reflexivity
        | apply no_creation_refl
        | eapply no_creation_trans; eassumption
        | apply no_creation_call; assumption
        | apply no_creation_same_trace; now simpl_trace ].

(** Stability of the invariants. *)
Lemma created_once_stable new pending w w' :
  same_names w w' -> created_once new pending w -> created_once new pending w'.
Proof.
  intros [Hc Hn] [Hnd Hin]. unfold created_once, names_at in *.
  rewrite Hc, Hn. auto.
Qed.

Lemma about_to_create_stable new name w w' :
  same_names w w' -> about_to_create new name w -> about_to_create new name w'.
Proof.
  intros HR [Hinv (ns & Hns & Hnot)]. split.
  - eapply created_once_stable; eauto.
  - exists ns. split; [|assumption]. destruct HR as [_ Hn].
    unfold names_at in *. now rewrite Hn.
Qed.

(** Rules for [wp]. *)
Lemma wp_bind {A B} (m : M A) (k : A -> M B) Qr Qx w :
  wp m (fun a w1 => wp (k a) Qr Qx w1) Qx w -> wp (bind m k) Qr Qx w.
Proof.
  unfold wp, bind. destruct (m w) as [[a | e |] w1]; auto.
Qed.

Lemma wp_ret {A} (a : A) (Qr : A -> World -> Prop) Qx w : Qr a w -> wp (ret a) Qr Qx w.
Proof. auto. Qed.

Lemma wp_preserves {A} R (P : World -> Prop) (m : M A) Qr Qx w :
  preserves R m -> P w ->
  (forall w1 w2, R w1 w2 -> P w1 -> P w2) ->
  (forall a w', P w' -> Qr a w') -> (forall w', P w' -> Qx w') ->
  wp m Qr Qx w.
Proof.
  intros Hm HP Hst Hr Hx. unfold wp. specialize (Hm w).
  destruct (m w) as [[a | e |] w']; simpl in Hm; eauto.
Qed.

Lemma wp_await_client {X} r c (method : AsyncClient -> X * AsyncClient) Qr Qx w :
  Qx w ->
  (forall x c', Qr x (upd_inst r (set_client c') (add_trace c w))) ->
  wp (await_client r c method) Qr Qx w.
Proof.
  intros Hx Hr. cbv [wp await_client bind get_client get_self record modify ret raise].
  destruct (heap w !! r) as [o|]; [|assumption].
  destruct (client o) as [cl|]; [|assumption].
  destruct (method cl) as [x c']. apply Hr.
Qed.

Lemma same_names_get_self r : preserves (@same_names Token AsyncClient) (get_self r).
Proof. apply preserves_get_self. same_names_side. Qed.

Lemma same_names_get_client r : preserves (@same_names Token AsyncClient) (get_client r).
Proof. apply preserves_get_client; same_names_side. Qed.

Lemma same_names_room_attr {A} name (f : MatrixRoom -> A) room :
  preserves (@same_names Token AsyncClient) (room_attr name f room).
Proof. apply preserves_room_attr. same_names_side. Qed.

Lemma same_names_get_room r name : preserves (@same_names Token AsyncClient) (get_room nio r name).
Proof. apply preserves_get_room; same_names_side. Qed.

Lemma same_names_get_room_names r : preserves (@same_names Token AsyncClient) (get_room_names r).
Proof. apply preserves_get_room_names; same_names_side. Qed.

Lemma same_names_get_room_from_id r rid :
  preserves (@same_names Token AsyncClient) (get_room_from_id nio r rid).
Proof. apply preserves_get_room_from_id; same_names_side. Qed.

Lemma same_names_sys_exit msg exit : preserves (@same_names Token AsyncClient) (sys_exit msg exit).
Proof. apply preserves_sys_exit; same_names_side. Qed.

Lemma same_names_logging msg : preserves (@same_names Token AsyncClient) (logging_error msg).
Proof. apply preserves_logging; same_names_side. Qed.

Lemma same_names_sync r : preserves (@same_names Token AsyncClient) (sync nio r).
Proof.
  apply preserves_sync with (ok := fun c => is_create c = false); same_names_side.
Qed.

Lemma same_names_bind_rooms r : preserves (@same_names Token AsyncClient) (modify r bind_rooms).
Proof. apply preserves_bind_rooms. same_names_side. Qed.

Lemma same_names_self_rooms r : preserves (@same_names Token AsyncClient) (self_rooms nio r).
Proof. apply preserves_self_rooms; same_names_side. Qed.

Lemma same_names_get_room_events fuel r room :
  preserves (@same_names Token AsyncClient) (get_room_events nio str_token fuel r room).
Proof.
  apply preserves_get_room_events with (ok := fun c => is_create c = false);
    same_names_side.
Qed.

Lemma same_names_send_events r room events :
  preserves (@same_names Token AsyncClient) (send_events nio r room events).
Proof.
  apply preserves_send_events with (ok := fun c => is_create c = false);
    same_names_side.
Qed.

Lemma created_once_NoDup new pending w :
  created_once new pending w -> NoDup (created_names (trace w)).
Proof. now intros [H _]. Qed.

Lemma about_to_create_NoDup new name w :
  about_to_create new name w -> NoDup (created_names (trace w)).
Proof. now intros [[H _] _]. Qed.

(** The request for a room named [name] and the later append to
    [room_names]. *)
Lemma created_once_request new name c' w :
  about_to_create new name w ->
  created_once new [name]
    (upd_inst new (set_client c') (add_trace (CallRoomCreate new name) w)).
Proof.
  intros [[Hnd Hin] (ns & Hns & Hnot)].
  assert (Hnames : names_at new (upd_inst new (set_client c')
                                   (add_trace (CallRoomCreate new name) w))
                   = names_at new w).
  { unfold names_at. now rewrite names_upd_inst. }
  unfold created_once. rewrite Hnames, trace_upd_inst, trace_add_trace.
  rewrite created_names_snoc. simpl. split.
  - apply NoDup_app. split; [assumption|]. split; [|apply NoDup_singleton].
    intros x Hx ->%list_elem_of_singleton. apply Hnot.
    specialize (Hin ns Hns name Hx). now rewrite app_nil_r in Hin.
  - intros ns' Hns' n [Hn | ->%list_elem_of_singleton]%elem_of_app;
      rewrite Hns in Hns'; injection Hns' as <-.
    + specialize (Hin ns Hns n Hn). rewrite app_nil_r in Hin.
      apply elem_of_app. now left.
    + apply elem_of_app. right. now apply list_elem_of_singleton.
Qed.

Lemma created_once_append new name w :
  created_once new [name] w ->
  created_once new [] (upd_inst new (append_room_name name) w).
Proof.
  intros [Hnd Hin]. unfold created_once. rewrite trace_upd_inst.
  split; [assumption|]. intros ns' Hns' n Hn. rewrite app_nil_r.
  destruct (names_at new w) as [ns|] eqn:Hns.
  - rewrite (names_at_append _ _ _ _ Hns) in Hns'. injection Hns' as <-. eauto.
  - assert (E : heap w !! new = None).
    { unfold names_at in Hns.
      change (map (@room_names AsyncClient))
        with (fmap (M := list) (@room_names AsyncClient)) in Hns.
      rewrite list_lookup_fmap in Hns. now destruct (heap w !! new). }
    unfold upd_inst in Hns'. rewrite E in Hns'. congruence.
Qed.

Ltac frame_step :=
  match goal with
  | H : ?P ?w |- wp (bind _ _) _ _ ?w =>
      apply wp_bind; apply (wp_preserves (@same_names Token AsyncClient) P)
  end;
  [ | assumption
    | first [ apply about_to_create_stable | apply created_once_stable ]
    | cbv beta; intros ? ? ?
    | cbv beta; intros ? ?;
      first [ eapply about_to_create_NoDup; eassumption
            | eapply created_once_NoDup; eassumption ] ].

Lemma create_room_once new name w :
  about_to_create new name w ->
  wp (create_room nio new name)
     (fun _ w' => created_once new [] w')
     (fun w' => NoDup (created_names (trace w'))) w.
Proof.
  intros H. unfold create_room.
  frame_step; [apply same_names_get_self|].
  frame_step.
  { destruct (old a); [apply same_names_get_room | apply preserves_raise, same_names_refl]. }
  frame_step; [apply same_names_get_client|].
  frame_step; [apply same_names_room_attr|].
  frame_step; [apply same_names_room_attr|].
  apply wp_bind. apply wp_await_client.
  { eapply about_to_create_NoDup; eassumption. }
  intros resp c'.
  match goal with
  | Hw : about_to_create new name ?w0
    |- wp _ _ _ (upd_inst _ _ (add_trace _ ?w0)) =>
      pose proof (created_once_request new name c' w0 Hw) as Hreq
  end.
  match goal with |- wp _ _ _ ?W => set (w1 := W) in *; clearbody w1 end.
  frame_step.
  { destruct resp.
    - destruct (verb a); [apply same_names_sys_exit | apply preserves_ret, same_names_refl].
    - apply preserves_bind; [same_names_side| |]; intros;
        [apply same_names_logging | apply same_names_sys_exit]. }
  frame_step; [apply same_names_sync|].
  frame_step; [apply same_names_bind_rooms|].
  apply wp_bind. unfold wp at 1, modify.
  match goal with
  | Hw : created_once new [name] ?w0 |- wp _ _ _ (upd_inst _ _ ?w0) =>
      pose proof (created_once_append new name w0 Hw) as Happ
  end.
  apply (wp_preserves (@same_names Token AsyncClient) (created_once new []));
    [ apply same_names_get_room | assumption | apply created_once_stable
    | auto | intros ? ?; eapply created_once_NoDup; eassumption ].
Qed.

Lemma resolve_room_once new name w :
  created_once new [] w ->
  wp (resolve_room nio new name)
     (fun _ w' => created_once new [] w')
     (fun w' => NoDup (created_names (trace w'))) w.
Proof.
  intros H. unfold resolve_room. apply wp_bind.
  unfold wp at 1, get_room_names, bind, get_self.
  destruct (heap w !! new) as [o|] eqn:Ho;
    [|eapply created_once_NoDup; eassumption].
  cbn [ret]. destruct (bool_decide (name ∈ room_names o)) eqn:Hin.
  - apply (wp_preserves (@same_names Token AsyncClient) (created_once new []));
      [ apply same_names_get_room | assumption | apply created_once_stable
      | auto | intros ? ?; eapply created_once_NoDup; eassumption ].
  - apply create_room_once. split; [assumption|].
    exists (room_names o). split; [now apply names_at_heap|].
    now apply bool_decide_eq_false in Hin.
Qed.

Lemma migrate_room_once fuel ol new room w :
  created_once new [] w ->
  wp (migrate_room nio str_token fuel ol new room)
     (fun _ w' => created_once new [] w')
     (fun w' => NoDup (created_names (trace w'))) w.
Proof.
  intros H. unfold migrate_room.
  frame_step; [apply same_names_get_room_from_id|].
  frame_step; [apply same_names_room_attr|].
  frame_step; [apply same_names_get_room_events|].
  destruct (0 <? length a1)%nat.
  - apply wp_bind.
    match goal with
    | Hw : created_once new [] ?w0 |- wp _ _ _ ?w0 =>
        pose proof (resolve_room_once new a0 w0 Hw) as Hres
    end.
    unfold wp in Hres |- *.
    destruct (resolve_room nio new a0 _) as [[rm | e |] w2]; try assumption.
    apply (wp_preserves (@same_names Token AsyncClient) (created_once new []));
      [ apply same_names_send_events | assumption | apply created_once_stable
      | auto | intros ? ?; eapply created_once_NoDup; eassumption ].
  - now apply wp_ret.
Qed.

Lemma main_loop_once fuel ol new size0 todo : forall pos w,
  created_once new [] w ->
  wp (main_loop nio str_token fuel ol new size0 pos todo)
     (fun _ w' => NoDup (created_names (trace w')))
     (fun w' => NoDup (created_names (trace w'))) w.
Proof.
  induction todo as [|todo IH]; intros pos w H; simpl.
  - unfold wp, out_of_fuel. eapply created_once_NoDup; eassumption.
  - frame_step; [apply same_names_self_rooms|].
    destruct (negb (length a =? size0)%nat).
    + unfold wp, raise. eapply created_once_NoDup; eassumption.
    + destruct (a !! pos) as [[room rm]|].
      * apply wp_bind.
        match goal with
        | Hw : created_once new [] ?w0 |- wp _ _ _ ?w0 =>
            pose proof (migrate_room_once fuel ol new room w0 Hw) as Hm
        end.
        unfold wp in Hm |- *.
        destruct (migrate_room nio str_token fuel ol new room _) as [[[] | e |] w2];
          try assumption.
        now apply IH.
      * unfold wp, ret. eapply created_once_NoDup; eassumption.
Qed.

Lemma no_creation_init srv v ol :
  preserves (@no_creation Token AsyncClient) (Matrix_Server__init__ srv v ol).
Proof. apply preserves_init. no_creation_side. Qed.

Lemma no_creation_login r : preserves (@no_creation Token AsyncClient) (login nio r).
Proof.
  apply preserves_login with (ok := fun c => is_create c = false); no_creation_side.
Qed.

Lemma no_creation_self_rooms r :
  preserves (@no_creation Token AsyncClient) (self_rooms nio r).
Proof. apply preserves_self_rooms; no_creation_side. Qed.

Lemma wp_snd {A} (m : M A) (Q : World -> Prop) w :
  wp m (fun _ => Q) Q w -> Q (snd (m w)).
Proof. unfold wp. now destruct (m w) as [[a | e |] w']. Qed.

Lemma main_creates_once fuel co cn v w :
  created_names (trace w) = [] ->
  NoDup (created_names (trace (snd (main nio str_token fuel co cn v w)))).
Proof.
  intros H. apply wp_snd. unfold main.
  pose (P := fun w0 : World => created_names (trace w0) = []).
  assert (HP : P w) by exact H.
  assert (Hst : forall w1 w2 : World, no_creation w1 w2 -> P w1 -> P w2).
  { unfold P, no_creation. congruence. }
  assert (Hnd : forall w0, P w0 -> NoDup (created_names (trace w0))).
  { unfold P. intros w0 ->. constructor. }
  assert (Hnil : forall w0, P w0 -> created_names (trace w0) = []) by auto.
  clearbody P. clear H.
  apply wp_bind.
  apply (wp_preserves (@no_creation Token AsyncClient) P);
    [apply no_creation_init | assumption | assumption | | auto].
  clear w HP. intros ol w HP. cbv beta. apply wp_bind.
  apply (wp_preserves (@no_creation Token AsyncClient) P);
    [apply no_creation_login | assumption | assumption | | auto].
  clear w HP. intros _ w HP. cbv beta. apply wp_bind.
  apply (wp_preserves (@no_creation Token AsyncClient) P);
    [apply no_creation_init | assumption | assumption | | auto].
  clear w HP. intros new w HP. cbv beta. apply wp_bind.
  apply (wp_preserves (@no_creation Token AsyncClient) P);
    [apply no_creation_login | assumption | assumption | | auto].
  clear w HP. intros _ w HP. cbv beta. apply wp_bind.
  apply (wp_preserves (@no_creation Token AsyncClient) P);
    [apply no_creation_self_rooms | assumption | assumption | | auto].
  clear w HP. intros rooms w HP. cbv beta. apply wp_bind.
  assert (Hinv : created_once new [] w).
  { split; [auto|]. intros ns _ n Hn. rewrite (Hnil _ HP) in Hn. inversion Hn. }
  pose proof (main_loop_once fuel ol new (length rooms) (S (length rooms)) 0%nat w Hinv)
    as Hloop.
  unfold wp in Hloop |- *.
  destruct (main_loop _ _ _ _ _ _ _ _ w) as [[[] | e |] w2]; assumption.
Qed.

Lemma get_room_pure r name w : snd (get_room nio r name w) = w.
Proof.
  symmetry. apply (preserves_get_room eq); congruence.
Qed.

Lemma resolve_room_known new name w o :
  heap w !! new = Some o -> name ∈ room_names o ->
  resolve_room nio new name w = get_room nio new name w.
Proof.
  intros Ho Hin. unfold resolve_room, get_room_names, bind at 1.
  unfold bind at 1. rewrite (get_self_eq _ _ _ Ho). cbn [ret].
  now rewrite bool_decide_eq_true_2.
Qed.

Lemma resolve_room_twice new name w dest w1 :
  resolve_room nio new name w = (Ret dest, w1) ->
  resolve_room nio new name w1 = (Ret dest, w1).
Proof.
  intros H. pose proof H as H0. unfold resolve_room in H.
  apply bind_Ret_inv in H as (names & w0 & Hnames & H).
  apply bind_Ret_inv in Hnames as (o & w0' & Ho & Hnames).
  apply get_self_inv in Ho as [Ho ->]. inversion Hnames; subst names w0.
  destruct (bool_decide (name ∈ room_names o)) eqn:Hin.
  - apply bool_decide_eq_true in Hin.
    pose proof (get_room_pure new name w) as Hp. rewrite H in Hp. simpl in Hp.
    now subst w1.
  - clear H0 Hin. unfold create_room in H.
    apply bind_Ret_inv in H as (self & wa & _ & H).
    apply bind_Ret_inv in H as (old_room & wb & _ & H).
    apply bind_Ret_inv in H as (c & wc & _ & H).
    apply bind_Ret_inv in H as (version & wd & _ & H).
    apply bind_Ret_inv in H as (topic_ & we & _ & H).
    apply bind_Ret_inv in H as (resp & wf & _ & H).
    apply bind_Ret_inv in H as (u1 & wg & _ & H).
    apply bind_Ret_inv in H as (u2 & wh & _ & H).
    apply bind_Ret_inv in H as (u3 & wi & _ & H).
    apply bind_Ret_inv in H as (u4 & wj & Happ & H).
    inversion Happ; subst wj; clear Happ.
    pose proof (get_room_pure new name (upd_inst new (append_room_name name) wi)) as Hp.
    rewrite H in Hp. simpl in Hp. subst w1.
    pose proof H as Hget. unfold get_room in Hget.
    apply bind_Ret_inv in Hget as (ob & wk & Hob & _).
    apply get_self_inv in Hob as [Hob _].
    assert (Hin : name ∈ room_names ob).
    { destruct (heap wi !! new) as [oa|] eqn:Hoa.
      - rewrite (heap_upd_inst_eq _ _ _ _ Hoa) in Hob. injection Hob as <-.
        simpl. apply elem_of_app. right. now apply list_elem_of_singleton.
      - unfold upd_inst in Hob. rewrite Hoa in Hob. congruence. }
    now rewrite (resolve_room_known _ _ _ _ Hob Hin).
Qed.


(** A later encounter, after the catalog has only grown: the room found
    for the name is still the first of that name, and nothing is created. *)
Lemma find_app_Some {A} (f : A -> bool) l l' x :
  find f l = Some x -> find f (l ++ l') = Some x.
Proof.
  induction l as [|a l IH]; simpl; [discriminate|]. now destruct (f a).
Qed.

Lemma resolve_room_reused_later new name w1 w1' w2 o1 o2 c1 c2 extra rm :
  get_room nio new name w1 = (Ret (Some rm), w1') ->
  heap w1 !! new = Some o1 -> client o1 = Some c1 ->
  heap w2 !! new = Some o2 -> client o2 = Some c2 -> rooms_bound o2 = true ->
  name ∈ room_names o2 ->
  nio_rooms nio c2 = (nio_rooms nio c1 ++ extra)%list ->
  resolve_room nio new name w2 = (Ret (Some rm), w2).
Proof.
  intros Hget H1 Hc1 H2 Hc2 Hb Hin Hrooms.
  rewrite (resolve_room_known _ _ _ _ H2 Hin).
  unfold get_room, bind in Hget |- *.
  rewrite (get_self_eq _ _ _ H1) in Hget. rewrite (get_self_eq _ _ _ H2).
  rewrite bool_decide_eq_true_2 by assumption.
  destruct (bool_decide (name ∈ room_names o1)); [|discriminate].
  unfold self_rooms, bind in Hget |- *.
  rewrite (get_self_eq _ _ _ H1) in Hget. rewrite (get_self_eq _ _ _ H2).
  rewrite Hb, Hc2. rewrite Hc1 in Hget.
  destruct (rooms_bound o1); [|discriminate].
  unfold ret in Hget |- *. inversion Hget as [[Hfind Hw]].
  rewrite Hrooms, map_app. now rewrite (find_app_Some _ _ _ _ Hfind), Hfind.
Qed.
(** C2.  Resolving the destination room for a display name a second
    time, in the world the first resolution ended in, gives the same room
    and changes nothing (so it creates nothing); and over a whole run of
    [main], whatever the servers answer and however the run ends, no
    display name is the subject of two room creations. *)
Theorem room_resolved_once new name w dest w1 fuel config_old config_new verbose :
  resolve_room nio new name w = (Ret dest, w1) ->
  resolve_room nio new name w1 = (Ret dest, w1) /\
  NoDup (created_names
           (trace (snd (main nio str_token fuel config_old config_new verbose
                             initial_world)))).
Proof.
  intros H. split.
  - now apply (resolve_room_twice new name w).
  - now apply (main_creates_once fuel config_old config_new verbose initial_world).
Qed.

(** *** Pagination *)

Lemma back_page_split (tl : list Event) p n :
  (n <= p)%nat -> (p <= length tl)%nat ->
  (firstn n (rev (firstn p tl)) ++ rev (firstn (p - n) tl))%list = rev (firstn p tl).
Proof.
  intros Hn Hp. rewrite <- (firstn_skipn n (rev (firstn p tl))) at 2.
  f_equal. rewrite skipn_rev, firstn_firstn, length_firstn.
  f_equal. f_equal. lia.
Qed.

Lemma front_page_split (tl : list Event) p n :
  (firstn n (skipn p tl) ++ skipn (p + n) tl)%list = skipn p tl.
Proof.
  rewrite <- (firstn_skipn n (skipn p tl)) at 2. f_equal.
  rewrite skipn_skipn. f_equal. lia.
Qed.

Lemma fetch_loop_page fuel r rm d t acc w o c chunk s e c' :
  heap w !! r = Some o -> client o = Some c ->
  nio_room_messages nio (room_id rm) t 1000 d c
  = (RoomMessagesResponse chunk s e, c') ->
  fetch_loop nio str_token (S fuel) r (Some rm) d t acc w
  = let w1 := upd_inst r (set_client c')
                (add_trace (CallRoomMessages r (room_id rm) t 1000 d) w) in
    if (length chunk =? 0)%nat then (Ret acc, w1)
    else fetch_loop nio str_token fuel r (Some rm) d e
           (acc ++ List.filter retained chunk) w1.
Proof.
  intros H Hc Hm. cbn [fetch_loop]. unfold bind at 1.
  rewrite (get_client_eq _ _ _ _ H Hc). unfold bind at 1. cbn [room_attr ret].
  unfold bind at 1. rewrite (await_client_eq _ _ _ _ _ _ _ _ H Hc Hm).
  cbv zeta. now destruct (length chunk =? 0)%nat.
Qed.

Lemma client_after_await r c' call w o :
  heap w !! r = Some o ->
  heap (upd_inst r (set_client c') (add_trace call w)) !! r = Some (set_client c' o).
Proof. intros H. now apply heap_upd_inst_eq. Qed.

Section Timeline.
Variables (rm : MatrixRoom) (tl : list Event) (pos : Token -> nat)
          (I : AsyncClient -> Prop).
Hypothesis server : paginates nio (room_id rm) tl pos I.

Lemma back_run fuel r : forall t acc w o c,
  heap w !! r = Some o -> client o = Some c -> I c ->
  (pos t <= length tl)%nat -> (pos t < fuel)%nat ->
  exists w' c',
    fetch_loop nio str_token fuel r (Some rm) back t acc w
    = (Ret (acc ++ List.filter retained (rev (firstn (pos t) tl)))%list, w') /\
    heap w' !! r = Some (set_client c' o) /\ I c'.
Proof.
  induction fuel as [|fuel IH]; intros t acc w o c H Hc HI Hle Hfuel; [lia|].
  destruct (pg_back _ _ _ _ _ server c t HI Hle)
    as (n & s & e & c' & Hm & Hn & Hpos & He & HI').
  rewrite (fetch_loop_page _ _ _ _ _ _ _ _ _ _ _ _ _ H Hc Hm). cbv zeta.
  pose proof (client_after_await r c'
                (CallRoomMessages r (room_id rm) t 1000 back) w o H) as H1.
  assert (Hlen : length (firstn n (rev (firstn (pos t) tl))) = n).
  { rewrite length_firstn, length_rev, length_firstn. lia. }
  rewrite Hlen. destruct n as [|n'].
  - assert (pos t = 0)%nat as -> by lia. simpl.
    exists (upd_inst r (set_client c')
              (add_trace (CallRoomMessages r (room_id rm) t 1000 back) w)), c'.
    rewrite app_nil_r. auto.
  - cbn [Nat.eqb].
    destruct (IH e (acc ++ List.filter retained
                      (firstn (S n') (rev (firstn (pos t) tl))))%list
                _ _ c' H1 eq_refl HI') as (w' & c'' & Hrun & Hheap & HI'');
      [lia | lia |].
    exists w', c''. rewrite Hrun. split; [|auto].
    rewrite <- app_assoc, <- List.filter_app, He.
    now rewrite back_page_split by lia.
Qed.

Lemma front_run fuel r : forall t acc w o c,
  heap w !! r = Some o -> client o = Some c -> I c ->
  (pos t <= length tl)%nat -> (length tl - pos t < fuel)%nat ->
  exists w' c',
    fetch_loop nio str_token fuel r (Some rm) front t acc w
    = (Ret (acc ++ List.filter retained (skipn (pos t) tl))%list, w') /\
    heap w' !! r = Some (set_client c' o) /\ I c'.
Proof.
  induction fuel as [|fuel IH]; intros t acc w o c H Hc HI Hle Hfuel; [lia|].
  destruct (pg_front _ _ _ _ _ server c t HI Hle)
    as (n & s & e & c' & Hm & Hn & Hpos & He & HI').
  rewrite (fetch_loop_page _ _ _ _ _ _ _ _ _ _ _ _ _ H Hc Hm). cbv zeta.
  pose proof (client_after_await r c'
                (CallRoomMessages r (room_id rm) t 1000 front) w o H) as H1.
  assert (Hlen : length (firstn n (skipn (pos t) tl)) = n).
  { rewrite length_firstn, length_skipn. lia. }
  rewrite Hlen. destruct n as [|n'].
  - assert (pos t = length tl)%nat as -> by lia. simpl.
    exists (upd_inst r (set_client c')
              (add_trace (CallRoomMessages r (room_id rm) t 1000 front) w)), c'.
    rewrite skipn_all, app_nil_r. auto.
  - cbn [Nat.eqb].
    destruct (IH e (acc ++ List.filter retained
                      (firstn (S n') (skipn (pos t) tl)))%list
                _ _ c' H1 eq_refl HI') as (w' & c'' & Hrun & Hheap & HI'');
      [lia | lia |].
    exists w', c''. rewrite Hrun. split; [|auto].
    rewrite <- app_assoc, <- List.filter_app, He.
    now rewrite front_page_split.
Qed.


Lemma fetch_room_events_of_loop fuel r t d w o evs w' :
  heap w !! r = Some o ->
  fetch_loop nio str_token fuel r (Some rm) d t [] w = (Ret evs, w') ->
  exists w'',
    fetch_room_events nio str_token fuel r t (Some rm) d w = (Ret evs, w'') /\
    heap w'' = heap w'.
Proof.
  intros H Hloop. unfold fetch_room_events, bind at 1.
  rewrite (get_self_eq _ _ _ H). unfold bind at 1. rewrite Hloop.
  destruct (verb o).
  - unfold bind at 1. unfold bind at 1. cbn [room_attr ret].
    rewrite sys_exit_false. eexists. split; reflexivity.
  - eexists. split; reflexivity.
Qed.

(** C1.  Against a server which paginates the timeline [tl] of the
    room, and given enough steps for the pages, [get_room_events]
    returns: its result is the run fetched backwards from the anchor of
    the sync, reversed, followed by the run fetched forwards from the
    same anchor.  The backward run is the retained events before the
    anchor, newest first, the forward run the retained events from the
    anchor on, so the result is the retained events of the timeline in
    timeline order.  If no event occurs twice in the timeline, none
    occurs twice in the result, and the result holds exactly the
    retained events of the timeline. *)
Theorem timeline_merged_once r fuel w o c :
  heap w !! r = Some o -> client o = Some c -> I c ->
  (length tl < fuel)%nat ->
  exists anchor w1 w2 w3 w',
    let back_run := List.filter retained (rev (firstn (pos anchor) tl)) in
    let front_run := List.filter retained (skipn (pos anchor) tl) in
    fetch_room_events nio str_token fuel r anchor (Some rm) back w1
    = (Ret back_run, w2) /\
    fetch_room_events nio str_token fuel r anchor (Some rm) front w2
    = (Ret front_run, w3) /\
    get_room_events nio str_token fuel r (Some rm) w
    = (Ret (rev back_run ++ front_run)%list, w') /\
    (rev back_run ++ front_run)%list = List.filter retained tl /\
    (List.NoDup tl ->
     List.NoDup (rev back_run ++ front_run)%list /\
     forall e, In e (rev back_run ++ front_run)%list
               <-> In e tl /\ retained e = true).
Proof.
  intros H Hc HI Hfuel.
  destruct (pg_sync _ _ _ _ _ server c HI) as (join & anchor & c1 & Hs & Hj & Hle & HI1).
  pose proof (client_after_await r c1 (CallSync r) w o H) as H1.
  set (w1 := upd_inst r (set_client c1) (add_trace (CallSync r) w)) in *.
  destruct (back_run fuel r anchor [] w1 _ c1 H1 eq_refl HI1 Hle)
    as (wb & c2 & Hback & Hb & HI2); [lia|].
  destruct (fetch_room_events_of_loop _ _ _ _ _ _ _ _ H1 Hback)
    as (w2 & Hfb & Hheap2).
  assert (H2 : heap w2 !! r = Some (set_client c2 o)) by (now rewrite Hheap2).
  destruct (front_run fuel r anchor [] w2 _ c2 H2 eq_refl HI2 Hle)
    as (wf & c3 & Hfront & Hf & HI3); [lia|].
  destruct (fetch_room_events_of_loop _ _ _ _ _ _ _ _ H2 Hfront)
    as (w3 & Hff & Hheap3).
  cbn [app] in Hfb, Hff.
  assert (Hmerge :
    (rev (List.filter retained (rev (firstn (pos anchor) tl)))
     ++ List.filter retained (skipn (pos anchor) tl))%list
    = List.filter retained tl).
  { rewrite <- List.filter_rev, rev_involutive, <- List.filter_app.
    now rewrite firstn_skipn. }
  assert (Hget : exists w',
    get_room_events nio str_token fuel r (Some rm) w
    = (Ret (rev (List.filter retained (rev (firstn (pos anchor) tl)))
            ++ List.filter retained (skipn (pos anchor) tl))%list, w')).
  { unfold get_room_events, bind at 1. rewrite (get_self_eq _ _ _ H).
    unfold bind at 1. rewrite (await_client_eq _ _ _ _ _ _ _ _ H Hc Hs).
    fold w1. unfold bind at 1. unfold bind at 1. cbn [room_attr ret].
    rewrite Hj. cbn [ret]. unfold bind at 1. rewrite Hfb.
    unfold bind at 1. rewrite Hff.
    destruct (verb o).
    - unfold bind at 1. unfold bind at 1. cbn [room_attr ret].
      rewrite sys_exit_false. eexists. reflexivity.
    - eexists. reflexivity. }
  destruct Hget as (w' & Hget).
  exists anchor, w1, w2, w3, w'. cbv zeta.
  do 4 (split; [assumption|]). intros Hnd. rewrite Hmerge. split.
  - now apply List.NoDup_filter.
  - intros e. apply List.filter_In.
Qed.
End Timeline.

End Properties.

(** * The properties on the sample servers *)

Section OnTheSample.

Lemma firstn_length_cap {A} (l : list A) k :
  firstn k l = firstn (Nat.min k (length l)) l.
Proof.
  rewrite <- (firstn_all l) at 1. rewrite firstn_firstn. reflexivity.
Qed.

Lemma dict_get_map {V W} (f : string -> W) rid (d : list (string * V)) v :
  dict_get rid d = Some v ->
  dict_get rid (map (fun kv => (fst kv, f (fst kv))) d) = Some (f rid).
Proof.
  induction d as [|[k x] d IH]; simpl; [discriminate|].
  destruct (String.eqb rid k) eqn:E; [|assumption].
  apply String.eqb_eq in E. now subst.
Qed.

(** The homeserver honours the pagination contract for every room the
    account has joined, as long as no operation is made to fail. *)
Lemma homeserver_paginates net rid (c0 : Homeserver.Client) rm :
  Homeserver.faults c0 = [] ->
  dict_get rid (Homeserver.joined c0) = Some rm ->
  paginates (Homeserver.nio net) rid (Homeserver.timeline_of rid c0) (fun t => t)
    (fun c => Homeserver.timelines c = Homeserver.timelines c0 /\
              Homeserver.joined c = Homeserver.joined c0 /\
              Homeserver.faults c = []).
Proof.
  intros Hf Hj. set (tl := Homeserver.timeline_of rid c0).
  assert (Htl : forall c, Homeserver.timelines c = Homeserver.timelines c0 ->
                          Homeserver.timeline_of rid c = tl).
  { intros c E. unfold tl, Homeserver.timeline_of. now rewrite E. }
  split.
  - intros c (Et & Ej & Ef).
    eexists _, _, _. simpl. unfold Homeserver.sync, Homeserver.fails.
    rewrite Ef. simpl. split; [reflexivity|]. rewrite Ej. split.
    + apply (dict_get_map
               (fun k => Nat.pred (length (Homeserver.timeline_of k c))) _ _ _ Hj).
    + rewrite (Htl c Et). split; [lia | auto].
  - intros c t (Et & Ej & Ef) Hle.
    assert (HK : (0 < Z.to_nat 1000)%nat) by lia.
    exists (Nat.min (Z.to_nat 1000) t), t, (t - Nat.min (Z.to_nat 1000) t)%nat, c.
    cbn [nio_room_messages Homeserver.nio].
    unfold Homeserver.room_messages, Homeserver.fails.
    rewrite Ef, (Htl c Et). generalize dependent (Z.to_nat 1000). intros K HK.
    cbn [bool_decide decide_rel].
    assert (Hlen : length (rev (firstn t tl)) = t).
    { rewrite length_rev, length_firstn. lia. }
    assert (Hcap : firstn K (rev (firstn t tl))
                   = firstn (Nat.min K t) (rev (firstn t tl))).
    { now rewrite firstn_length_cap, Hlen. }
    rewrite Hcap. split.
    + do 2 f_equal. rewrite length_firstn, Hlen. lia.
    + repeat split; auto; lia.
  - intros c t (Et & Ej & Ef) Hle.
    assert (HK : (0 < Z.to_nat 1000)%nat) by lia.
    exists (Nat.min (Z.to_nat 1000) (length tl - t)), t,
           (t + Nat.min (Z.to_nat 1000) (length tl - t))%nat, c.
    cbn [nio_room_messages Homeserver.nio].
    unfold Homeserver.room_messages, Homeserver.fails.
    rewrite Ef, (Htl c Et). generalize dependent (Z.to_nat 1000). intros K HK.
    cbn [bool_decide decide_rel].
    assert (Hlen : length (skipn t tl) = (length tl - t)%nat)
      by apply length_skipn.
    assert (Hcap : firstn K (skipn t tl)
                   = firstn (Nat.min K (length tl - t)) (skipn t tl)).
    { now rewrite firstn_length_cap, Hlen. }
    rewrite Hcap. split.
    + do 2 f_equal. rewrite length_firstn, Hlen. lia.
    + repeat split; auto; lia.
Qed.

Import Sample.

Lemma timeline_merged_once_witness :
  exists anchor w1 w2 w3 w',
    let back_run := List.filter retained (rev (firstn anchor notes_timeline)) in
    let front_run := List.filter retained (skipn anchor notes_timeline) in
    fetch_room_events nio0 str_nat 10 0 anchor (Some notes) back w1
    = (Ret back_run, w2) /\
    fetch_room_events nio0 str_nat 10 0 anchor (Some notes) front w2
    = (Ret front_run, w3) /\
    get_room_events nio0 str_nat 10 0 (Some notes) (logged_in [] [] false)
    = (Ret (rev back_run ++ front_run)%list, w') /\
    (rev back_run ++ front_run)%list = List.filter retained notes_timeline /\
    (List.NoDup notes_timeline ->
     List.NoDup (rev back_run ++ front_run)%list /\
     forall e, In e (rev back_run ++ front_run)%list
               <-> In e notes_timeline /\ retained e = true).
Proof.
  apply (timeline_merged_once nio0 str_nat notes notes_timeline (fun t => t) _
           (homeserver_paginates (net [] []) "!notes:old"
              (synced [] (old_server [])) notes eq_refl eq_refl)
           0%nat 10%nat (logged_in [] [] false)
           (session config_old None ["notes"] (synced [] (old_server [])) false)
           (synced [] (old_server [])) eq_refl eq_refl).
  - repeat split.
  - simpl. lia.
Defined.

Lemma room_resolved_once_witness :
  resolve_room nio0 1 "notes" (logged_in [] [] false)
  = (Ret (Some room0), after_resolve) /\
  resolve_room nio0 1 "notes" after_resolve = (Ret (Some room0), after_resolve) /\
  NoDup (created_names
           (trace (snd (main nio0 str_nat 10 config_old config_new false
                             initial_world)))).
Proof.
  assert (H : resolve_room nio0 1 "notes" (logged_in [] [] false)
              = (Ret (Some room0), after_resolve)) by (vm_compute; reflexivity).
  split; [exact H|].
  exact (room_resolved_once nio0 str_nat 1%nat "notes" (logged_in [] [] false)
           (Some room0) after_resolve 10%nat config_old config_new false H).
Defined.

Lemma fetched_classes_and_redacted_witness :
  get_room_events nio0 str_nat 10 0 (Some notes) (logged_in [] [] false)
  = (Ret fetched, after_fetch) /\
  (forall e, In e fetched ->
     issubclass (ev_class e) RoomMessageFormatted = true \/
     issubclass (ev_class e) RoomMessageMedia = true \/
     issubclass (ev_class e) RedactedEvent = true \/
     issubclass (ev_class e) RoomEncryptedMedia = true) /\
  (forall e, isinstance e [RedactedEvent] = true ->
     isinstance e fetch_classes = true /\ isinstance e send_classes = false) /\
  (forall r' room' w0,
     send_loop nio0 r' room' fetched w0
     = send_loop nio0 r' room'
         (List.filter (fun e => negb (isinstance e [RedactedEvent])) fetched) w0).
Proof.
  assert (H : get_room_events nio0 str_nat 10 0 (Some notes) (logged_in [] [] false)
              = (Ret fetched, after_fetch)) by (vm_compute; reflexivity).
  split; [exact H|].
  exact (fetched_classes_and_redacted nio0 str_nat 10%nat 0%nat (Some notes)
           (logged_in [] [] false) fetched after_fetch H).
Defined.

Lemma page_error_raises_witness :
  fst (fetch_loop nio0 str_nat 10 0 (Some notes) back 5%nat [text "$5" "world"]
         (logged_in [Homeserver.FailMessages] [] false))
  = Raise (AttributeError "'RoomMessagesError' object has no attribute 'chunk'") /\
  fst (fetch_room_events nio0 str_nat 10 0 5%nat (Some notes) back
         (logged_in [Homeserver.FailMessages] [] false))
  = Raise (AttributeError "'RoomMessagesError' object has no attribute 'chunk'") /\
  log (snd (fetch_room_events nio0 str_nat 10 0 5%nat (Some notes) back
              (logged_in [Homeserver.FailMessages] [] false)))
  = ([] ++ [(ERROR, ("Failed to get messages for room " ++ display_name notes
                     ++ " @ start_token " ++ str_nat 5)%string)])%list.
Proof.
  eapply (page_error_raises nio0 str_nat 9%nat 0%nat notes back 5%nat
            [text "$5" "world"] (logged_in [Homeserver.FailMessages] [] false));
    reflexivity.
Defined.

Lemma failed_download_raises_witness :
  fst (download_mxc nio0 (Some 0%nat) (ev_url cat)
         (logged_in [Homeserver.FailDownload] [] false))
  = Ret (TheBytes []) /\
  fst (post_event nio0 1 (Some room0) cat (logged_in [Homeserver.FailDownload] [] false))
  = Raise (AttributeError "'bytes' object has no attribute 'body'") /\
  trace (snd (post_event nio0 1 (Some room0) cat
                (logged_in [Homeserver.FailDownload] [] false)))
  = ([] ++ [CallDownload 0%nat (ev_url cat)])%list.
Proof.
  eapply (failed_download_raises nio0 1%nat (Some room0) cat
            (logged_in [Homeserver.FailDownload] [] false));
    reflexivity.
Defined.

Lemma relayed_size_is_downloaded_size_witness :
  post_event nio0 1 (Some room0) cat (logged_in [] [] false) = (Ret tt, after_post) /\
  exists o ro oo co co' body mime name uri rid mt,
    heap (logged_in [] [] false) !! 1%nat = Some o /\ old o = Some ro /\
    heap (logged_in [] [] false) !! ro = Some oo /\ client oo = Some co /\
    nio_download nio0 (ev_url cat) co = (DownloadResponse body mime name, co') /\
    trace after_post
    = (trace (logged_in [] [] false) ++
       [CallDownload ro (ev_url cat);
        CallUpload 1%nat body mime name (length body);
        CallRoomSend 1%nat rid "m.room.message"
          (MediaContent name (length body) mime uri mt)])%list.
Proof.
  assert (H : post_event nio0 1 (Some room0) cat (logged_in [] [] false)
              = (Ret tt, after_post)) by (vm_compute; reflexivity).
  split; [exact H|].
  exact (relayed_size_is_downloaded_size nio0 1%nat (Some room0) cat
           (logged_in [] [] false) after_post eq_refl H).
Defined.

Lemma sync_error_raises_witness :
  fst (sync nio0 0 (logged_in [Homeserver.FailSync] [] false))
  = Raise (TypeError "'module' object is not callable") /\
  log (snd (sync nio0 0 (logged_in [Homeserver.FailSync] [] false)))
  = log (logged_in [Homeserver.FailSync] [] false) /\
  stderr (snd (sync nio0 0 (logged_in [Homeserver.FailSync] [] false)))
  = stderr (logged_in [Homeserver.FailSync] [] false).
Proof.
  eapply (sync_error_raises nio0 0%nat (logged_in [Homeserver.FailSync] [] false));
    reflexivity.
Defined.


(** The whole script on the sample servers. *)
Example run_posts_text_and_image :
  fst (run [] [] false) = Ret tt /\
  (Homeserver.posted <$> (heap (snd (run [] [] false)) !! 1%nat ≫= client))
  = Some [("!room0", TextContent "hello" "m.text");
          ("!room0", MediaContent (Some "cat.png") 5 "image/png" "mxc://new/0" "m.image");
          ("!room0", TextContent "world" "m.text")].
Proof. vm_compute. split; reflexivity. Qed.

Example run_leaves_sessions_open :
  (Homeserver.logged_in <$> (heap (snd (run [] [] false)) !! 0%nat ≫= client))
  = Some true /\
  (Homeserver.logged_in <$> (heap (snd (run [] [] false)) !! 1%nat ≫= client))
  = Some true.
Proof. vm_compute. split; reflexivity. Qed.

Example run_aborts_on_sync_error :
  fst (run [Homeserver.FailSync] [] false)
  = Raise (TypeError "'module' object is not callable").
Proof. vm_compute. reflexivity. Qed.

Example run_aborts_on_page_error :
  fst (run [Homeserver.FailMessages] [] false)
  = Raise (AttributeError "'RoomMessagesError' object has no attribute 'chunk'").
Proof. vm_compute. reflexivity. Qed.

Example run_aborts_on_failed_download :
  fst (run [Homeserver.FailDownload] [] false)
  = Raise (AttributeError "'bytes' object has no attribute 'body'").
Proof. vm_compute. reflexivity. Qed.

Example run_gives_both_sessions_one_device :
  (device <$> heap (snd (run [] [] false)) !! 0%nat) = Some "migrate_server_1" /\
  (device <$> heap (snd (run [] [] false)) !! 1%nat) = Some "migrate_server_1".
Proof. vm_compute. split; reflexivity. Qed.

End OnTheSample.

(** * Further properties of the sessions *)

Section Sessions.
Context {Token AsyncClient : Type}.
Context (nio : Nio Token AsyncClient) (str_token : Token -> string).

Abbreviation World := (World Token AsyncClient).
Abbreviation Matrix_Server := (Matrix_Server AsyncClient).
Abbreviation M := (M Token AsyncClient).

Implicit Types (w : World) (r : ref) (o : Matrix_Server).

Lemma stderr_upd_inst r f w : stderr (upd_inst r f w) = stderr w.
Proof. unfold upd_inst. now destruct (heap w !! r). Qed.

Lemma log_add_trace (c : NetCall Token) w : log (add_trace c w) = log w.
Proof. reflexivity. Qed.

Lemma log_add_stderr msg w : log (add_stderr msg w) = log w.
Proof. reflexivity. Qed.

Lemma log_add_log msg w : log (add_log msg w) = (log w ++ [(ERROR, msg)])%list.
Proof. reflexivity. Qed.

Ltac world_simpl :=
  repeat first [ rewrite trace_upd_inst | rewrite trace_add_trace
               | rewrite trace_add_log | rewrite trace_add_stderr
               | rewrite log_upd_inst | rewrite log_add_trace
               | rewrite log_add_stderr | rewrite log_add_log ].

Lemma heap_add_trace (c : NetCall Token) w : heap (add_trace c w) = heap w.
Proof. reflexivity. Qed.

Lemma client_set_client (c : AsyncClient) o : client (set_client c o) = Some c.
Proof. reflexivity. Qed.

(** *** login *)

(** The first steps of [login]: the client is created, the credential
    is presented, and the rest runs in the world after the answer. *)
Lemma login_run r w o resp c1 :
  heap w !! r = Some o ->
  nio_login nio (credential_of (ms_server o)) (fresh_client nio o) = (resp, c1) ->
  login nio r w
  = bind (when (verb o)
            (sys_exit ("Logged into server " ++ server (ms_server o)) false))
      (fun _ =>
         match resp with
         | LoginResponse =>
             bind (sync nio r) (fun _ =>
             bind (modify r bind_rooms) (fun _ =>
             bind (self_rooms nio r) (fun rooms =>
               fold_left
                 (fun acc kv =>
                    bind acc (fun _ => modify r (append_room_name
                                                   (display_name (snd kv)))))
                 rooms (ret tt))))
         | LoginError _ =>
             bind (logging_error (str_LoginResp resp)) (fun _ =>
               sys_exit ("Cannot log into " ++ server (ms_server o) ++ ", aborting")
                        true)
         end)
      (upd_inst r (set_client c1)
         (add_trace (CallLogin r (credential_of (ms_server o)))
            (upd_inst r (set_client (fresh_client nio o)) w))).
Proof.
  intros H Hl. unfold login, bind at 1. rewrite (get_self_eq _ _ _ H).
  unfold bind at 1. cbn [modify].
  pose proof (heap_upd_inst_eq r (set_client (fresh_client nio o)) w o H) as H1.
  fold (fresh_client nio o).
  set (w1 := upd_inst r (set_client (fresh_client nio o)) w) in *.
  unfold bind at 1.
  assert (Hawait :
    (if (0 <? String.length (password (ms_server o)))%nat
     then await_client r (CallLogin r (ByPassword (password (ms_server o))))
            (nio_login nio (ByPassword (password (ms_server o))))
     else await_client r (CallLogin r (ByToken (token (ms_server o))))
            (nio_login nio (ByToken (token (ms_server o))))) w1
    = (Ret resp, upd_inst r (set_client c1)
                   (add_trace (CallLogin r (credential_of (ms_server o))) w1))).
  { unfold credential_of in *.
    destruct (0 <? String.length (password (ms_server o)))%nat;
      now rewrite (await_client_eq _ _ _ _ _ _ _ _ H1 eq_refl Hl). }
  rewrite Hawait. reflexivity.
Qed.
Ltac nl_side :=
  intros;
  first [ reflexivity
        | apply no_logout_refl
        | eapply no_logout_trans; eassumption
        | apply no_logout_call; assumption
        | apply no_logout_same_trace; now world_simpl ].

Lemma login_rest_extends r o resp :
  preserves (@no_logout Token AsyncClient)
    (bind (when (verb o)
             (sys_exit ("Logged into server " ++ server (ms_server o)) false))
       (fun _ =>
          match resp with
          | LoginResponse =>
              bind (sync nio r) (fun _ =>
              bind (modify r bind_rooms) (fun _ =>
              bind (self_rooms nio r) (fun rooms =>
                fold_left
                  (fun acc kv =>
                     bind acc (fun _ => modify r (append_room_name
                                                    (display_name (snd kv)))))
                  rooms (ret tt))))
          | LoginError _ =>
              bind (logging_error (str_LoginResp resp)) (fun _ =>
                sys_exit ("Cannot log into " ++ server (ms_server o) ++ ", aborting")
                         true)
          end)).
Proof.
  apply preserves_bind; [nl_side | |].
  - destruct (verb o); [apply preserves_sys_exit | apply preserves_ret]; nl_side.
  - intros _. destruct resp.
    + apply preserves_bind; [nl_side | |].
      * apply preserves_sync with (ok := fun c => is_logout c = false); nl_side.
      * intros _. apply preserves_bind; [nl_side | |].
        { apply preserves_bind_rooms; nl_side. }
        intros _. apply preserves_bind; [nl_side | |].
        { apply preserves_self_rooms; nl_side. }
        intros rooms. apply preserves_login_names; [nl_side | nl_side |].
        apply preserves_ret; nl_side.
    + apply preserves_bind; [nl_side | |].
      * apply preserves_logging; nl_side.
      * intros _. apply preserves_sys_exit; nl_side.
Qed.

(** X1.  [login] presents the password whenever it is not empty, and the
    token only otherwise: the first network operation of [login] is the
    login request with that credential. *)
Theorem login_prefers_password r w o :
  heap w !! r = Some o ->
  exists tr,
    trace (snd (login nio r w))
    = (trace w ++ CallLogin r (credential_of (ms_server o)) :: tr)%list /\
    (password (ms_server o) <> ""%string ->
     credential_of (ms_server o) = ByPassword (password (ms_server o))) /\
    (password (ms_server o) = ""%string ->
     credential_of (ms_server o) = ByToken (token (ms_server o))).
Proof.
  intros H.
  destruct (nio_login nio (credential_of (ms_server o)) (fresh_client nio o))
    as [resp c1] eqn:Hl.
  rewrite (login_run _ _ _ _ _ H Hl).
  destruct (login_rest_extends r o resp
              (upd_inst r (set_client c1)
                 (add_trace (CallLogin r (credential_of (ms_server o)))
                    (upd_inst r (set_client (fresh_client nio o)) w))))
    as (tr & Htr & _).
  exists tr. split; [|split].
  - rewrite Htr. world_simpl. now rewrite <- app_assoc.
  - intros Hp. unfold credential_of.
    destruct (password (ms_server o)); [congruence | reflexivity].
  - intros Hp. unfold credential_of. now rewrite Hp.
Qed.

(** X2.  When the server refuses the login, [login] ends the process
    with status -1: the response and the abort message are logged (after
    the "Logged into server" line when verbosity is on, which is written
    before the response is looked at), no sync is requested and the
    session records no room name. *)
Theorem login_refused_exits r w o msg c1 :
  heap w !! r = Some o ->
  nio_login nio (credential_of (ms_server o)) (fresh_client nio o)
  = (LoginError msg, c1) ->
  fst (login nio r w) = Raise (SystemExit (-1)) /\
  trace (snd (login nio r w))
  = (trace w ++ [CallLogin r (credential_of (ms_server o))])%list /\
  log (snd (login nio r w))
  = (log w
     ++ (if verb o
         then [(ERROR, ("Logged into server " ++ server (ms_server o))%string)]
         else [])
     ++ [(ERROR, ("LoginError: " ++ msg)%string);
         (ERROR, ("Cannot log into " ++ server (ms_server o) ++ ", aborting")%string)])%list /\
  names_at r (snd (login nio r w)) = names_at r w.
Proof.
  intros H Hl. rewrite (login_run _ _ _ _ _ H Hl).
  set (w2 := upd_inst r (set_client c1)
               (add_trace (CallLogin r (credential_of (ms_server o)))
                  (upd_inst r (set_client (fresh_client nio o)) w))).
  assert (Hn : names_at r w2 = names_at r w).
  { unfold names_at, w2. rewrite names_upd_inst by reflexivity.
    rewrite heap_add_trace. now rewrite names_upd_inst by reflexivity. }
  assert (Ht : trace w2 = (trace w ++ [CallLogin r (credential_of (ms_server o))])%list).
  { unfold w2. now world_simpl. }
  assert (Hlog : log w2 = log w).
  { unfold w2. now world_simpl. }
  clearbody w2.
  destruct (verb o); cbn; rewrite Ht, Hlog; repeat split; try assumption;
    now rewrite <- ?app_assoc.
Qed.

Lemma sync_ok r w o c join c' :
  heap w !! r = Some o -> client o = Some c ->
  nio_sync nio (Some 30000) c = (SyncResponse join, c') ->
  sync nio r w = (Ret tt, upd_inst r (set_client c') (add_trace (CallSync r) w)).
Proof.
  intros H Hc Hs. unfold sync, bind.
  now rewrite (await_client_eq _ _ _ _ _ _ _ _ H Hc Hs).
Qed.

Lemma login_names_run r (rooms : list (string * MatrixRoom)) :
  forall (acc : M unit) w w1 o1,
    acc w = (Ret tt, w1) -> heap w1 !! r = Some o1 ->
    exists w2 o2,
      fold_left
        (fun acc kv =>
           bind acc (fun _ => modify r (append_room_name (display_name (snd kv)))))
        rooms acc w = (Ret tt, w2) /\
      heap w2 !! r = Some o2 /\
      room_names o2
      = (room_names o1 ++ map (fun kv => display_name (snd kv)) rooms)%list /\
      client o2 = client o1 /\ rooms_bound o2 = rooms_bound o1 /\
      trace w2 = trace w1 /\ log w2 = log w1.
Proof.
  induction rooms as [|kv rooms IH]; intros acc w w1 o1 Hacc H1; simpl.
  - exists w1, o1. rewrite app_nil_r. auto 10.
  - destruct (IH (bind acc (fun _ => modify r (append_room_name (display_name (snd kv)))))
                w (upd_inst r (append_room_name (display_name (snd kv))) w1)
                (append_room_name (display_name (snd kv)) o1))
      as (w2 & o2 & Hrun & H2 & Hn & Hc & Hb & Ht & Hl).
    + unfold bind. now rewrite Hacc.
    + now apply heap_upd_inst_eq.
    + exists w2, o2. rewrite Hrun, Hn, Hc, Hb, Ht, Hl. cbn [room_names append_room_name
        client rooms_bound]. rewrite <- app_assoc. world_simpl. auto 10.
Qed.

Lemma first_named_found (catalog : list (string * MatrixRoom)) rm :
  In rm (map snd catalog) ->
  exists found, first_named (display_name rm) catalog = Some found /\
                display_name found = display_name rm.
Proof.
  intros Hin. unfold first_named.
  destruct (find (fun x => String.eqb (display_name x) (display_name rm))
              (map snd catalog)) as [found|] eqn:Hf.
  - exists found. split; [reflexivity|].
    apply List.find_some in Hf as [_ Hf]. now apply String.eqb_eq in Hf.
  - pose proof (List.find_none _ _ Hf rm Hin) as Hno. cbv beta in Hno.
    now rewrite String.eqb_refl in Hno.
Qed.

Lemma get_room_eq r name w o c :
  heap w !! r = Some o -> name ∈ room_names o ->
  rooms_bound o = true -> client o = Some c ->
  get_room nio r name w = (Ret (first_named name (nio_rooms nio c)), w).
Proof.
  intros H Hin Hb Hc. unfold get_room, bind. rewrite (get_self_eq _ _ _ H).
  rewrite bool_decide_eq_true_2 by assumption.
  unfold self_rooms, bind. rewrite (get_self_eq _ _ _ H). now rewrite Hb, Hc.
Qed.

(** X3.  A login the server accepts, followed by a sync that succeeds,
    returns with the session's catalog bound to the client's rooms and the
    display name of every room of the catalog appended to [room_names], in
    catalog order; from then on every room of the catalog is found by its
    display name. *)
Theorem login_records_rooms r w o c1 join c2 :
  heap w !! r = Some o ->
  nio_login nio (credential_of (ms_server o)) (fresh_client nio o)
  = (LoginResponse, c1) ->
  nio_sync nio (Some 30000) c1 = (SyncResponse join, c2) ->
  exists w' o',
    login nio r w = (Ret tt, w') /\
    heap w' !! r = Some o' /\ client o' = Some c2 /\ rooms_bound o' = true /\
    room_names o'
    = (room_names o ++ map (fun kv => display_name (snd kv)) (nio_rooms nio c2))%list /\
    trace w'
    = (trace w ++ [CallLogin r (credential_of (ms_server o)); CallSync r])%list /\
    forall rm, In rm (map snd (nio_rooms nio c2)) ->
      exists found, get_room nio r (display_name rm) w' = (Ret (Some found), w') /\
                    display_name found = display_name rm.
Proof.
  intros H Hl Hs. rewrite (login_run _ _ _ _ _ H Hl).
  set (w2 := upd_inst r (set_client c1)
               (add_trace (CallLogin r (credential_of (ms_server o)))
                  (upd_inst r (set_client (fresh_client nio o)) w))).
  assert (H2 : heap w2 !! r = Some (set_client c1 o)).
  { unfold w2.
    rewrite (heap_upd_inst_eq r (set_client c1) _ (set_client (fresh_client nio o) o));
      [reflexivity|].
    rewrite heap_add_trace. now apply heap_upd_inst_eq. }
  assert (Ht2 : trace w2 = (trace w ++ [CallLogin r (credential_of (ms_server o))])%list).
  { unfold w2. now world_simpl. }
  clearbody w2.
  assert (Hverb : exists w3,
    when (verb o) (sys_exit ("Logged into server " ++ server (ms_server o)) false) w2
    = (Ret tt, w3) /\ heap w3 = heap w2 /\ trace w3 = trace w2).
  { destruct (verb o); eexists; (split; [reflexivity | split; reflexivity]). }
  destruct Hverb as (w3 & Hv & Hh3 & Ht3).
  unfold bind at 1. rewrite Hv.
  assert (H3 : heap w3 !! r = Some (set_client c1 o)) by (now rewrite Hh3).
  unfold bind at 1. rewrite (sync_ok _ _ _ _ _ _ H3 eq_refl Hs).
  set (w4 := upd_inst r (set_client c2) (add_trace (CallSync r) w3)).
  assert (H4 : heap w4 !! r = Some (set_client c2 o)).
  { unfold w4. rewrite (heap_upd_inst_eq r (set_client c2) _ (set_client c1 o));
      [reflexivity|]. exact H3. }
  assert (Ht4 : trace w4 = (trace w3 ++ [CallSync r])%list).
  { unfold w4. now world_simpl. }
  clearbody w4.
  unfold bind at 1. cbn [modify].
  pose proof (heap_upd_inst_eq r bind_rooms w4 _ H4) as H5.
  assert (Ht5 : trace (upd_inst r bind_rooms w4) = trace w4) by apply trace_upd_inst.
  set (w5 := upd_inst r bind_rooms w4) in *. clearbody w5.
  unfold bind at 1, self_rooms at 1, bind at 1.
  rewrite (get_self_eq _ _ _ H5). cbn [rooms_bound bind_rooms client set_client ret].
  destruct (login_names_run r (nio_rooms nio c2) (ret tt) w5 w5 _ eq_refl H5)
    as (w6 & o6 & Hrun & H6 & Hn & Hc & Hb & Ht6 & _).
  exists w6, o6. rewrite Hrun. cbn in Hn, Hc, Hb.
  split; [reflexivity|]. split; [assumption|]. split; [assumption|].
  split; [assumption|]. split; [assumption|]. split.
  - rewrite Ht6, Ht5, Ht4, Ht3, Ht2. now rewrite <- app_assoc.
  - intros rm Hin.
    destruct (first_named_found _ _ Hin) as (found & Hfound & Hname).
    exists found. split; [|assumption].
    rewrite (get_room_eq r (display_name rm) w6 o6 c2 H6); [now rewrite Hfound| |assumption..].
    rewrite Hn. apply elem_of_app. right.
    apply list_elem_of_In. apply List.in_map_iff in Hin as (kv & <- & Hkv).
    apply List.in_map_iff. eauto.
Qed.

(** *** logout *)

(** X4.  An awaited [logout] the server answers with an error is not
    fatal: it returns, the failure is written to the log at error level and
    not to the error stream; with verbosity on, the line "Logged out of
    server" is written all the same. *)
Theorem logout_error_is_logged r w o c msg c' :
  heap w !! r = Some o -> client o = Some c ->
  nio_logout nio c = (LogoutError msg, c') ->
  let said := ("Logged out of server " ++ server (ms_server o))%string in
  fst (logout nio r w) = Ret tt /\
  trace (snd (logout nio r w)) = (trace w ++ [CallLogout r])%list /\
  log (snd (logout nio r w))
  = (log w
     ++ [(ERROR, ("Logging out from " ++ server (ms_server o)
                  ++ " failed with LogoutError: " ++ msg)%string)]
     ++ (if verb o then [(ERROR, said)] else []))%list /\
  stderr (snd (logout nio r w))
  = (stderr w ++ (if verb o then [said] else []))%list.
Proof.
  intros H Hc Hl said. subst said.
  assert (Hrun : logout nio r w
    = bind (logging_error ("Logging out from " ++ server (ms_server o)
                           ++ " failed with LogoutError: " ++ msg))
        (fun _ => when (verb o)
                    (sys_exit ("Logged out of server " ++ server (ms_server o)) false))
        (upd_inst r (set_client c') (add_trace (CallLogout r) w))).
  { unfold logout, bind at 1. rewrite (get_self_eq _ _ _ H). unfold bind at 1.
    now rewrite (await_client_eq _ _ _ _ _ _ _ _ H Hc Hl). }
  rewrite Hrun.
  destruct (verb o); cbn; world_simpl; rewrite ?stderr_upd_inst, ?app_nil_r;
    repeat split; now rewrite <- ?app_assoc.
Qed.

(** *** get_room *)

Lemma find_first {A} (f : A -> bool) l x :
  find f l = Some x ->
  exists l1 l2, l = (l1 ++ x :: l2)%list /\ f x = true /\
                Forall (fun y => f y = false) l1.
Proof.
  induction l as [|a l IH]; simpl; [discriminate|].
  destruct (f a) eqn:Ha.
  - intros [= ->]. exists [], l. auto.
  - intros Hf. destruct (IH Hf) as (l1 & l2 & -> & Hx & Hall).
    exists (a :: l1), l2. auto.
Qed.

(** X5.  A room returned by [get_room] carries the requested display
    name, belongs to the catalog, and is the first such room in catalog
    order; the name is one the session has recorded, and the lookup
    changes nothing. *)
Theorem get_room_finds_first r name w rm w' :
  get_room nio r name w = (Ret (Some rm), w') ->
  w' = w /\ display_name rm = name /\
  exists o c before after,
    heap w !! r = Some o /\ name ∈ room_names o /\ client o = Some c /\
    map snd (nio_rooms nio c) = (before ++ rm :: after)%list /\
    Forall (fun x => display_name x <> name) before.
Proof.
  intros Hget. pose proof (get_room_pure nio r name w) as Hp.
  rewrite Hget in Hp. simpl in Hp. subst w'. split; [reflexivity|].
  unfold get_room in Hget.
  apply bind_Ret_inv in Hget as (o & w0 & Ho & Hget).
  apply get_self_inv in Ho as [Ho ->].
  destruct (bool_decide (name ∈ room_names o)) eqn:Hin; [|discriminate].
  apply bool_decide_eq_true in Hin.
  apply bind_Ret_inv in Hget as (rooms & w1 & Hrooms & Hget).
  unfold self_rooms in Hrooms.
  apply bind_Ret_inv in Hrooms as (o' & w2 & Ho' & Hrooms).
  apply get_self_inv in Ho' as [Ho' ->].
  assert (o' = o) as -> by congruence.
  destruct (rooms_bound o); [|discriminate].
  destruct (client o) as [c|] eqn:Hc; [|discriminate].
  inversion Hrooms; subst rooms w1. inversion Hget as [Hfind].
  destruct (find_first _ _ _ Hfind) as (before & after & Hsplit & Hname & Hall).
  apply String.eqb_eq in Hname. split; [assumption|].
  exists o, c, before, after. repeat split; try assumption.
  eapply Forall_impl; [exact Hall|]. cbv beta. intros x Hx.
  now apply String.eqb_neq in Hx.
Qed.

(** For a name the session has not recorded, [get_room] returns [None]
    without looking at the catalog. *)
Lemma get_room_unrecorded_name r name w o :
  heap w !! r = Some o -> name ∉ room_names o ->
  get_room nio r name w = (Ret None, w).
Proof.
  intros H Hin. unfold get_room, bind. rewrite (get_self_eq _ _ _ H).
  now rewrite bool_decide_eq_false_2.
Qed.

(** *** create_room *)

Lemma create_room_run r name w o ro src c resp c' :
  heap w !! r = Some o -> old o = Some ro ->
  fst (get_room nio ro name w) = Ret (Some src) ->
  client o = Some c ->
  nio_room_create nio name (topic src) (room_version src) c = (resp, c') ->
  create_room nio r name w
  = bind (match resp with
          | RoomCreateError m =>
              bind (logging_error ("Room creation error RoomCreateError: " ++ m))
                (fun _ => sys_exit ("Cannot create room " ++ name ++ ", aborting") true)
          | RoomCreateResponse _ =>
              when (verb o) (sys_exit ("Created room " ++ name) false)
          end)
      (fun _ =>
         bind (sync nio r) (fun _ =>
         bind (modify r bind_rooms) (fun _ =>
         bind (modify r (append_room_name name)) (fun _ =>
           get_room nio r name))))
      (upd_inst r (set_client c') (add_trace (CallRoomCreate r name) w)).
Proof.
  intros H Hold Hsrc Hc Hcreate.
  assert (Hget : get_room nio ro name w = (Ret (Some src), w)).
  { pose proof (get_room_pure nio ro name w) as Hp.
    destruct (get_room nio ro name w) as [x w0]. simpl in *. now subst. }
  unfold create_room, bind at 1. rewrite (get_self_eq _ _ _ H).
  rewrite Hold. unfold bind at 1. rewrite Hget.
  unfold bind at 1. rewrite (get_client_eq _ _ _ _ H Hc).
  unfold bind at 1. cbn [room_attr ret]. unfold bind at 1. cbn [room_attr ret].
  unfold bind at 1. now rewrite (await_client_eq _ _ _ _ _ _ _ _ H Hc Hcreate).
Qed.

(** X6.  When the server refuses to create the room, [create_room] ends
    the process with status -1 after the one creation request: both
    messages are logged, no sync follows, and the name is not added to
    [room_names]. *)
Theorem create_room_refused_exits r name w o ro src c msg c' :
  heap w !! r = Some o -> old o = Some ro ->
  fst (get_room nio ro name w) = Ret (Some src) ->
  client o = Some c ->
  nio_room_create nio name (topic src) (room_version src) c
  = (RoomCreateError msg, c') ->
  fst (create_room nio r name w) = Raise (SystemExit (-1)) /\
  trace (snd (create_room nio r name w)) = (trace w ++ [CallRoomCreate r name])%list /\
  log (snd (create_room nio r name w))
  = (log w ++ [(ERROR, ("Room creation error RoomCreateError: " ++ msg)%string);
               (ERROR, ("Cannot create room " ++ name ++ ", aborting")%string)])%list /\
  names_at r (snd (create_room nio r name w)) = names_at r w.
Proof.
  intros H Hold Hsrc Hc Hcreate.
  rewrite (create_room_run _ _ _ _ _ _ _ _ _ H Hold Hsrc Hc Hcreate). cbn.
  world_simpl. repeat split; [now rewrite <- app_assoc|].
  unfold names_at. cbn. now rewrite names_upd_inst by reflexivity.
Qed.

(** X7.  [create_room] looks the source room up by name in the source
    session; when that session has not recorded the name, the lookup gives
    [None] and reading its room version raises [AttributeError] before any
    request is sent, whatever the source catalog holds. *)
Theorem create_room_without_source r name w o ro oo c :
  heap w !! r = Some o -> old o = Some ro ->
  heap w !! ro = Some oo -> name ∉ room_names oo ->
  client o = Some c ->
  create_room nio r name w
  = (Raise (AttributeError "'NoneType' object has no attribute 'room_version'"), w).
Proof.
  intros H Hold Ho Hin Hc. unfold create_room, bind at 1.
  rewrite (get_self_eq _ _ _ H). rewrite Hold. unfold bind at 1.
  rewrite (get_room_unrecorded_name _ _ _ _ Ho Hin).
  unfold bind at 1. now rewrite (get_client_eq _ _ _ _ H Hc).
Qed.

Lemma sync_Ret_inv r w u w' :
  sync nio r w = (Ret u, w') ->
  exists o c join c',
    heap w !! r = Some o /\ client o = Some c /\
    nio_sync nio (Some 30000) c = (SyncResponse join, c') /\
    w' = upd_inst r (set_client c') (add_trace (CallSync r) w).
Proof.
  intros Hs. unfold sync in Hs.
  apply bind_Ret_inv in Hs as (resp & w1 & Ha & Hs).
  apply await_client_inv in Ha as (o & c & c' & Ho & Hc & Hm & ->).
  destruct resp as [join | m]; [|discriminate]. inversion Hs; subst.
  eauto 10.
Qed.

(** X8.  A [create_room] that returns has sent exactly one creation
    request followed by one sync, has appended the name once to
    [room_names], and returns the first room of that name in the catalog as
    the sync left it ([None] when the sync did not bring such a room). *)
Theorem create_room_returns r name w dest w' :
  create_room nio r name w = (Ret dest, w') ->
  exists o o' c',
    heap w !! r = Some o /\ heap w' !! r = Some o' /\
    room_names o' = (room_names o ++ [name])%list /\
    rooms_bound o' = true /\ client o' = Some c' /\
    dest = first_named name (nio_rooms nio c') /\
    trace w' = (trace w ++ [CallRoomCreate r name; CallSync r])%list.
Proof.
  intros Hrun. pose proof Hrun as Hrun0. unfold create_room in Hrun.
  apply bind_Ret_inv in Hrun as (o & w0 & Ho & Hrun).
  apply get_self_inv in Ho as [Ho ->].
  apply bind_Ret_inv in Hrun as (old_room & w1 & Hsrc & Hrun).
  destruct (old o) as [ro|] eqn:Hold; [|discriminate].
  pose proof (get_room_pure nio ro name w) as Hp. rewrite Hsrc in Hp.
  simpl in Hp. subst w1.
  apply bind_Ret_inv in Hrun as (c & w1 & Hc & Hrun).
  apply get_client_inv in Hc as (o1 & Ho1 & Hc & ->).
  assert (o1 = o) as -> by congruence.
  apply bind_Ret_inv in Hrun as (version & w1 & Hv & Hrun).
  apply room_attr_inv in Hv as (src & -> & -> & ->).
  apply bind_Ret_inv in Hrun as (topic_ & w1 & Htopic & Hrun).
  apply room_attr_inv in Htopic as (src' & [= <-] & -> & ->).
  clear Hrun.
  destruct (nio_room_create nio name (topic src) (room_version src) c)
    as [resp c1] eqn:Hcreate.
  assert (Hfst : fst (get_room nio ro name w) = Ret (Some src)) by (now rewrite Hsrc).
  rewrite (create_room_run _ _ _ _ _ _ _ _ _ Ho Hold Hfst Hc Hcreate) in Hrun0.
  set (w2 := upd_inst r (set_client c1) (add_trace (CallRoomCreate r name) w)) in *.
  assert (H2 : heap w2 !! r = Some (set_client c1 o)).
  { unfold w2. now apply heap_upd_inst_eq. }
  assert (Ht2 : trace w2 = (trace w ++ [CallRoomCreate r name])%list).
  { unfold w2. now world_simpl. }
  clearbody w2.
  apply bind_Ret_inv in Hrun0 as (u & w3 & Hresp & Hrun).
  assert (H3 : heap w3 = heap w2 /\ trace w3 = trace w2).
  { destruct resp as [rid | m].
    - destruct (verb o); inversion Hresp; auto.
    - discriminate. }
  destruct H3 as [Hh3 Ht3].
  apply bind_Ret_inv in Hrun as (u1 & w4 & Hsync & Hrun).
  apply sync_Ret_inv in Hsync as (o3 & c3 & join & c4 & Ho3 & Hc3 & Hs & ->).
  rewrite Hh3, H2 in Ho3. injection Ho3 as <-.
  apply bind_Ret_inv in Hrun as (u2 & w5 & Hbind & Hrun).
  inversion Hbind; subst w5; clear Hbind.
  apply bind_Ret_inv in Hrun as (u3 & w6 & Happ & Hrun).
  inversion Happ; subst w6; clear Happ.
  set (w4 := upd_inst r (set_client c4) (add_trace (CallSync r) w3)) in *.
  assert (H4 : heap w4 !! r = Some (set_client c4 o)).
  { unfold w4. rewrite (heap_upd_inst_eq r (set_client c4) _ (set_client c1 o));
      [reflexivity|]. rewrite heap_add_trace, Hh3. exact H2. }
  assert (Ht4 : trace w4 = (trace w3 ++ [CallSync r])%list).
  { unfold w4. now world_simpl. }
  clearbody w4.
  pose proof (heap_upd_inst_eq r bind_rooms w4 _ H4) as H5.
  pose proof (heap_upd_inst_eq r (append_room_name name) _ _ H5) as H6.
  set (w6 := upd_inst r (append_room_name name) (upd_inst r bind_rooms w4)) in *.
  assert (Ht6 : trace w6 = trace w4).
  { unfold w6. now world_simpl. }
  clearbody w6.
  rewrite (get_room_eq r name w6 _ c4 H6) in Hrun;
    [ | cbn; apply elem_of_app; right; now apply list_elem_of_singleton
      | reflexivity | reflexivity ].
  inversion Hrun; subst dest w'.
  eexists o, _, c4. split; [exact Ho|]. split; [exact H6|].
  cbn. repeat split.
  rewrite Ht6, Ht4, Ht3, Ht2. now rewrite <- app_assoc.
Qed.

(** *** Rooms with nothing to migrate *)

Lemma get_room_events_paginated rm tl pos (I : AsyncClient -> Prop) r fuel w o c :
  paginates nio (room_id rm) tl pos I ->
  heap w !! r = Some o -> client o = Some c -> I c ->
  (length tl < fuel)%nat ->
  exists w',
    get_room_events nio str_token fuel r (Some rm) w
    = (Ret (List.filter retained tl), w').
Proof.
  intros server H Hc HI Hfuel.
  destruct (pg_sync _ _ _ _ _ server c HI) as (join & anchor & c1 & Hs & Hj & Hle & HI1).
  pose proof (client_after_await r c1 (CallSync r) w o H) as H1.
  set (w1 := upd_inst r (set_client c1) (add_trace (CallSync r) w)) in *.
  destruct (back_run nio str_token rm tl pos I server fuel r anchor [] w1 _ c1
              H1 eq_refl HI1 Hle) as (wb & c2 & Hback & Hb & HI2); [lia|].
  destruct (fetch_room_events_of_loop nio str_token rm _ _ _ _ _ _ _ _ H1 Hback)
    as (w2 & Hfb & Hheap2).
  assert (H2 : heap w2 !! r = Some (set_client c2 o)) by (now rewrite Hheap2).
  destruct (front_run nio str_token rm tl pos I server fuel r anchor [] w2 _ c2
              H2 eq_refl HI2 Hle) as (wf & c3 & Hfront & Hf & HI3); [lia|].
  destruct (fetch_room_events_of_loop nio str_token rm _ _ _ _ _ _ _ _ H2 Hfront)
    as (w3 & Hff & Hheap3).
  cbn [app] in Hfb, Hff.
  assert (Hmerge :
    (rev (List.filter retained (rev (firstn (pos anchor) tl)))
     ++ List.filter retained (skipn (pos anchor) tl))%list
    = List.filter retained tl).
  { rewrite <- List.filter_rev, rev_involutive, <- List.filter_app.
    now rewrite firstn_skipn. }
  rewrite <- Hmerge.
  unfold get_room_events, bind at 1. rewrite (get_self_eq _ _ _ H).
  unfold bind at 1. rewrite (await_client_eq _ _ _ _ _ _ _ _ H Hc Hs).
  fold w1. unfold bind at 1. unfold bind at 1. cbn [room_attr ret].
  rewrite Hj. cbn [ret]. unfold bind at 1. rewrite Hfb.
  unfold bind at 1. rewrite Hff.
  destruct (verb o).
  - unfold bind at 1. unfold bind at 1. cbn [room_attr ret].
    rewrite sys_exit_false. eexists. reflexivity.
  - eexists. reflexivity.
Qed.

Lemma sends_snoc (tr : list (NetCall Token)) c :
  sends (tr ++ [c]) = (sends tr ++ sends [c])%list.
Proof. unfold sends. now rewrite omap_app. Qed.

Lemma get_room_events_quiet fuel r room :
  preserves (@quiet_fetch Token AsyncClient) (get_room_events nio str_token fuel r room).
Proof.
  apply preserves_get_room_events
    with (ok := fun c => is_create c = false /\ sends [c] = []).
  - intros w. now split.
  - intros w1 w2 w3 [A1 B1] [A2 B2]. split; congruence.
  - intros msg w. now split.
  - intros msg w. now split.
  - intros c w [Hc Hs]. split.
    + rewrite trace_add_trace, created_names_snoc, Hc. apply app_nil_r.
    + rewrite trace_add_trace, sends_snoc, Hs. apply app_nil_r.
  - intros r' c w. split; now rewrite trace_upd_inst.
  - intros r'. now split.
  - intros r' rid t l d. now split.
Qed.

(** X9.  A source room whose timeline holds no retained event is
    skipped: against a server that paginates the timeline, the body of the
    loop of [main] returns after the fetch, having requested no room and
    sent no message. *)
Theorem room_without_events_is_skipped
        src tl pos (I : AsyncClient -> Prop) fuel ol new w oo c :
  paginates nio (room_id src) tl pos I ->
  heap w !! ol = Some oo -> rooms_bound oo = true -> client oo = Some c -> I c ->
  dict_get (room_id src) (nio_rooms nio c) = Some src ->
  (length tl < fuel)%nat ->
  List.filter retained tl = [] ->
  fst (migrate_room nio str_token fuel ol new (room_id src) w) = Ret tt /\
  created_names (trace (snd (migrate_room nio str_token fuel ol new (room_id src) w)))
  = created_names (trace w) /\
  sends (trace (snd (migrate_room nio str_token fuel ol new (room_id src) w)))
  = sends (trace w).
Proof.
  intros server H Hb Hc HI Hsrc Hfuel Hnone.
  destruct (get_room_events_paginated src tl pos I ol fuel w oo c server H Hc HI Hfuel)
    as (w' & Hget).
  assert (Hrun : migrate_room nio str_token fuel ol new (room_id src) w = (Ret tt, w')).
  { unfold migrate_room, bind at 1, get_room_from_id, bind at 1, self_rooms, bind at 1.
    rewrite (get_self_eq _ _ _ H), Hb, Hc. cbn [ret]. rewrite Hsrc.
    unfold bind at 1. cbn [get_room_name room_attr ret].
    unfold bind at 1. rewrite Hget, Hnone. reflexivity. }
  rewrite Hrun. cbn [fst snd]. split; [reflexivity|].
  pose proof (get_room_events_quiet fuel ol (Some src) w) as Hq.
  rewrite Hget, Hnone in Hq. exact Hq.
Qed.

(** *** Posting *)

Lemma plain_text_is_sent e :
  isinstance e [RoomMessageText] = true ->
  isinstance e media_classes = false /\ isinstance e send_classes = true.
Proof.
  unfold isinstance. destruct e as [c i b u m]. simpl.
  destruct c; vm_compute; intros H; try discriminate; auto.
Qed.

Lemma plain_text_has_body e :
  isinstance e [RoomMessageText] = true -> has_body (ev_class e) = true.
Proof.
  unfold isinstance. destruct e as [c i b u m]. simpl.
  destruct c; vm_compute; intros H; try discriminate; auto.
Qed.

(** [post_event] on an event which is not a media event and has a body,
    up to the call of [room_send]. *)
Lemma post_event_text_run r room e w o mt :
  heap w !! r = Some o ->
  isinstance e media_classes = false -> has_body (ev_class e) = true ->
  ev_msgtype e = Some mt ->
  post_event nio r room e w
  = bind (try_except
            (bind (get_client r) (fun _ =>
             bind (room_attr "room_id" room_id room) (fun rid =>
             bind (await_client r
                     (CallRoomSend r rid "m.room.message" (TextContent (ev_body e) mt))
                     (nio_room_send nio rid "m.room.message"
                        (TextContent (ev_body e) mt)))
               (fun res => match res with
                           | SendReturned _ => ret tt
                           | SendRaised what => raise (RuntimeError what)
                           end))))
            (fun x => sys_exit ("Exception " ++ x ++ " occurred during message sending")
                               true))
      (fun _ =>
         if verb o then
           bind (room_attr "display_name" display_name room) (fun dn =>
             sys_exit ("Posted " ++ mt ++ " with body "
                       ++ (str_prefix 20 (content_body (TextContent (ev_body e) mt))
                           ++ "...")
                       ++ " to room " ++ dn) false)
         else ret tt) w.
Proof.
  intros H Hm Hb Hmt. unfold post_event, bind at 1. rewrite (get_self_eq _ _ _ H).
  rewrite Hm, Hb. unfold bind at 1. cbn [ret]. rewrite Hmt. unfold bind at 1.
  cbn [ret]. reflexivity.
Qed.

(** X10.  An exception raised by [room_send] is fatal: [post_event]
    logs it and ends the process with status -1, so the replay loop stops
    at that event and the events after it are not sent. *)
Theorem send_exception_is_fatal r rm e rest w o c mt what c' :
  heap w !! r = Some o -> client o = Some c ->
  isinstance e [RoomMessageText] = true -> ev_msgtype e = Some mt ->
  nio_room_send nio (room_id rm) "m.room.message" (TextContent (ev_body e) mt) c
  = (SendRaised what, c') ->
  fst (send_loop nio r (Some rm) (e :: rest) w) = Raise (SystemExit (-1)) /\
  sends (trace (snd (send_loop nio r (Some rm) (e :: rest) w)))
  = (sends (trace w) ++ [(room_id rm, TextContent (ev_body e) mt)])%list /\
  log (snd (send_loop nio r (Some rm) (e :: rest) w))
  = (log w ++ [(ERROR, ("Exception " ++ what
                        ++ " occurred during message sending")%string)])%list.
Proof.
  intros H Hc Hcls Hmt Hsend.
  destruct (plain_text_is_sent e Hcls) as [Hmedia Hsent].
  assert (Hpost : post_event nio r (Some rm) e w
    = (Raise (SystemExit (-1)),
       add_log ("Exception " ++ what ++ " occurred during message sending")
         (add_stderr ("Exception " ++ what ++ " occurred during message sending")
            (upd_inst r (set_client c')
               (add_trace (CallRoomSend r (room_id rm) "m.room.message"
                             (TextContent (ev_body e) mt)) w))))).
  { rewrite (post_event_text_run _ _ _ _ _ _ H Hmedia (plain_text_has_body e Hcls) Hmt).
    unfold bind at 1, try_except, bind at 1.
    rewrite (get_client_eq _ _ _ _ H Hc). unfold bind at 1. cbn [room_attr ret].
    unfold bind at 1. rewrite (await_client_eq _ _ _ _ _ _ _ _ H Hc Hsend).
    reflexivity. }
  assert (Hloop : send_loop nio r (Some rm) (e :: rest) w
                  = post_event nio r (Some rm) e w).
  { cbn [send_loop]. rewrite Hsent. unfold when, bind at 1. now rewrite Hpost. }
  rewrite Hloop, Hpost. cbn [fst snd]. world_simpl. rewrite sends_snoc. auto.
Qed.

(** X11.  The response of [room_send] is not looked at: when the server
    answers the request with an error response instead of raising,
    [post_event] returns as for an accepted message, and nothing about the
    rejection is logged or printed. *)
Theorem send_error_response_is_ignored r rm e w o c mt accepted c' :
  heap w !! r = Some o -> client o = Some c -> verb o = false ->
  isinstance e [RoomMessageText] = true -> ev_msgtype e = Some mt ->
  nio_room_send nio (room_id rm) "m.room.message" (TextContent (ev_body e) mt) c
  = (SendReturned accepted, c') ->
  post_event nio r (Some rm) e w
  = (Ret tt, upd_inst r (set_client c')
               (add_trace (CallRoomSend r (room_id rm) "m.room.message"
                             (TextContent (ev_body e) mt)) w)) /\
  log (snd (post_event nio r (Some rm) e w)) = log w /\
  stderr (snd (post_event nio r (Some rm) e w)) = stderr w.
Proof.
  intros H Hc Hv Hcls Hmt Hsend.
  destruct (plain_text_is_sent e Hcls) as [Hmedia _].
  assert (Hpost : post_event nio r (Some rm) e w
    = (Ret tt, upd_inst r (set_client c')
                 (add_trace (CallRoomSend r (room_id rm) "m.room.message"
                               (TextContent (ev_body e) mt)) w))).
  { rewrite (post_event_text_run _ _ _ _ _ _ H Hmedia (plain_text_has_body e Hcls) Hmt). rewrite Hv.
    unfold bind at 1, try_except, bind at 1.
    rewrite (get_client_eq _ _ _ _ H Hc). unfold bind at 1. cbn [room_attr ret].
    unfold bind at 1. rewrite (await_client_eq _ _ _ _ _ _ _ _ H Hc Hsend).
    reflexivity. }
  rewrite Hpost. cbn [snd]. world_simpl. rewrite stderr_upd_inst. auto.
Qed.


(** X13.  When the destination answers the upload with an error
    response, [post_event] reads [content_uri] on it and raises
    [AttributeError]: the media was downloaded and the upload attempted,
    and no message is sent. *)
Theorem upload_error_raises r room e w o ro oo co c body mime name co' msg c' :
  heap w !! r = Some o -> old o = Some ro -> r <> ro ->
  heap w !! ro = Some oo -> client oo = Some co -> client o = Some c ->
  isinstance e media_classes = true ->
  nio_download nio (ev_url e) co = (DownloadResponse body mime name, co') ->
  nio_upload nio body mime name (length body) c = (UploadError msg, c') ->
  fst (post_event nio r room e w)
  = Raise (AttributeError "'UploadError' object has no attribute 'content_uri'") /\
  trace (snd (post_event nio r room e w))
  = (trace w ++ [CallDownload ro (ev_url e);
                 CallUpload r body mime name (length body)])%list /\
  sends (trace (snd (post_event nio r room e w))) = sends (trace w).
Proof.
  intros H Hold Hne Ho Hco Hc Hmedia Hd Hu.
  set (w1 := upd_inst ro (set_client co') (add_trace (CallDownload ro (ev_url e)) w)).
  assert (H1 : heap w1 !! r = Some o).
  { unfold w1. rewrite heap_upd_inst_ne by congruence. exact H. }
  assert (Hpost : exists w',
    post_event nio r room e w
    = (Raise (AttributeError "'UploadError' object has no attribute 'content_uri'"), w')
    /\ trace w' = (trace w1 ++ [CallUpload r body mime name (length body)])%list).
  { unfold post_event, bind at 1. rewrite (get_self_eq _ _ _ H).
    rewrite Hmedia, Hold. unfold bind at 1. unfold bind at 1.
    rewrite (download_mxc_eq _ _ _ _ _ _ _ _ Ho Hco Hd).
    cbn [hasattr_body]. fold w1. unfold bind at 1. cbn [media_fields ret].
    unfold bind at 1. rewrite (get_client_eq _ _ _ _ H1 Hc).
    unfold bind at 1. rewrite (await_client_eq _ _ _ _ _ _ _ _ H1 Hc Hu).
    destruct (verb o); eexists; (split; [reflexivity | now world_simpl]). }
  destruct Hpost as (w' & Hpost & Ht). rewrite Hpost. cbn [fst snd].
  rewrite Ht. unfold w1. world_simpl. rewrite <- app_assoc.
  split; [reflexivity|]. split; [reflexivity|].
  change (trace w ++ [CallDownload ro (ev_url e)] ++
          [CallUpload r body mime name (length body)])%list
    with (trace w ++ [CallDownload ro (ev_url e);
                      CallUpload r body mime name (length body)])%list.
  unfold sends. rewrite omap_app. cbn. apply app_nil_r.
Qed.

(** What a returning [post_event] has sent. *)
Lemma post_event_Ret_sends r room e w u w' :
  post_event nio r room e w = (Ret u, w') ->
  exists rm content,
    room = Some rm /\
    sends (trace w') = (sends (trace w) ++ [(room_id rm, content)])%list /\
    posted_for e content.
Proof.
  intros H. unfold post_event in H.
  apply bind_Ret_inv in H as (o & w0 & Hself & H).
  apply get_self_inv in Hself as [Hself ->].
  apply bind_Ret_inv in H as (content & w1 & Hcontent & H).
  assert (Hc : sends (trace w1) = sends (trace w) /\
               forall mt, ev_msgtype e = Some mt -> posted_for e (content mt)).
  { destruct (isinstance e media_classes) eqn:Hmedia.
    - apply bind_Ret_inv in Hcontent as (d & w2 & Hdl & Hcontent).
      apply download_mxc_inv in Hdl
        as (ro & oo & co & resp & co' & Hold & Ho & Hco & Hd & -> & ->).
      apply bind_Ret_inv in Hcontent as (f & w3 & Hf & Hcontent).
      apply media_fields_inv in Hf as (body & mime & name & Hresp & -> & ->).
      apply bind_Ret_inv in Hcontent as (c1 & w4 & Hc1 & Hcontent).
      apply get_client_inv in Hc1 as (o1 & _ & _ & ->).
      apply bind_Ret_inv in Hcontent as (up & w5 & Hup & Hcontent).
      apply await_client_inv in Hup as (o2 & c2 & c2' & _ & _ & _ & ->).
      apply bind_Ret_inv in Hcontent as ([] & w6 & Hverb & Hcontent).
      apply bind_Ret_inv in Hcontent as (uri & w7 & Huri & Hcontent).
      apply upload_content_uri_inv in Huri as [-> ->].
      inversion Hcontent; subst content w6; clear Hcontent.
      split; [|intros mt Hmt; now split].
      assert (Ht : trace w1
                   = ((trace w ++ [CallDownload ro (ev_url e)])
                      ++ [CallUpload r body mime name (length body)])%list).
      { destruct (verb o).
        - apply bind_Ret_inv in Hverb as (uri' & w8 & Huri & Hverb).
          apply upload_content_uri_inv in Huri as [_ ->].
          rewrite sys_exit_false in Hverb. inversion Hverb; subst w1.
          now world_simpl.
        - inversion Hverb; subst w1. now world_simpl. }
      rewrite Ht. unfold sends. rewrite !omap_app. cbn. now rewrite !app_nil_r.
    - destruct (has_body (ev_class e)); [|discriminate].
      inversion Hcontent; subst content w1. split; [reflexivity|].
      intros mt Hmt. now repeat split. }
  destruct Hc as [Hs1 Hposted].
  apply bind_Ret_inv in H as (mt & w8 & Hmt & H).
  destruct (ev_msgtype e) as [mt'|] eqn:Hmsg; [|discriminate].
  inversion Hmt; subst mt' w8; clear Hmt.
  apply bind_Ret_inv in H as ([] & w9 & Hsend & H).
  apply try_except_Ret_inv in Hsend.
  apply bind_Ret_inv in Hsend as (c3 & w10 & Hc3 & Hsend).
  apply get_client_inv in Hc3 as (o3 & _ & _ & ->).
  apply bind_Ret_inv in Hsend as (rid & w11 & Hrid & Hsend).
  apply room_attr_inv in Hrid as (rm & -> & -> & ->).
  apply bind_Ret_inv in Hsend as (res & w12 & Hres & Hsend).
  apply await_client_inv in Hres as (o4 & c4 & c4' & _ & _ & _ & ->).
  assert (w9 = upd_inst r (set_client c4')
                 (add_trace (CallRoomSend r (room_id rm) "m.room.message"
                               (content mt)) w1)) as ->.
  { destruct res; inversion Hsend; auto. }
  exists rm, (content mt). split; [reflexivity|]. split; [|now apply Hposted].
  assert (Ht : trace w'
               = (trace w1 ++ [CallRoomSend r (room_id rm) "m.room.message"
                                 (content mt)])%list).
  { destruct (verb o).
    - apply bind_Ret_inv in H as (dn & w13 & Hdn & H).
      apply room_attr_inv in Hdn as (rm' & _ & _ & ->).
      rewrite sys_exit_false in H. inversion H; subst w'. now world_simpl.
    - inversion H; subst w'. now world_simpl. }
  rewrite Ht, sends_snoc, Hs1. reflexivity.
Qed.

Lemma send_loop_Ret_sends r room events : forall w u w',
  send_loop nio r room events w = (Ret u, w') ->
  exists posts,
    sends (trace w') = (sends (trace w) ++ posts)%list /\
    Forall2 (fun e p => room_id <$> room = Some (fst p) /\ posted_for e (snd p))
            (List.filter (fun e => isinstance e send_classes) events) posts.
Proof.
  induction events as [|e rest IH]; intros w u w' H.
  - inversion H; subst. exists []. rewrite app_nil_r. split; [reflexivity|constructor].
  - cbn [send_loop] in H. apply bind_Ret_inv in H as ([] & w1 & He & H).
    destruct (IH _ _ _ H) as (posts & Hs & Hall).
    cbn [List.filter]. destruct (isinstance e send_classes).
    + cbn [when] in He.
      destruct (post_event_Ret_sends _ _ _ _ _ _ He) as (rm & content & -> & Hs1 & Hp).
      exists ((room_id rm, content) :: posts). split.
      * rewrite Hs, Hs1. now rewrite <- app_assoc.
      * constructor; [now split | assumption].
    + inversion He; subst w1. exists posts. auto.
Qed.

(** X14.  A replay that returns has sent one message for each event of
    the timeline that passes the replay filter, in timeline order and to
    the destination room: a text event as its body and message subtype, a
    media event as a media message of its subtype.  Events that do not pass
    the filter produce no message. *)
Theorem replay_keeps_order r room events w w' :
  send_events nio r room events w = (Ret tt, w') ->
  exists posts,
    sends (trace w') = (sends (trace w) ++ posts)%list /\
    Forall2 (fun e p => room_id <$> room = Some (fst p) /\ posted_for e (snd p))
            (List.filter (fun e => isinstance e send_classes) events) posts.
Proof.
  intros H. unfold send_events in H.
  apply bind_Ret_inv in H as (o & w0 & Hself & H).
  apply get_self_inv in Hself as [Hself ->].
  apply bind_Ret_inv in H as ([] & w1 & Hloop & H).
  destruct (send_loop_Ret_sends _ _ _ _ _ _ Hloop) as (posts & Hs & Hall).
  exists posts. split; [|assumption].
  assert (Ht : trace w' = trace w1).
  { destruct (verb o).
    - apply bind_Ret_inv in H as (dn & w2 & Hdn & H).
      apply room_attr_inv in Hdn as (rm & _ & _ & ->).
      rewrite sys_exit_false in H. inversion H; subst w'. now world_simpl.
    - now inversion H. }
  now rewrite Ht.
Qed.

(** X15.  With verbosity on, the count [send_events] reports is the
    length of the list it was given, not the number of messages sent: the
    events the replay filter drops are counted too.  The report is written
    to the error stream and to the log at level ERROR. *)
Theorem verbose_replay_counts_all r rm events w o w' :
  heap w !! r = Some o -> verb o = true ->
  send_events nio r (Some rm) events w = (Ret tt, w') ->
  let said := ("Posted " ++ str_nat (length events) ++ " to room "
               ++ display_name rm)%string in
  exists w1 posts,
    send_loop nio r (Some rm) events w = (Ret tt, w1) /\
    log w' = (log w1 ++ [(ERROR, said)])%list /\
    stderr w' = (stderr w1 ++ [said])%list /\
    sends (trace w') = (sends (trace w) ++ posts)%list /\
    length posts
    = length (List.filter (fun e => isinstance e send_classes) events).
Proof.
  intros Ho Hv H said. unfold send_events in H.
  apply bind_Ret_inv in H as (o' & w0 & Hself & H).
  apply get_self_inv in Hself as [Hself ->].
  assert (o' = o) as -> by congruence.
  apply bind_Ret_inv in H as ([] & w1 & Hloop & H).
  destruct (send_loop_Ret_sends _ _ _ _ _ _ Hloop) as (posts & Hs & Hall).
  rewrite Hv in H. cbn [room_attr] in H. unfold bind at 1 in H. cbn [ret] in H.
  rewrite sys_exit_false in H. inversion H; subst w'.
  exists w1, posts. split; [assumption|].
  repeat split; try reflexivity.
  - now world_simpl.
  - symmetry. exact (Forall2_length _ _ _ Hall).
Qed.

(** *** Formatted messages that are not plain text *)

Lemma fetch_loop_prefix fuel r room d : forall tok acc w evs w',
  fetch_loop nio str_token fuel r room d tok acc w = (Ret evs, w') ->
  exists more, evs = (acc ++ more)%list.
Proof.
  induction fuel as [|fuel IH]; intros tok acc w evs w' H; [discriminate|].
  simpl in H.
  apply bind_Ret_inv in H as (c & w1 & _ & H).
  apply bind_Ret_inv in H as (rid & w2 & _ & H).
  apply bind_Ret_inv in H as (resp & w3 & _ & H).
  destruct resp as [chunk s e | m].
  - destruct (length chunk =? 0)%nat.
    + inversion H; subst. exists []. now rewrite app_nil_r.
    + apply IH in H as (more & ->). eexists. now rewrite <- app_assoc.
  - apply bind_Ret_inv in H as (u & w4 & _ & H). discriminate.
Qed.

Lemma filter_length_lt {A} (f : A -> bool) (l : list A) x :
  In x l -> f x = false -> (length (List.filter f l) < length l)%nat.
Proof.
  induction l as [|a l IH]; intros Hin Hf; [destruct Hin|].
  cbn [List.filter]. destruct Hin as [-> | Hin].
  - rewrite Hf. pose proof (List.filter_length_le f l). simpl. lia.
  - specialize (IH Hin Hf). destruct (f a); simpl; lia.
Qed.

Lemma formatted_not_text_classes e :
  formatted_not_text e = true ->
  ev_class e = RoomMessageNotice \/ ev_class e = RoomMessageEmote \/
  ev_class e = RoomMessageFormatted.
Proof.
  intros H. unfold formatted_not_text, isinstance in H. destruct e as [c i b u m].
  simpl in *. destruct c; vm_compute in H; try discriminate; auto.
Qed.

Lemma formatted_not_text_filters e :
  formatted_not_text e = true ->
  retained e = true /\ isinstance e send_classes = false.
Proof.
  intros H. apply formatted_not_text_classes in H.
  unfold retained, isinstance. destruct H as [-> | [-> | ->]]; split; reflexivity.
Qed.

(** C10.  A formatted message which is not a plain text message (a
    notice or an emote) passes the filter of [fetch_room_events] and fails
    the filter of [send_events], which lets through plain text and media
    only.  So [fetch_room_events] returns it whenever the page it requests
    holds it, whatever the server; against a server that paginates the
    timeline [get_room_events] returns it among the events of the
    timeline, which is therefore not empty; and the replay of that timeline
    goes past it without posting, logging or raising anything: a
    [send_events] that returns has sent one message for each event that
    passes its filter, the message is not among them, and fewer messages
    were sent than events were fetched. *)
Theorem formatted_fetched_not_posted e :
  formatted_not_text e = true ->
  (ev_class e = RoomMessageNotice \/ ev_class e = RoomMessageEmote \/
   ev_class e = RoomMessageFormatted) /\
  (forall fuel r rm d tok w o c chunk s e' c1 evs w',
     heap w !! r = Some o -> client o = Some c ->
     nio_room_messages nio (room_id rm) tok 1000 d c
     = (RoomMessagesResponse chunk s e', c1) ->
     In e chunk ->
     fetch_room_events nio str_token fuel r tok (Some rm) d w = (Ret evs, w') ->
     In e evs) /\
  (forall chunk, In e chunk -> In e (List.filter retained chunk)) /\
  isinstance e send_classes = false /\
  (forall e', isinstance e' send_classes = true ->
     issubclass (ev_class e') RoomMessageText = true \/
     issubclass (ev_class e') RoomMessageMedia = true \/
     issubclass (ev_class e') RoomEncryptedMedia = true) /\
  (forall r room rest w,
     send_loop nio r room (e :: rest) w = send_loop nio r room rest w) /\
  (forall rm tl pos (I : AsyncClient -> Prop) fuel r w o c,
     paginates nio (room_id rm) tl pos I ->
     heap w !! r = Some o -> client o = Some c -> I c ->
     (length tl < fuel)%nat ->
     In e tl ->
     exists evs w1,
       get_room_events nio str_token fuel r (Some rm) w = (Ret evs, w1) /\
       In e evs /\ (0 < length evs)%nat /\
       (forall r' room w0,
          send_loop nio r' room evs w0
          = send_loop nio r' room
              (List.filter (fun x => negb (formatted_not_text x)) evs) w0) /\
       (forall r' room w0 w2,
          send_events nio r' room evs w0 = (Ret tt, w2) ->
          exists posts,
            sends (trace w2) = (sends (trace w0) ++ posts)%list /\
            Forall2 (fun x p => room_id <$> room = Some (fst p) /\ posted_for x (snd p))
                    (List.filter (fun x => isinstance x send_classes) evs) posts /\
            ~ In e (List.filter (fun x => isinstance x send_classes) evs) /\
            (length posts < length evs)%nat)).
Proof.
  intros H.
  pose proof (formatted_not_text_classes e H) as Hc.
  destruct (formatted_not_text_filters e H) as [Hfetch Hsend].
  split; [exact Hc|]. split; [|split; [|split; [|split; [|split]]]].
  - intros fuel r rm d tok w o c chunk s e' c1 evs w' Ho Hcl Hpage Hin Hrun.
    unfold fetch_room_events in Hrun.
    apply bind_Ret_inv in Hrun as (o' & w0 & Hself & Hrun).
    apply get_self_inv in Hself as [_ ->].
    apply bind_Ret_inv in Hrun as (events & w2 & Hloop & Hrun).
    apply bind_Ret_inv in Hrun as (u & w3 & _ & Hrun).
    inversion Hrun; subst evs w3; clear Hrun.
    destruct fuel as [|fuel]; [discriminate|].
    rewrite (fetch_loop_page nio str_token fuel r rm d tok [] w o c chunk s e' c1
               Ho Hcl Hpage) in Hloop.
    cbv zeta in Hloop.
    destruct (length chunk =? 0)%nat eqn:Hlen.
    + apply Nat.eqb_eq in Hlen. destruct chunk; [destruct Hin | discriminate].
    + apply fetch_loop_prefix in Hloop as (more & ->).
      apply List.in_or_app. left. cbn [app]. apply List.filter_In. auto.
  - intros chunk Hin. apply List.filter_In. auto.
  - exact Hsend.
  - intros e' He'. apply isinstance_cases in He' as (c & Hin & Hsub).
    simpl in Hin. destruct Hin as [<- | [<- | [<- | []]]]; auto.
  - intros r room rest w. cbn [send_loop]. rewrite Hsend. reflexivity.
  - intros rm tl pos I fuel r w o c server Ho Hcl HI Hfuel Hin.
    destruct (get_room_events_paginated rm tl pos I r fuel w o c server Ho Hcl HI Hfuel)
      as (w1 & Hrun).
    assert (Hevs : In e (List.filter retained tl)) by (apply List.filter_In; auto).
    exists (List.filter retained tl), w1. split; [exact Hrun|].
    split; [exact Hevs|]. split.
    { destruct (List.filter retained tl); [destruct Hevs | simpl; lia]. }
    split.
    + intros r' room w0. apply (send_loop_skips nio r' room formatted_not_text).
      intros x Hx. now apply formatted_not_text_filters in Hx.
    + intros r' room w0 w2 Hsent. unfold send_events in Hsent.
      apply bind_Ret_inv in Hsent as (o' & w3 & Hself & Hsent).
      apply get_self_inv in Hself as [_ ->].
      apply bind_Ret_inv in Hsent as ([] & w4 & Hloop & Hsent).
      destruct (send_loop_Ret_sends _ _ _ _ _ _ Hloop) as (posts & Hs & Hall).
      assert (Ht : trace w2 = trace w4).
      { destruct (verb o').
        - apply bind_Ret_inv in Hsent as (dn & w5 & Hdn & Hsent).
          apply room_attr_inv in Hdn as (rm' & _ & _ & ->).
          rewrite sys_exit_false in Hsent. inversion Hsent; subst w2. now world_simpl.
        - now inversion Hsent. }
      exists posts. rewrite Ht. split; [exact Hs|]. split; [exact Hall|]. split.
      * intros Hin'. apply List.filter_In in Hin' as [_ Hin']. congruence.
      * rewrite <- (Forall2_length _ _ _ Hall).
        now apply filter_length_lt with (x := e).
Qed.

(** *** Pages *)

(** X16.  The loop of [fetch_room_events] stops on a page with no event
    at all, not on a page from which the filter keeps nothing: after a
    first page holding only events that are dropped, a second page is
    requested from the end token of the first, and when that one is empty
    the result is the empty list. *)
Theorem filtered_page_does_not_stop r rm d tok w o c chunk s e c1 s2 e2 c2 fuel :
  heap w !! r = Some o -> client o = Some c ->
  nio_room_messages nio (room_id rm) tok 1000 d c
  = (RoomMessagesResponse chunk s e, c1) ->
  chunk <> [] -> List.filter retained chunk = [] ->
  nio_room_messages nio (room_id rm) e 1000 d c1
  = (RoomMessagesResponse [] s2 e2, c2) ->
  fst (fetch_room_events nio str_token (S (S fuel)) r tok (Some rm) d w) = Ret [] /\
  trace (snd (fetch_room_events nio str_token (S (S fuel)) r tok (Some rm) d w))
  = (trace w ++ [CallRoomMessages r (room_id rm) tok 1000 d;
                 CallRoomMessages r (room_id rm) e 1000 d])%list.
Proof.
  intros H Hc Hp1 Hne Hdrop Hp2.
  set (w1 := upd_inst r (set_client c1)
               (add_trace (CallRoomMessages r (room_id rm) tok 1000 d) w)).
  assert (H1 : heap w1 !! r = Some (set_client c1 o)).
  { unfold w1. now apply heap_upd_inst_eq. }
  assert (Hloop : fetch_loop nio str_token (S (S fuel)) r (Some rm) d tok [] w
    = (Ret [], upd_inst r (set_client c2)
                 (add_trace (CallRoomMessages r (room_id rm) e 1000 d) w1))).
  { rewrite (fetch_loop_page _ _ _ _ _ _ _ _ _ _ _ _ _ _ _ H Hc Hp1). cbv zeta.
    destruct chunk as [|x chunk]; [congruence|]. cbn [length Nat.eqb].
    rewrite Hdrop. cbn [app]. fold w1.
    now rewrite (fetch_loop_page _ _ _ _ _ _ _ _ _ _ _ _ _ _ _ H1 eq_refl Hp2). }
  destruct (fetch_room_events_of_loop nio str_token rm _ _ _ _ _ _ _ _ H Hloop)
    as (w' & Hrun & Hheap).
  assert (Ht : trace w'
               = trace (upd_inst r (set_client c2)
                          (add_trace (CallRoomMessages r (room_id rm) e 1000 d) w1))).
  { unfold fetch_room_events, bind at 1 in Hrun. rewrite (get_self_eq _ _ _ H) in Hrun.
    unfold bind at 1 in Hrun. rewrite Hloop in Hrun.
    destruct (verb o).
    - unfold bind at 1 in Hrun. unfold bind at 1 in Hrun. cbn [room_attr ret] in Hrun.
      rewrite sys_exit_false in Hrun. inversion Hrun. now world_simpl.
    - now inversion Hrun. }
  rewrite Hrun. cbn [fst snd]. split; [reflexivity|].
  rewrite Ht. unfold w1. world_simpl. now rewrite <- app_assoc.
Qed.

(** X17.  The loop has no bound of its own: against a server that never
    answers with an empty page, no number of steps is enough for
    [fetch_room_events] to return. *)
Theorem fetch_never_returns_without_empty_page r rm d :
  (forall (c : AsyncClient) t, exists chunk s e c',
      nio_room_messages nio (room_id rm) t 1000 d c
      = (RoomMessagesResponse chunk s e, c') /\ chunk <> []) ->
  forall fuel tok w o c,
    heap w !! r = Some o -> client o = Some c ->
    fst (fetch_room_events nio str_token fuel r tok (Some rm) d w) = OutOfFuel.
Proof.
  intros Hserver.
  assert (Hloop : forall fuel tok acc w o c,
    heap w !! r = Some o -> client o = Some c ->
    fst (fetch_loop nio str_token fuel r (Some rm) d tok acc w) = OutOfFuel).
  { induction fuel as [|fuel IH]; intros tok acc w o c H Hc; [reflexivity|].
    destruct (Hserver c tok) as (chunk & s & e & c' & Hp & Hne).
    rewrite (fetch_loop_page _ _ _ _ _ _ _ _ _ _ _ _ _ _ _ H Hc Hp). cbv zeta.
    destruct chunk as [|x chunk]; [congruence|]. cbn [length Nat.eqb].
    apply (IH e _ _ (set_client c' o) c'); [|reflexivity].
    now apply heap_upd_inst_eq. }
  intros fuel tok w o c H Hc. specialize (Hloop fuel tok [] w o c H Hc).
  unfold fetch_room_events, bind at 1. rewrite (get_self_eq _ _ _ H).
  unfold bind at 1.
  destruct (fetch_loop nio str_token fuel r (Some rm) d tok [] w) as [[x | x |] w'];
    simpl in Hloop; try discriminate. reflexivity.
Qed.

(** *** main *)

(** X18.  When the source server refuses the login, [main] ends the
    process with status -1 right there: the login request is the only
    network operation, and the destination session is never constructed. *)
Theorem main_stops_at_refused_source_login fuel config_old config_new verbose msg c1 :
  nio_login nio (credential_of config_old)
    (nio_set_device_id nio "migrate_server_1"
       (nio_AsyncClient nio (server config_old) (user config_old)))
  = (LoginError msg, c1) ->
  fst (main nio str_token fuel config_old config_new verbose initial_world)
  = Raise (SystemExit (-1)) /\
  trace (snd (main nio str_token fuel config_old config_new verbose initial_world))
  = [CallLogin 0%nat (credential_of config_old)] /\
  length (heap (snd (main nio str_token fuel config_old config_new verbose
                          initial_world))) = 1%nat.
Proof.
  intros Hl.
  set (o0 := {| ms_server := config_old; verb := verbose; old := None;
                device := "migrate_server_1"; device_cnt := Some 2;
                room_names := []; client := None; rooms_bound := false |}
             : Matrix_Server).
  set (w0 := set_heap [o0] (initial_world (Token := Token))).
  assert (H0 : heap w0 !! 0%nat = Some o0) by reflexivity.
  assert (Hlogin : exists w',
    login nio 0%nat w0 = (Raise (SystemExit (-1)), w') /\
    trace w' = [CallLogin 0%nat (credential_of config_old)] /\
    length (heap w') = 1%nat).
  { rewrite (login_run 0%nat w0 o0 _ _ H0 Hl).
    destruct verbose; eexists; (split; [reflexivity|]); cbn; split; reflexivity. }
  destruct Hlogin as (w' & Hlogin & Ht & Hh).
  assert (Hmain : main nio str_token fuel config_old config_new verbose initial_world
                  = (Raise (SystemExit (-1)), w')).
  { unfold main, bind at 1. rewrite init_eq. fold o0. change (set_heap _ _) with w0.
    cbn [heap initial_world length]. unfold bind at 1. now rewrite Hlogin. }
  rewrite Hmain. auto.
Qed.

(** *** What a run without verbosity writes *)



































(** *** Iterating over the catalog *)

Lemma self_rooms_eq r w o c :
  heap w !! r = Some o -> rooms_bound o = true -> client o = Some c ->
  self_rooms nio r w = (Ret (nio_rooms nio c), w).
Proof.
  intros H Hb Hc. unfold self_rooms, bind. rewrite (get_self_eq _ _ _ H).
  now rewrite Hb, Hc.
Qed.

(** X19.  [main] iterates over [old.rooms], which is the dictionary of
    the client itself, while the body of the loop syncs that client.  When
    the body has returned for one room and the catalog has a different
    size by then (a sync brought a room the account joined meanwhile), the
    iteration fails with [RuntimeError] at the next step: the rooms not
    yet visited are not migrated. *)
Theorem catalog_change_stops_the_loop fuel ol new pos todo w oo c rid rm w1 oo1 c1 :
  heap w !! ol = Some oo -> rooms_bound oo = true -> client oo = Some c ->
  nio_rooms nio c !! pos = Some (rid, rm) ->
  migrate_room nio str_token fuel ol new rid w = (Ret tt, w1) ->
  heap w1 !! ol = Some oo1 -> rooms_bound oo1 = true -> client oo1 = Some c1 ->
  length (nio_rooms nio c1) <> length (nio_rooms nio c) ->
  main_loop nio str_token fuel ol new (length (nio_rooms nio c)) pos (S (S todo)) w
  = (Raise (RuntimeError "dictionary changed size during iteration"), w1).
Proof.
  intros H Hb Hc Hpos Hbody H1 Hb1 Hc1 Hlen.
  cbn [main_loop]. unfold bind at 1. rewrite (self_rooms_eq _ _ _ _ H Hb Hc).
  rewrite Nat.eqb_refl. cbn [negb]. rewrite Hpos.
  unfold bind at 1. rewrite Hbody.
  unfold bind at 1. rewrite (self_rooms_eq _ _ _ _ H1 Hb1 Hc1).
  apply Nat.eqb_neq in Hlen. now rewrite Hlen.
Qed.

End Sessions.

(** * Properties of the configuration *)

Section Configuration.

Import Config.

Lemma eqb_false_of_ne (a b : string) : a <> b -> String.eqb a b = false.
Proof. intros H. now apply String.eqb_neq. Qed.

Lemma dict_get_None {V} k (d : list (string * V)) :
  dict_get k d = None <-> ~ In k (map fst d).
Proof.
  induction d as [|[k' v] d IH]; simpl.
  - split; [intros _ [] | reflexivity].
  - destruct (String.eqb k k') eqn:E.
    + apply String.eqb_eq in E. subst. split; [discriminate|].
      intros H. exfalso. apply H. now left.
    + apply String.eqb_neq in E. rewrite IH. split.
      * intros H [H1|H1]; [congruence | contradiction].
      * intros H H1. apply H. now right.
Qed.

Lemma dict_get_In {V} k (v : V) d :
  List.NoDup (map fst d) -> In (k, v) d -> dict_get k d = Some v.
Proof.
  induction d as [|[k' v'] d IH]; simpl; [intros _ []|].
  intros Hnd [Heq | Hin].
  - inversion Heq; subst. now rewrite String.eqb_refl.
  - inversion Hnd as [|? ? Hnot Hnd']; subst.
    destruct (String.eqb k k') eqn:E; [|now apply IH].
    apply String.eqb_eq in E. subst. exfalso. apply Hnot.
    apply List.in_map_iff. now exists (k', v).
Qed.

Lemma dict_set_fresh {V} k (v : V) d :
  ~ In k (map fst d) -> dict_set k v d = (d ++ [(k, v)])%list.
Proof.
  induction d as [|[k' v'] d IH]; simpl; [reflexivity|]. intros Hnot.
  rewrite eqb_false_of_ne by (intros ->; apply Hnot; now left).
  rewrite IH by (intros H; apply Hnot; now right). reflexivity.
Qed.

Lemma dict_get_set_eq {V} k (v : V) d : dict_get k (dict_set k v d) = Some v.
Proof.
  induction d as [|[k' v'] d IH]; simpl.
  - now rewrite String.eqb_refl.
  - destruct (String.eqb k k') eqn:E; simpl.
    + now rewrite String.eqb_refl.
    + now rewrite E.
Qed.

Lemma dict_get_set_ne {V} k k' (v : V) d :
  k <> k' -> dict_get k (dict_set k' v d) = dict_get k d.
Proof.
  intros Hne. induction d as [|[k2 v2] d IH]; simpl.
  - now rewrite eqb_false_of_ne.
  - destruct (String.eqb k' k2) eqn:E; simpl.
    + apply String.eqb_eq in E. subst. now rewrite !eqb_false_of_ne.
    + destruct (String.eqb k k2); [reflexivity | assumption].
Qed.

Lemma mem_In key l : mem key l = true <-> In key l.
Proof.
  unfold mem. rewrite List.existsb_exists. split.
  - intros (x & Hx & E). apply String.eqb_eq in E. now subst.
  - intros H. exists key. split; [assumption | apply String.eqb_refl].
Qed.

Lemma map_snd_enumerate {A} (l : list A) : map snd (enumerate l) = l.
Proof.
  unfold enumerate. generalize 0%nat. induction l as [|a l IH]; intros n; simpl.
  - reflexivity.
  - now rewrite IH.
Qed.

Lemma length_enumerate {A} (l : list A) : length (enumerate l) = length l.
Proof. unfold enumerate. rewrite length_combine, length_seq. lia. Qed.

(** *** parse_cmdline *)

Lemma fill_map_run prefix : forall keys enum m help,
  List.NoDup keys -> (forall k, In k keys -> ~ In k (map fst m)) ->
  (length keys <= length enum)%nat ->
  fill_map prefix keys enum m help
  = Ok (skipn (length keys) enum,
        (m ++ combine keys (map snd (firstn (length keys) enum)))%list,
        (help ++ map (fun t => (prefix ++ snd t)%string)
                     (firstn (length keys) enum))%list).
Proof.
  induction keys as [|k keys IH]; intros enum m help Hnd Hfresh Hlen.
  - simpl. now rewrite !app_nil_r.
  - destruct enum as [|tup enum]; [simpl in Hlen; lia|].
    inversion Hnd as [|? ? Hk Hnd']; subst. cbn [fill_map].
    rewrite dict_set_fresh by (apply Hfresh; now left).
    rewrite IH; [ | assumption | | simpl in Hlen; lia].
    + cbn [length skipn firstn map combine]. now rewrite <- !app_assoc.
    + intros k' Hk' Hin. rewrite map_app in Hin. apply List.in_app_or in Hin.
      destruct Hin as [Hin | [<- | []]]; [|contradiction].
      apply (Hfresh k'); [now right | assumption].
Qed.

Lemma fill_map_short prefix : forall keys enum m help,
  (length enum < length keys)%nat ->
  fill_map prefix keys enum m help = Err (IndexError "pop from empty list").
Proof.
  induction keys as [|k keys IH]; intros enum m help Hlen; [simpl in Hlen; lia|].
  destruct enum as [|tup enum]; [reflexivity|]. cbn [fill_map].
  apply IH. simpl in Hlen. lia.
Qed.

(** X21.  The loop of [parse_cmdline] that fills a map pairs the option
    letters with the field names by position: with distinct letters, no
    more of them than there are names, the map is the letters zipped with
    the names, one help text per letter is appended in the same order, and
    the used pairs are gone from the enumeration; with more letters than
    names the loop fails on [pop(0)] of the emptied enumeration. *)
Theorem fill_map_zips prefix keys names help :
  List.NoDup keys ->
  ((length keys <= length names)%nat ->
   fill_map prefix keys (enumerate names) [] help
   = Ok (skipn (length keys) (enumerate names),
         combine keys (firstn (length keys) names),
         (help ++ map (fun n => (prefix ++ n)%string)
                      (firstn (length keys) names))%list)) /\
  ((length names < length keys)%nat ->
   fill_map prefix keys (enumerate names) [] help
   = Err (IndexError "pop from empty list")).
Proof.
  intros Hnd. split; intros Hlen.
  - rewrite fill_map_run; [ | assumption | intros k _ [] | now rewrite length_enumerate].
    cbn [app].
    assert (E : firstn (length keys) names
                = map snd (firstn (length keys) (enumerate names))).
    { now rewrite <- firstn_map, map_snd_enumerate. }
    rewrite E, List.map_map. reflexivity.
  - apply fill_map_short. now rewrite length_enumerate.
Qed.


Lemma pairs_functional {A B} (l : list (A * B)) a b b' :
  List.NoDup (map fst l) -> In (a, b) l -> In (a, b') l -> b = b'.
Proof.
  induction l as [|[x y] l IH]; simpl; [intros _ []|].
  intros Hnd H1 H2. inversion Hnd as [|? ? Hx Hnd']; subst.
  assert (Hfst : forall c, In (x, c) l -> False).
  { intros c Hc. apply Hx. apply List.in_map_iff. now exists (x, c). }
  destruct H1 as [H1|H1], H2 as [H2|H2].
  - congruence.
  - inversion H1; subst. now apply Hfst in H2.
  - inversion H2; subst. now apply Hfst in H1.
  - eauto.
Qed.

Lemma pairs_injective {A B} (l : list (A * B)) a a' b :
  List.NoDup (map snd l) -> In (a, b) l -> In (a', b) l -> a = a'.
Proof.
  induction l as [|[x y] l IH]; simpl; [intros _ []|].
  intros Hnd H1 H2. inversion Hnd as [|? ? Hy Hnd']; subst.
  assert (Hsnd : forall c, In (c, y) l -> False).
  { intros c Hc. apply Hy. apply List.in_map_iff. now exists (c, y). }
  destruct H1 as [H1|H1], H2 as [H2|H2].
  - congruence.
  - inversion H1; subst. now apply Hsnd in H2.
  - inversion H2; subst. now apply Hsnd in H1.
  - eauto.
Qed.

Lemma in_map_fst {A B} (l : list (A * B)) a :
  In a (map fst l) -> exists b, In (a, b) l.
Proof.
  intros H. apply List.in_map_iff in H as ([x y] & <- & H). now exists y.
Qed.

Lemma mem_cons opt key ks :
  mem opt (key :: ks) = (String.eqb opt key || mem opt ks)%bool.
Proof. reflexivity. Qed.

Lemma option_lists_disjoint k :
  In k old_list -> In k new_list -> False.
Proof.
  cbv [old_list new_list In].
  intros [<-|[<-|[<-|[<-|[]]]]] [H|[H|[H|[H|[]]]]]; discriminate.
Qed.

Lemma old_list_NoDup : List.NoDup old_list.
Proof.
  cbv [old_list]. repeat constructor; cbv [In];
    intros H; repeat destruct H as [H|H]; try discriminate; assumption.
Qed.

Lemma new_list_NoDup : List.NoDup new_list.
Proof.
  cbv [new_list]. repeat constructor; cbv [In];
    intros H; repeat destruct H as [H|H]; try discriminate; assumption.
Qed.

Lemma tokens_NoDup : List.NoDup tokens.
Proof.
  cbv [tokens]. repeat constructor; cbv [In];
    intros H; repeat destruct H as [H|H]; try discriminate; assumption.
Qed.

(** *** get_cmdline *)

Section Loop.
Variables (om nm : list (string * string)) (ns : list (string * PyVal)).
Hypothesis om_keys : map fst om = old_list.
Hypothesis nm_keys : map fst nm = new_list.
Hypothesis om_inj : List.NoDup (map snd om).
Hypothesis nm_inj : List.NoDup (map snd nm).

Lemma om_fun : List.NoDup (map fst om).
Proof. rewrite om_keys. apply old_list_NoDup. Qed.

Lemma nm_fun : List.NoDup (map fst nm).
Proof. rewrite nm_keys. apply new_list_NoDup. Qed.

Lemma in_om_old opt f : In (opt, f) om -> In opt old_list.
Proof.
  intros H. rewrite <- om_keys. apply List.in_map_iff. now exists (opt, f).
Qed.

Lemma in_nm_new opt f : In (opt, f) nm -> In opt new_list.
Proof.
  intros H. rewrite <- nm_keys. apply List.in_map_iff. now exists (opt, f).
Qed.

Lemma get_cmdline_loop_run : forall ks old_ new,
  (forall k, In k ks -> In k (map fst ns)) ->
  exists old' new',
    get_cmdline_loop om nm ns ks old_ new = Ok (old', new') /\
    (forall opt f, In (opt, f) om ->
       dict_get f old' = if mem opt ks then dict_get opt ns else dict_get f old_) /\
    (forall opt f, In (opt, f) nm ->
       dict_get f new' = if mem opt ks then dict_get opt ns else dict_get f new) /\
    (forall f, ~ In f (map snd om) -> dict_get f old' = dict_get f old_) /\
    (forall f, ~ In f (map snd nm) -> dict_get f new' = dict_get f new).
Proof.
  induction ks as [|key ks IH]; intros old_ new Hks.
  - exists old_, new. repeat split; reflexivity.
  - assert (Hks' : forall k, In k ks -> In k (map fst ns)).
    { intros k Hk. apply Hks. now right. }
    assert (Hv : exists v, dict_get key ns = Some v).
    { destruct (dict_get key ns) as [v|] eqn:E; [eauto|].
      apply dict_get_None in E. exfalso. apply E, Hks. now left. }
    destruct Hv as (v & Hv). cbn [get_cmdline_loop].
    destruct (mem key old_list) eqn:Hold; [|destruct (mem key new_list) eqn:Hnew].
    + apply mem_In in Hold. pose proof Hold as Hold'. rewrite <- om_keys in Hold'.
      destruct (in_map_fst _ _ Hold') as (field & Hfield).
      rewrite (dict_get_In _ _ _ om_fun Hfield), Hv.
      destruct (IH (dict_set field v old_) new Hks')
        as (old' & new' & Hrun & Ho & Hn & Hfo & Hfn).
      exists old', new'. split; [assumption|]. repeat split.
      * intros opt f Hin. rewrite (Ho opt f Hin), mem_cons.
        destruct (mem opt ks); [now rewrite orb_true_r|]. rewrite orb_false_r.
        destruct (String.eqb opt key) eqn:E.
        -- apply String.eqb_eq in E. subst opt.
           rewrite (pairs_functional _ _ _ _ om_fun Hin Hfield).
           now rewrite dict_get_set_eq.
        -- apply String.eqb_neq in E. apply dict_get_set_ne. intros ->.
           apply E. exact (pairs_injective _ _ _ _ om_inj Hin Hfield).
      * intros opt f Hin. rewrite (Hn opt f Hin), mem_cons.
        rewrite eqb_false_of_ne; [reflexivity|]. intros ->.
        exact (option_lists_disjoint key Hold (in_nm_new _ _ Hin)).
      * intros f Hf. rewrite (Hfo f Hf). apply dict_get_set_ne. intros ->.
        apply Hf. apply List.in_map_iff. now exists (key, field).
      * assumption.
    + apply mem_In in Hnew. pose proof Hnew as Hnew'. rewrite <- nm_keys in Hnew'.
      destruct (in_map_fst _ _ Hnew') as (field & Hfield).
      rewrite (dict_get_In _ _ _ nm_fun Hfield), Hv.
      destruct (IH old_ (dict_set field v new) Hks')
        as (old' & new' & Hrun & Ho & Hn & Hfo & Hfn).
      exists old', new'. split; [assumption|]. repeat split.
      * intros opt f Hin. rewrite (Ho opt f Hin), mem_cons.
        rewrite eqb_false_of_ne; [reflexivity|]. intros ->.
        exact (option_lists_disjoint key (in_om_old _ _ Hin) Hnew).
      * intros opt f Hin. rewrite (Hn opt f Hin), mem_cons.
        destruct (mem opt ks); [now rewrite orb_true_r|]. rewrite orb_false_r.
        destruct (String.eqb opt key) eqn:E.
        -- apply String.eqb_eq in E. subst opt.
           rewrite (pairs_functional _ _ _ _ nm_fun Hin Hfield).
           now rewrite dict_get_set_eq.
        -- apply String.eqb_neq in E. apply dict_get_set_ne. intros ->.
           apply E. exact (pairs_injective _ _ _ _ nm_inj Hin Hfield).
      * assumption.
      * intros f Hf. rewrite (Hfn f Hf). apply dict_get_set_ne. intros ->.
        apply Hf. apply List.in_map_iff. now exists (key, field).
    + destruct (IH old_ new Hks') as (old' & new' & Hrun & Ho & Hn & Hfo & Hfn).
      exists old', new'. split; [assumption|]. repeat split; try assumption.
      * intros opt f Hin. rewrite (Ho opt f Hin), mem_cons.
        rewrite eqb_false_of_ne; [reflexivity|]. intros ->.
        apply in_om_old, mem_In in Hin. congruence.
      * intros opt f Hin. rewrite (Hn opt f Hin), mem_cons.
        rewrite eqb_false_of_ne; [reflexivity|]. intros ->.
        apply in_nm_new, mem_In in Hin. congruence.
Qed.

End Loop.

Lemma mem_keys_overridden opt (ns : list (string * PyVal)) before :
  (if mem opt (map fst ns) then dict_get opt ns else before) = overridden opt ns before.
Proof.
  unfold overridden. destruct (dict_get opt ns) as [v|] eqn:E.
  - destruct (mem opt (map fst ns)) eqn:Hm; [reflexivity|].
    assert (In opt (map fst ns)).
    { destruct (List.in_dec string_dec opt (map fst ns)) as [H|H]; [assumption|].
      apply dict_get_None in H. congruence. }
    apply mem_In in H. congruence.
  - apply dict_get_None in E.
    destruct (mem opt (map fst ns)) eqn:Hm; [|reflexivity].
    apply mem_In in Hm. contradiction.
Qed.

(** X22.  [get_cmdline] never fails, and afterwards each field of the
    old server holds the value of its option ([-1], [-t], [-p], [-v] for
    server, user, password, token) when that option is on the command
    line, and its former value otherwise; likewise for the new server with
    [-2], [-u], [-q], [-w].  No other attribute changes, so the options of
    one server never touch the other and the keys [verbose] and [config]
    are passed over. *)
Theorem get_cmdline_overrides ns_map old_ new :
  exists old' new',
    get_cmdline (combine old_list tokens) (combine new_list tokens) ns_map old_ new
    = Ok (old', new') /\
    (forall opt f, In (opt, f) (combine old_list tokens) ->
       dict_get f old' = overridden opt ns_map (dict_get f old_)) /\
    (forall opt f, In (opt, f) (combine new_list tokens) ->
       dict_get f new' = overridden opt ns_map (dict_get f new)) /\
    (forall f, ~ In f tokens ->
       dict_get f old' = dict_get f old_ /\ dict_get f new' = dict_get f new).
Proof.
  destruct (get_cmdline_loop_run (combine old_list tokens) (combine new_list tokens)
              ns_map eq_refl eq_refl tokens_NoDup tokens_NoDup
              (map fst ns_map) old_ new (fun k H => H))
    as (old' & new' & Hrun & Ho & Hn & Hfo & Hfn).
  exists old', new'. split; [exact Hrun|]. repeat split.
  - intros opt f Hin. rewrite (Ho opt f Hin). apply mem_keys_overridden.
  - intros opt f Hin. rewrite (Hn opt f Hin). apply mem_keys_overridden.
  - now apply Hfo.
  - now apply Hfn.
Qed.

(** *** parse_cmdline and the constructor *)

Lemma parse_cmdline_run creds_ vars_items :
  parse_cmdline creds_ vars_items
  = match dict_get "verbose" (List.filter is_not_None vars_items) with
    | None => Err (KeyError "verbose")
    | Some v =>
        Ok {| p_old_map := combine old_list tokens;
              p_new_map := combine new_list tokens;
              p_parser :=
                [StrOption "-1" "old server"; StrOption "-t" "old user";
                 StrOption "-p" "old password"; StrOption "-v" "old token";
                 StrOption "-2" "new server"; StrOption "-u" "new user";
                 StrOption "-q" "new password"; StrOption "-w" "new token";
                 StoreTrue "-V" "--verbose"; StrOptionLong "-c" "--config"];
              p_creds := match dict_get "config" (List.filter is_not_None vars_items) with
                         | Some c => ValOf c
                         | None => creds_
                         end;
              p_verbose := v;
              p_ns_map := List.filter is_not_None vars_items |}
    end.
Proof. reflexivity. Qed.

(** X23.  [parse_cmdline] registers the eight options in the order
    [-1 -t -p -v -2 -u -q -w], each with the help text of its server and
    field, then [-V/--verbose] and [-c/--config]; it keeps the items of the
    namespace that are not [None], takes the credentials path from [-c]
    when that option was given and leaves it alone otherwise, and fails
    with [KeyError] when the namespace has no [verbose]. *)
Theorem parse_cmdline_result creds_ vars_items :
  let ns_map := List.filter is_not_None vars_items in
  (dict_get "verbose" ns_map = None ->
   parse_cmdline creds_ vars_items = Err (KeyError "verbose")) /\
  (forall v, dict_get "verbose" ns_map = Some v ->
     exists p,
       parse_cmdline creds_ vars_items = Ok p /\
       p_ns_map p = ns_map /\ p_verbose p = v /\
       p_creds p = match dict_get "config" ns_map with
                   | Some c => ValOf c
                   | None => creds_
                   end /\
       p_old_map p = [("1", "server"); ("t", "user"); ("p", "password"); ("v", "token")] /\
       p_new_map p = [("2", "server"); ("u", "user"); ("q", "password"); ("w", "token")] /\
       p_parser p
       = [StrOption "-1" "old server"; StrOption "-t" "old user";
          StrOption "-p" "old password"; StrOption "-v" "old token";
          StrOption "-2" "new server"; StrOption "-u" "new user";
          StrOption "-q" "new password"; StrOption "-w" "new token";
          StoreTrue "-V" "--verbose"; StrOptionLong "-c" "--config"]).
Proof.
  intros ns_map. subst ns_map. rewrite parse_cmdline_run. split.
  - now intros ->.
  - intros v ->. eexists. split; [reflexivity|]. repeat split.
Qed.

Lemma Server_kw_run kwargs :
  (forall k, In k (map fst kwargs) -> In k tokens) ->
  Server_kw kwargs = Ok (map (fun f => (f, field_or_default f kwargs)) tokens).
Proof.
  intros Hkeys. unfold Server_kw.
  destruct (find (fun kv => negb (existsb (String.eqb (fst kv)) tokens)) kwargs)
    as [kv|] eqn:Hf; [|reflexivity].
  apply List.find_some in Hf as [Hin Hneg]. exfalso.
  assert (Hk : In (fst kv) tokens).
  { apply Hkeys. apply List.in_map_iff. now exists kv. }
  apply mem_In in Hk. unfold mem in Hk. now rewrite Hk in Hneg.
Qed.

Lemma dict_get_fields f kwargs :
  In f tokens ->
  dict_get f (map (fun f => (f, field_or_default f kwargs)) tokens)
  = Some (field_or_default f kwargs).
Proof.
  cbv [tokens In]. intros [<-|[<-|[<-|[<-|[]]]]]; reflexivity.
Qed.

Lemma in_combine_tokens (l : list string) opt f :
  In (opt, f) (combine l tokens) -> In f tokens.
Proof. apply List.in_combine_r. Qed.

(** X24.  The constructor of [Config] settles each field of each server
    by three sources in this order: the option on the command line, the
    key of the server's table in the credentials file, the empty string.
    The file that is read is the one named by [-c] when given, the
    constructor's argument otherwise, and [.server_creds.toml] in the home
    directory when there is neither. *)
Theorem config_precedence load vars_items creds_arg v config t_old t_new :
  let ns_map := List.filter is_not_None vars_items in
  let path := match dict_get "config" ns_map with
              | Some c => ValOf c
              | None => match creds_arg with
                        | None => HomeFile ".server_creds.toml"
                        | Some c => PathOf c
                        end
              end in
  dict_get "verbose" ns_map = Some v ->
  load path = Ok config ->
  dict_get "old" config = Some (Table t_old) ->
  dict_get "new" config = Some (Table t_new) ->
  (forall k, In k (map fst t_old) -> In k tokens) ->
  (forall k, In k (map fst t_new) -> In k tokens) ->
  exists cfg,
    Config__init__ load vars_items creds_arg = Ok cfg /\
    creds cfg = path /\ get_verbose cfg = v /\
    (forall opt f, In (opt, f) (combine old_list tokens) ->
       dict_get f (old cfg)
       = Some (match dict_get opt ns_map with
               | Some x => x
               | None => match dict_get f t_old with
                         | Some x => x
                         | None => PyStr ""
                         end
               end)) /\
    (forall opt f, In (opt, f) (combine new_list tokens) ->
       dict_get f (new cfg)
       = Some (match dict_get opt ns_map with
               | Some x => x
               | None => match dict_get f t_new with
                         | Some x => x
                         | None => PyStr ""
                         end
               end)).
Proof.
  intros ns_map path Hv Hload Hold Hnew Hko Hkn.
  unfold Config__init__. rewrite parse_cmdline_run. fold ns_map. rewrite Hv.
  cbn [p_creds p_old_map p_new_map p_ns_map p_verbose].
  assert (Hpath : match dict_get "config" ns_map with
                  | Some c => ValOf c
                  | None => match creds_arg with
                            | Some c => PathOf c
                            | None => HomeFile SERVER_CREDS
                            end
                  end = path).
  { unfold path. destruct (dict_get "config" ns_map); [reflexivity|].
    now destruct creds_arg. }
  assert (Hpath' : match dict_get "config" ns_map with
                   | Some c => ValOf c
                   | None => match creds_arg with
                             | None => HomeFile SERVER_CREDS
                             | Some c => PathOf c
                             end
                   end = path).
  { unfold path. destruct (dict_get "config" ns_map); [reflexivity|].
    now destruct creds_arg. }
  rewrite Hpath'. unfold read_creds. rewrite Hload.
  unfold server_of_section. rewrite Hold, Hnew.
  rewrite (Server_kw_run _ Hko), (Server_kw_run _ Hkn).
  destruct (get_cmdline_loop_run (combine old_list tokens) (combine new_list tokens)
              ns_map eq_refl eq_refl tokens_NoDup tokens_NoDup
              (map fst ns_map)
              (map (fun f => (f, field_or_default f t_old)) tokens)
              (map (fun f => (f, field_or_default f t_new)) tokens)
              (fun k H => H))
    as (old' & new' & Hrun & Ho & Hn & _ & _).
  unfold get_cmdline. rewrite Hrun. eexists. split; [reflexivity|].
  cbn [creds old new get_verbose verbose]. split; [reflexivity|].
  split; [reflexivity|]. split.
  - intros opt f Hin. rewrite (Ho opt f Hin), mem_keys_overridden.
    unfold overridden. rewrite (dict_get_fields _ _ (in_combine_tokens _ _ _ Hin)).
    unfold field_or_default. now destruct (dict_get opt ns_map).
  - intros opt f Hin. rewrite (Hn opt f Hin), mem_keys_overridden.
    unfold overridden. rewrite (dict_get_fields _ _ (in_combine_tokens _ _ _ Hin)).
    unfold field_or_default. now destruct (dict_get opt ns_map).
Qed.
End Configuration.

(** * The further properties on the sample servers *)

Section OnTheSampleAgain.
Import Sample.

Example constructed_is_fresh verbose :
  Startup.constructed verbose
  = {| cls_device_cnt := 1; heap := [Startup.fresh verbose];
       log := []; stderr := []; trace := [] |}.
Proof. reflexivity. Qed.

Lemma formatted_fetched_not_posted_witness :
  formatted_not_text (notice "$2" "beep") = true /\
  exists evs w1,
    get_room_events nio0 str_nat 10 0 (Some notes) (logged_in [] [] false)
    = (Ret evs, w1) /\
    In (notice "$2" "beep") evs /\ (0 < length evs)%nat /\
    (forall r' room w0,
       send_loop nio0 r' room evs w0
       = send_loop nio0 r' room
           (List.filter (fun x => negb (formatted_not_text x)) evs) w0) /\
    (forall r' room w0 w2,
       send_events nio0 r' room evs w0 = (Ret tt, w2) ->
       exists posts,
         sends (trace w2) = (sends (trace w0) ++ posts)%list /\
         Forall2 (fun x p => room_id <$> room = Some (fst p) /\ posted_for x (snd p))
                 (List.filter (fun x => isinstance x send_classes) evs) posts /\
         ~ In (notice "$2" "beep")
              (List.filter (fun x => isinstance x send_classes) evs) /\
         (length posts < length evs)%nat).
Proof.
  split; [reflexivity|].
  destruct (formatted_fetched_not_posted nio0 str_nat (notice "$2" "beep") eq_refl)
    as (_ & _ & _ & _ & _ & _ & Htimeline).
  apply (Htimeline notes notes_timeline (fun t => t) _ 10%nat 0%nat
           (logged_in [] [] false)
           (session config_old None ["notes"] (synced [] (old_server [])) false)
           (synced [] (old_server []))
           (homeserver_paginates (net [] []) "!notes:old"
              (synced [] (old_server [])) notes eq_refl eq_refl)
           eq_refl eq_refl).
  - repeat split.
  - simpl. lia.
  - simpl. auto.
Defined.

Lemma login_prefers_password_witness :
  exists tr,
    trace (snd (login nio0 0 (Startup.constructed false)))
    = ([] ++ CallLogin 0%nat (ByPassword "pw") :: tr)%list /\
    (password config_old <> ""%string ->
     credential_of config_old = ByPassword (password config_old)) /\
    (password config_old = ""%string ->
     credential_of config_old = ByToken (token config_old)).
Proof.
  exact (login_prefers_password nio0 0%nat (Startup.constructed false)
           (Startup.fresh false) eq_refl).
Defined.

Lemma login_refused_exits_witness :
  fst (login (Homeserver.nio (net [Homeserver.FailLogin] [])) 0
         (Startup.constructed true))
  = Raise (SystemExit (-1)) /\
  trace (snd (login (Homeserver.nio (net [Homeserver.FailLogin] [])) 0
                (Startup.constructed true)))
  = ([] ++ [CallLogin 0%nat (ByPassword "pw")])%list /\
  log (snd (login (Homeserver.nio (net [Homeserver.FailLogin] [])) 0
              (Startup.constructed true)))
  = ([] ++ [(ERROR, "Logged into server https://old.example")]
        ++ [(ERROR, "LoginError: M_FORBIDDEN");
            (ERROR, "Cannot log into https://old.example, aborting")])%list /\
  names_at 0 (snd (login (Homeserver.nio (net [Homeserver.FailLogin] [])) 0
                     (Startup.constructed true)))
  = names_at 0 (Startup.constructed true).
Proof.
  eapply (login_refused_exits (Homeserver.nio (net [Homeserver.FailLogin] []))
            0%nat (Startup.constructed true) (Startup.fresh true));
    reflexivity.
Defined.

Lemma login_records_rooms_witness :
  exists w' o',
    login nio0 0 (Startup.constructed false) = (Ret tt, w') /\
    heap w' !! 0%nat = Some o' /\
    client o' = Some (Homeserver.set_logged_in true
                        (Homeserver.with_rooms
                           (Homeserver.set_device_id "migrate_server_1" (old_server []))
                           [("!notes:old", notes)] [("!notes:old", notes)]
                           [("!notes:old", notes_timeline)])) /\
    rooms_bound o' = true /\
    room_names o' = ([] ++ ["notes"])%list /\
    trace w' = ([] ++ [CallLogin 0%nat (ByPassword "pw"); CallSync 0%nat])%list /\
    forall rm, In rm [notes] ->
      exists found, get_room nio0 0 (display_name rm) w' = (Ret (Some found), w') /\
                    display_name found = display_name rm.
Proof.
  eapply (login_records_rooms nio0 0%nat (Startup.constructed false)
            (Startup.fresh false)); reflexivity.
Defined.

Lemma logout_error_is_logged_witness :
  fst (logout nio0 0 (logged_in [Homeserver.FailLogout] [] true)) = Ret tt /\
  trace (snd (logout nio0 0 (logged_in [Homeserver.FailLogout] [] true)))
  = ([] ++ [CallLogout 0%nat])%list /\
  log (snd (logout nio0 0 (logged_in [Homeserver.FailLogout] [] true)))
  = ([] ++ [(ERROR, "Logging out from https://old.example failed with LogoutError: M_UNKNOWN")]
        ++ [(ERROR, "Logged out of server https://old.example")])%list /\
  stderr (snd (logout nio0 0 (logged_in [Homeserver.FailLogout] [] true)))
  = ([] ++ ["Logged out of server https://old.example"])%list.
Proof.
  eapply (logout_error_is_logged nio0 0%nat (logged_in [Homeserver.FailLogout] [] true)
            (session config_old None ["notes"]
               (synced [Homeserver.FailLogout] (old_server [])) true)
            _ "M_UNKNOWN"); reflexivity.
Defined.

Lemma get_room_finds_first_witness :
  get_room nio0 0 "notes" (logged_in [] [] false)
  = (Ret (Some notes), logged_in [] [] false) /\
  logged_in [] [] false = logged_in [] [] false /\
  display_name notes = "notes" /\
  exists o c before after,
    heap (logged_in [] [] false) !! 0%nat = Some o /\ "notes" ∈ room_names o /\
    client o = Some c /\
    map snd (nio_rooms nio0 c) = (before ++ notes :: after)%list /\
    Forall (fun x => display_name x <> "notes") before.
Proof.
  assert (H : get_room nio0 0 "notes" (logged_in [] [] false)
              = (Ret (Some notes), logged_in [] [] false)) by (vm_compute; reflexivity).
  split; [exact H|].
  exact (get_room_finds_first nio0 0%nat "notes" (logged_in [] [] false) notes
           (logged_in [] [] false) H).
Defined.

Lemma create_room_refused_exits_witness :
  fst (create_room nio0 1 "notes" (logged_in [] [Homeserver.FailRoomCreate] false))
  = Raise (SystemExit (-1)) /\
  trace (snd (create_room nio0 1 "notes"
                (logged_in [] [Homeserver.FailRoomCreate] false)))
  = ([] ++ [CallRoomCreate 1%nat "notes"])%list /\
  log (snd (create_room nio0 1 "notes"
              (logged_in [] [Homeserver.FailRoomCreate] false)))
  = ([] ++ [(ERROR, "Room creation error RoomCreateError: M_FORBIDDEN");
            (ERROR, "Cannot create room notes, aborting")])%list /\
  names_at 1 (snd (create_room nio0 1 "notes"
                     (logged_in [] [Homeserver.FailRoomCreate] false)))
  = names_at 1 (logged_in [] [Homeserver.FailRoomCreate] false).
Proof.
  eapply (create_room_refused_exits nio0 1%nat "notes"
            (logged_in [] [Homeserver.FailRoomCreate] false)
            _ 0%nat notes _ "M_FORBIDDEN"); reflexivity.
Defined.

Lemma create_room_without_source_witness :
  create_room nio0 1 "diary" (logged_in [] [] false)
  = (Raise (AttributeError "'NoneType' object has no attribute 'room_version'"),
     logged_in [] [] false).
Proof.
  eapply (create_room_without_source nio0 1%nat "diary" (logged_in [] [] false)
            _ 0%nat); try reflexivity.
  apply (bool_decide_eq_false_1 _). vm_compute. reflexivity.
Defined.

Lemma create_room_returns_witness :
  create_room nio0 1 "notes" (logged_in [] [] false)
  = (Ret (Some room0), snd (create_room nio0 1 "notes" (logged_in [] [] false))) /\
  exists o o' c',
    heap (logged_in [] [] false) !! 1%nat = Some o /\
    heap (snd (create_room nio0 1 "notes" (logged_in [] [] false))) !! 1%nat = Some o' /\
    room_names o' = (room_names o ++ ["notes"])%list /\
    rooms_bound o' = true /\ client o' = Some c' /\
    Some room0 = first_named "notes" (nio_rooms nio0 c') /\
    trace (snd (create_room nio0 1 "notes" (logged_in [] [] false)))
    = ([] ++ [CallRoomCreate 1%nat "notes"; CallSync 1%nat])%list.
Proof.
  assert (H : create_room nio0 1 "notes" (logged_in [] [] false)
              = (Ret (Some room0),
                 snd (create_room nio0 1 "notes" (logged_in [] [] false))))
    by (vm_compute; reflexivity).
  split; [exact H|].
  exact (create_room_returns nio0 1%nat "notes" (logged_in [] [] false) (Some room0)
           _ H).
Defined.

Lemma room_without_events_is_skipped_witness :
  fst (migrate_room Lobby.nio str_nat 10 0 1 "!lobby:old" Lobby.logged_in) = Ret tt /\
  created_names (trace (snd (migrate_room Lobby.nio str_nat 10 0 1 "!lobby:old"
                               Lobby.logged_in)))
  = created_names (trace Lobby.logged_in) /\
  sends (trace (snd (migrate_room Lobby.nio str_nat 10 0 1 "!lobby:old"
                       Lobby.logged_in)))
  = sends (trace Lobby.logged_in).
Proof.
  apply (room_without_events_is_skipped Lobby.nio str_nat Lobby.lobby Lobby.timeline
           (fun t => t) _ 10%nat 0%nat 1%nat Lobby.logged_in
           (session config_old None ["lobby"] (synced [] Lobby.old_server) false)
           (synced [] Lobby.old_server)
           (homeserver_paginates Lobby.net "!lobby:old" (synced [] Lobby.old_server)
              Lobby.lobby eq_refl eq_refl)
           eq_refl eq_refl eq_refl).
  - repeat split.
  - reflexivity.
  - simpl. lia.
  - reflexivity.
Defined.

Lemma send_exception_is_fatal_witness :
  fst (send_loop nio0 1 (Some room0) [text "$1" "hello"; text "$5" "world"]
         (logged_in [] [Homeserver.RaiseSend] false))
  = Raise (SystemExit (-1)) /\
  sends (trace (snd (send_loop nio0 1 (Some room0)
                       [text "$1" "hello"; text "$5" "world"]
                       (logged_in [] [Homeserver.RaiseSend] false))))
  = ([] ++ [("!room0", TextContent "hello" "m.text")])%list /\
  log (snd (send_loop nio0 1 (Some room0) [text "$1" "hello"; text "$5" "world"]
              (logged_in [] [Homeserver.RaiseSend] false)))
  = ([] ++ [(ERROR, "Exception connection lost occurred during message sending")])%list.
Proof.
  eapply (send_exception_is_fatal nio0 1%nat room0 (text "$1" "hello")
            [text "$5" "world"] (logged_in [] [Homeserver.RaiseSend] false)
            _ _ "m.text" "connection lost"); reflexivity.
Defined.

Lemma send_error_response_is_ignored_witness :
  post_event Rejecting.nio 1 (Some room0) (text "$1" "hello") (logged_in [] [] false)
  = (Ret tt,
     upd_inst 1 (set_client (synced [] (new_server [])))
       (add_trace (CallRoomSend 1%nat "!room0" "m.room.message"
                     (TextContent "hello" "m.text")) (logged_in [] [] false))) /\
  log (snd (post_event Rejecting.nio 1 (Some room0) (text "$1" "hello")
              (logged_in [] [] false))) = [] /\
  stderr (snd (post_event Rejecting.nio 1 (Some room0) (text "$1" "hello")
                 (logged_in [] [] false))) = [].
Proof.
  eapply (send_error_response_is_ignored Rejecting.nio 1%nat room0 (text "$1" "hello")
            (logged_in [] [] false) _ _ "m.text" false); reflexivity.
Defined.


Lemma upload_error_raises_witness :
  fst (post_event nio0 1 (Some room0) cat (logged_in [] [Homeserver.FailUpload] false))
  = Raise (AttributeError "'UploadError' object has no attribute 'content_uri'") /\
  trace (snd (post_event nio0 1 (Some room0) cat
                (logged_in [] [Homeserver.FailUpload] false)))
  = ([] ++ [CallDownload 0%nat "mxc://old/cat";
            CallUpload 1%nat cat_bytes "image/png" (Some "cat.png") 5])%list /\
  sends (trace (snd (post_event nio0 1 (Some room0) cat
                       (logged_in [] [Homeserver.FailUpload] false))))
  = sends (trace (logged_in [] [Homeserver.FailUpload] false)).
Proof.
  eapply (upload_error_raises nio0 1%nat (Some room0) cat
            (logged_in [] [Homeserver.FailUpload] false) _ 0%nat _ _ _
            cat_bytes "image/png" (Some "cat.png") _ "M_TOO_LARGE");
    try reflexivity.
  discriminate.
Defined.

Lemma replay_keeps_order_witness :
  send_events nio0 1 (Some room0) fetched (logged_in [] [] false)
  = (Ret tt, snd (send_events nio0 1 (Some room0) fetched (logged_in [] [] false))) /\
  exists posts,
    sends (trace (snd (send_events nio0 1 (Some room0) fetched (logged_in [] [] false))))
    = ([] ++ posts)%list /\
    Forall2 (fun e p => Some "!room0" = Some (fst p) /\ posted_for e (snd p))
            [text "$1" "hello"; cat; text "$5" "world"] posts.
Proof.
  assert (H : send_events nio0 1 (Some room0) fetched (logged_in [] [] false)
              = (Ret tt, snd (send_events nio0 1 (Some room0) fetched
                                (logged_in [] [] false))))
    by (vm_compute; reflexivity).
  split; [exact H|].
  exact (replay_keeps_order nio0 1%nat (Some room0) fetched (logged_in [] [] false)
           _ H).
Defined.

Lemma verbose_replay_counts_all_witness :
  send_events nio0 1 (Some room0) fetched (logged_in [] [] true)
  = (Ret tt, snd (send_events nio0 1 (Some room0) fetched (logged_in [] [] true))) /\
  exists w1 posts,
    send_loop nio0 1 (Some room0) fetched (logged_in [] [] true) = (Ret tt, w1) /\
    log (snd (send_events nio0 1 (Some room0) fetched (logged_in [] [] true)))
    = (log w1 ++ [(ERROR, "Posted 5 to room notes")])%list /\
    stderr (snd (send_events nio0 1 (Some room0) fetched (logged_in [] [] true)))
    = (stderr w1 ++ ["Posted 5 to room notes"])%list /\
    sends (trace (snd (send_events nio0 1 (Some room0) fetched (logged_in [] [] true))))
    = ([] ++ posts)%list /\
    length posts = 3%nat.
Proof.
  assert (H : send_events nio0 1 (Some room0) fetched (logged_in [] [] true)
              = (Ret tt, snd (send_events nio0 1 (Some room0) fetched
                                (logged_in [] [] true))))
    by (vm_compute; reflexivity).
  split; [exact H|].
  exact (verbose_replay_counts_all nio0 1%nat room0 fetched (logged_in [] [] true)
           (session config_new (Some 0%nat) [] (synced [] (new_server [])) true)
           _ eq_refl eq_refl H).
Defined.

Lemma filtered_page_does_not_stop_witness :
  fst (fetch_room_events Lobby.nio str_nat 2 0 2%nat (Some Lobby.lobby) back
         Lobby.logged_in) = Ret [] /\
  trace (snd (fetch_room_events Lobby.nio str_nat 2 0 2%nat (Some Lobby.lobby) back
                Lobby.logged_in))
  = ([] ++ [CallRoomMessages 0%nat "!lobby:old" 2%nat 1000 back;
            CallRoomMessages 0%nat "!lobby:old" 0%nat 1000 back])%list.
Proof.
  eapply (filtered_page_does_not_stop Lobby.nio str_nat 0%nat Lobby.lobby back 2%nat
            Lobby.logged_in _ _ [member "$1"; member "$0"] 2%nat 0%nat _ _ _ _ 0%nat);
    try reflexivity.
  discriminate.
Defined.

Lemma fetch_never_returns_without_empty_page_witness :
  fst (fetch_room_events Endless.nio str_nat 50 0 0%nat (Some notes) back
         (logged_in [] [] false)) = OutOfFuel.
Proof.
  eapply (fetch_never_returns_without_empty_page Endless.nio str_nat 0%nat notes back).
  - intros c t. exists [member "$m"], t, (S t), c. split; [reflexivity|discriminate].
  - reflexivity.
  - reflexivity.
Defined.

Lemma main_stops_at_refused_source_login_witness :
  fst (main (Homeserver.nio (net [Homeserver.FailLogin] [])) str_nat 10
         config_old config_new false initial_world)
  = Raise (SystemExit (-1)) /\
  trace (snd (main (Homeserver.nio (net [Homeserver.FailLogin] [])) str_nat 10
                config_old config_new false initial_world))
  = [CallLogin 0%nat (ByPassword "pw")] /\
  length (heap (snd (main (Homeserver.nio (net [Homeserver.FailLogin] [])) str_nat 10
                       config_old config_new false initial_world))) = 1%nat.
Proof.
  eapply (main_stops_at_refused_source_login
            (Homeserver.nio (net [Homeserver.FailLogin] [])) str_nat 10%nat
            config_old config_new false "M_FORBIDDEN"); reflexivity.
Defined.

Lemma catalog_change_stops_the_loop_witness :
  main_loop Growing.nio str_nat 10 0 1 1 0 2 (logged_in [] [] false)
  = (Raise (RuntimeError "dictionary changed size during iteration"),
     snd (migrate_room Growing.nio str_nat 10 0 1 "!notes:old" (logged_in [] [] false))).
Proof.
  eapply (catalog_change_stops_the_loop Growing.nio str_nat 10%nat 0%nat 1%nat 0%nat
            0%nat (logged_in [] [] false)
            (session config_old None ["notes"] (synced [] (old_server [])) false)
            (synced [] (old_server [])) "!notes:old" notes);
    try (vm_compute; reflexivity).
  vm_compute. discriminate.
Defined.


Import Config.

Lemma fill_map_zips_witness :
  fill_map "old " old_list (enumerate tokens) [] []
  = Ok ([],
        [("1", "server"); ("t", "user"); ("p", "password"); ("v", "token")],
        ["old server"; "old user"; "old password"; "old token"]) /\
  fill_map "new " ["2"; "u"; "q"; "w"; "x"] (enumerate tokens) [] []
  = Err (IndexError "pop from empty list").
Proof.
  split.
  - apply (proj1 (fill_map_zips "old " old_list tokens [] old_list_NoDup)).
    simpl. lia.
  - apply (proj2 (fill_map_zips "new " ["2"; "u"; "q"; "w"; "x"] tokens []
                    ltac:(repeat constructor; simpl; intuition discriminate))).
    simpl. lia.
Defined.

Lemma parse_cmdline_result_witness :
  exists p,
    parse_cmdline (HomeFile SERVER_CREDS) Startup.vars_items = Ok p /\
    p_ns_map p = [("1", PyStr "https://cli.example"); ("q", PyStr "secret");
                  ("verbose", PyBool false)] /\
    p_verbose p = PyBool false /\
    p_creds p = HomeFile SERVER_CREDS /\
    p_old_map p = [("1", "server"); ("t", "user"); ("p", "password"); ("v", "token")] /\
    p_new_map p = [("2", "server"); ("u", "user"); ("q", "password"); ("w", "token")] /\
    p_parser p
    = [StrOption "-1" "old server"; StrOption "-t" "old user";
       StrOption "-p" "old password"; StrOption "-v" "old token";
       StrOption "-2" "new server"; StrOption "-u" "new user";
       StrOption "-q" "new password"; StrOption "-w" "new token";
       StoreTrue "-V" "--verbose"; StrOptionLong "-c" "--config"].
Proof.
  exact (proj2 (parse_cmdline_result (HomeFile SERVER_CREDS) Startup.vars_items)
           (PyBool false) eq_refl).
Defined.

Lemma config_precedence_witness :
  exists cfg,
    Config__init__ Startup.load Startup.vars_items None = Ok cfg /\
    creds cfg = HomeFile ".server_creds.toml" /\
    get_verbose cfg = PyBool false /\
    dict_get "server" (old cfg) = Some (PyStr "https://cli.example") /\
    dict_get "password" (old cfg) = Some (PyStr "pw") /\
    dict_get "token" (old cfg) = Some (PyStr "") /\
    dict_get "password" (new cfg) = Some (PyStr "secret") /\
    dict_get "token" (new cfg) = Some (PyStr "tok").
Proof.
  destruct (config_precedence Startup.load Startup.vars_items None (PyBool false)
              Startup.file
              [("server", PyStr "https://old.example"); ("user", PyStr "@me:old");
               ("password", PyStr "pw")]
              [("server", PyStr "https://new.example"); ("user", PyStr "@me:new");
               ("token", PyStr "tok")]
              eq_refl eq_refl eq_refl eq_refl
              ltac:(simpl; intuition)
              ltac:(simpl; intuition))
    as (cfg & Hcfg & Hcreds & Hverb & Ho & Hn).
  exists cfg. repeat split; try assumption.
  - apply (Ho "1" "server"). simpl. auto.
  - apply (Ho "p" "password"). simpl. auto.
  - apply (Ho "v" "token"). simpl. auto.
  - apply (Hn "q" "password"). simpl. auto.
  - apply (Hn "w" "token"). simpl. auto.
Defined.

End OnTheSampleAgain.
